(** * browser-agent: the security layer, the tab registry, the task loop,
      the streamed answer and the extracted elements

    A shallow embedding of
      - the security constants      ([constants/security.js], in
                                     [src/unnamed/part_001]),
      - class [SecurityLayer]       ([src/src/agent/security.ts], lines 11-237),
      - class [BrowserManager]      ([browser/manager.js], in
                                     [src/unnamed/part_005]),
      - class [AgentVisualizer]     ([agent/visualizer.js], in
                                     [src/unnamed/part_006]), its state and
                                     the error its display of a plan throws,
      - class [BrowserAgent]        ([agent/agent.js], which follows the
                                     security layer in
                                     [src/src/agent/security.ts]),
      - class [PlanningUtils]       ([src/src/agent/planning-system.ts]),
      - class [LLMClient]           (in [src/unnamed/part_002]), the assembly
                                     of a streamed answer,
      - class [DOMExtractor]        ([src/src/browser/dom-extractor.ts]), the
                                     ordering and the selection of the
                                     elements,
    followed by the properties established about them.

    Strings are Rocq [string]s holding the UTF-8 bytes of the JavaScript
    string.  All the keywords and patterns of the source are made of code
    points of the Basic Multilingual Plane, so that looking for them as a
    run of bytes in well-formed UTF-8 finds what [String.prototype.includes]
    finds as a run of UTF-16 code units.

    The language model, the browser and the user are the environment: what
    they answer is an input of the functions below. *)

From stdpp Require Import base gmap sets list strings sorting.
From Stdlib Require Import ZArith Ascii DecimalString DecimalNat.

Local Open Scope string_scope.
Local Open Scope list_scope.

(** ** JavaScript primitives *)

Module JS.

(** What a call gives back: a value, or a thrown [Error] with its message. *)
Inductive Result (A : Type) : Type :=
| Ok (a : A)
| Throw (message : string).
Arguments Ok {A} a.
Arguments Throw {A} message.

(** [s.includes(k)] *)
Fixpoint includes (s k : string) : bool :=
  String.prefix k s ||
  match s with
  | EmptyString => false
  | String _ rest => includes rest k
  end.

(** [String.prototype.toLowerCase] follows the Unicode case tables, which
    are not reproduced: the development is parametric in it.  The one law
    used is that the empty string has no letters to lower. *)
Class Lowercase : Type := {
  toLowerCase : string -> string;
  toLowerCase_empty : toLowerCase "" = ""
}.

(** Lowering of the letters [A]..[Z] only. *)
Definition lower_ascii (c : ascii) : ascii :=
  let n := nat_of_ascii c in
  if (65 <=? n)%nat && (n <=? 90)%nat then ascii_of_nat (n + 32) else c.

Fixpoint asciiLower (s : string) : string :=
  match s with
  | EmptyString => EmptyString
  | String c rest => String (lower_ascii c) (asciiLower rest)
  end.

(** An instance that agrees with JavaScript on strings whose only cased
    letters are ASCII; the concrete examples below are of that kind. *)
Definition asciiLowercase : Lowercase :=
  {| toLowerCase := asciiLower; toLowerCase_empty := eq_refl |}.

(** [/source/i.test(s)] for a pattern that is a plain word.  Without the
    [u] flag the canonicalisation of the [i] flag never maps a code unit
    above 127 to one below, so the match is the ASCII-insensitive search. *)
Definition regex_test_i (source s : string) : bool :=
  includes (asciiLower s) (asciiLower source).

(** Truthiness of an optional string: [undefined] and [''] are falsy. *)
Definition truthy (o : option string) : bool :=
  match o with
  | Some (String _ _) => true
  | _ => false
  end.

(** [o || d] on an optional string. *)
Definition or_else (o : option string) (d : string) : string :=
  match o with
  | Some (String c r) => String c r
  | _ => d
  end.

Definition dquote : string := String (ascii_of_nat 34) EmptyString.
Definition backslash : string := String (ascii_of_nat 92) EmptyString.

Definition hex_digit (n : nat) : ascii :=
  if (n <? 10)%nat then ascii_of_nat (48 + n) else ascii_of_nat (87 + n).

(** The escape [JSON.stringify] writes for one character of a string. *)
Definition json_escape (c : ascii) : string :=
  let n := nat_of_ascii c in
  if (n =? 34)%nat then backslash +:+ dquote
  else if (n =? 92)%nat then backslash +:+ backslash
  else if (n =? 8)%nat then backslash +:+ "b"
  else if (n =? 12)%nat then backslash +:+ "f"
  else if (n =? 10)%nat then backslash +:+ "n"
  else if (n =? 13)%nat then backslash +:+ "r"
  else if (n =? 9)%nat then backslash +:+ "t"
  else if (n <? 32)%nat then
    backslash +:+ "u00" +:+
    String (hex_digit (n / 16)) (String (hex_digit (n mod 16)) EmptyString)
  else String c EmptyString.

Fixpoint json_chars (s : string) : string :=
  match s with
  | EmptyString => EmptyString
  | String c rest => json_escape c +:+ json_chars rest
  end.

Definition json_string (s : string) : string :=
  dquote +:+ json_chars s +:+ dquote.

Fixpoint json_members (kvs : list (string * string)) : string :=
  match kvs with
  | [] => EmptyString
  | [(k, v)] => json_string k +:+ ":" +:+ json_string v
  | (k, v) :: rest =>
      json_string k +:+ ":" +:+ json_string v +:+ "," +:+ json_members rest
  end.

(** [JSON.stringify] of a [Record<string, string>], given as its own
    properties in the order the object enumerates them. *)
Definition JSON_stringify (o : list (string * string)) : string :=
  "{" +:+ json_members o +:+ "}".

(** [o[k]] on such an object. *)
Fixpoint prop (o : list (string * string)) (k : string) : option string :=
  match o with
  | [] => None
  | (k', v) :: rest => if String.eqb k' k then Some v else prop rest k
  end.

(** [String(n)] for a natural number and for an integer. *)
Definition nat_to_string (n : nat) : string :=
  NilEmpty.string_of_uint (Nat.to_uint n).

Definition Z_to_string (z : Z) : string :=
  NilZero.string_of_int (Z.to_int z).

(** [xs.sort(cmp)]: the sort of the language is stable, and a stable sort is
    determined by its comparator, so the insertion sort stands for it.  An
    element moves in front of the ones it does not compare greater than. *)
Section Sort.
Context {A : Type} (cmp : A -> A -> Z).

Fixpoint insert_sorted (x : A) (l : list A) : list A :=
  match l with
  | [] => [x]
  | y :: rest =>
      if (cmp x y <=? 0)%Z then x :: y :: rest
      else y :: insert_sorted x rest
  end.

Fixpoint sort (l : list A) : list A :=
  match l with
  | [] => []
  | x :: rest => insert_sorted x (sort rest)
  end.
End Sort.

End JS.

Export JS.

(** ** The types of [types/common.types.ts] and [types/security.types.ts] *)

Inductive RiskLevel : Type := low | medium | high | critical.

Inductive SecurityCategory : Type :=
| financial
| data_loss
| privacy
| account
| content_modification.

#[global] Instance RiskLevel_eq_dec : EqDecision RiskLevel.
Proof. solve_decision. Defined.

#[global] Instance SecurityCategory_eq_dec : EqDecision SecurityCategory.
Proof. solve_decision. Defined.

(** The string a category is at run time. *)
Definition category_name (c : SecurityCategory) : string :=
  match c with
  | financial => "financial"
  | data_loss => "data_loss"
  | privacy => "privacy"
  | account => "account"
  | content_modification => "content_modification"
  end.

Record DestructiveActionContext : Type := {
  action : string;
  elementText : option string;
  elementAttributes : option (list (string * string));
  pageUrl : option string;
  pageTitle : option string;
  semanticContext : option string
}.

Record SecurityAssessment : Type := {
  isDestructive : bool;
  riskLevel : RiskLevel;
  reason : string;
  category : option SecurityCategory
}.

Record KeywordDictionary : Type := {
  en : list string;
  ru : list string;
  es : list string;
  de : list string;
  fr : list string
}.

(** ** The constants of [constants/security.js] *)

Module SecurityConstants.

Definition financial_keywords : KeywordDictionary := {|
  en := ["buy"; "purchase"; "pay"; "checkout"; "order"; "payment"; "billing";
         "card"; "subscribe"; "donate"];
  ru := ["купить"; "оплатить"; "платить"; "оформить"; "заказ"; "платеж";
         "подписка"; "донат"];
  es := ["comprar"; "pagar"; "pedido"; "pago"];
  de := ["kaufen"; "bezahlen"; "bestellen"; "zahlung"];
  fr := ["acheter"; "payer"; "commande"; "paiement"]
|}.

Definition data_loss_keywords : KeywordDictionary := {|
  en := ["delete"; "remove"; "clear"; "erase"; "cancel"; "unsubscribe";
         "deactivate"; "close account"];
  ru := ["удалить"; "очистить"; "стереть"; "отменить"; "отписаться";
         "деактивировать"; "закрыть"];
  es := ["eliminar"; "borrar"; "cancelar"];
  de := ["löschen"; "entfernen"; "abbrechen"];
  fr := ["supprimer"; "effacer"; "annuler"]
|}.

Definition content_modification_keywords : KeywordDictionary := {|
  en := ["send"; "post"; "publish"; "submit"; "upload"; "share"; "create";
         "edit"];
  ru := ["отправить"; "опубликовать"; "разместить"; "загрузить";
         "поделиться"; "создать"; "редактировать"];
  es := ["enviar"; "publicar"; "compartir"];
  de := ["senden"; "veröffentlichen"; "teilen"];
  fr := ["envoyer"; "publier"; "partager"]
|}.

Definition account_keywords : KeywordDictionary := {|
  en := ["logout"; "log out"; "sign out"; "change password"; "reset";
         "verify"];
  ru := ["выйти"; "выход"; "сменить пароль"; "сбросить"];
  es := ["cerrar sesión"; "salir"];
  de := ["abmelden"; "ausloggen"];
  fr := ["déconnexion"; "se déconnecter"]
|}.

(** The entries of the object, in the order [Object.entries] lists them. *)
Definition DESTRUCTIVE_KEYWORDS : list (SecurityCategory * KeywordDictionary) :=
  [ (financial, financial_keywords);
    (data_loss, data_loss_keywords);
    (content_modification, content_modification_keywords);
    (account, account_keywords) ].

(** The [source] of each pattern; all carry the [i] flag and no other. *)
Definition SENSITIVE_URL_PATTERNS : list string :=
  ["checkout"; "payment"; "cart"; "order"; "billing"; "delete"; "remove";
   "settings"; "account"; "profile"].

Definition SENSITIVE_FORM_INDICATORS : list string :=
  ["payment"; "credit-card"; "cvv"; "card-number"; "billing"; "password"].

Definition RISK_LEVEL_ORDER (r : RiskLevel) : Z :=
  match r with
  | critical => 4
  | high => 3
  | medium => 2
  | low => 1
  end.

End SecurityConstants.

(** ** Class [SecurityLayer] *)

Module SecurityLayer.
Import SecurityConstants.

Section WithLowercase.
Context `{Lowercase}.

Definition getRiskLevelForCategory (c : SecurityCategory) : RiskLevel :=
  match c with
  | financial => critical
  | data_loss => high
  | account => high
  | privacy => medium
  | content_modification => medium
  end.

(** [Object.entries(languages)] *)
Definition language_entries (d : KeywordDictionary) : list (string * list string) :=
  [("en", en d); ("ru", ru d); ("es", es d); ("de", de d); ("fr", fr d)].

(** The innermost loop: the first keyword of the list the text includes. *)
Fixpoint first_included (lowerText : string) (keywords : list string)
  : option string :=
  match keywords with
  | [] => None
  | keyword :: rest =>
      if includes lowerText keyword then Some keyword
      else first_included lowerText rest
  end.

Definition text_assessment (c : SecurityCategory) (lang keyword : string)
  : SecurityAssessment := {|
  isDestructive := true;
  riskLevel := getRiskLevelForCategory c;
  reason := "Detected " +:+ category_name c +:+ " keyword: " +:+ dquote +:+
            keyword +:+ dquote +:+ " (" +:+ lang +:+ ")";
  category := Some c
|}.

Fixpoint scan_languages (lowerText : string) (c : SecurityCategory)
    (langs : list (string * list string)) : option SecurityAssessment :=
  match langs with
  | [] => None
  | (lang, keywords) :: rest =>
      match first_included lowerText keywords with
      | Some keyword => Some (text_assessment c lang keyword)
      | None => scan_languages lowerText c rest
      end
  end.

Fixpoint scan_categories (lowerText : string)
    (dict : list (SecurityCategory * KeywordDictionary))
  : option SecurityAssessment :=
  match dict with
  | [] => None
  | (c, languages) :: rest =>
      match scan_languages lowerText c (language_entries languages) with
      | Some a => Some a
      | None => scan_categories lowerText rest
      end
  end.

Definition checkTextForDestructiveKeywords (text : string)
  : option SecurityAssessment :=
  let lowerText := toLowerCase text in
  scan_categories lowerText DESTRUCTIVE_KEYWORDS.

Definition button_indicators : list string :=
  ["delete"; "remove"; "buy"; "purchase"; "pay"; "submit-payment"; "checkout";
   "confirm-order"].

Definition checkAttributesForDestructiveIndicators
    (attributes : list (string * string)) : option SecurityAssessment :=
  let attrString := toLowerCase (JSON_stringify attributes) in
  let button :=
    if bool_decide (prop attributes "type" = Some "submit")
       || bool_decide (prop attributes "role" = Some "button")
    then first_included attrString button_indicators
    else None in
  match button with
  | Some indicator =>
      Some {| isDestructive := true;
              riskLevel := high;
              reason := "Button/submit with destructive attribute pattern: "
                        +:+ indicator;
              category := Some content_modification |}
  | None =>
      match first_included attrString SENSITIVE_FORM_INDICATORS with
      | Some indicator =>
          Some {| isDestructive := true;
                  riskLevel := critical;
                  reason := "Sensitive form field detected: " +:+ indicator;
                  category := Some financial |}
      | None => None
      end
  end.

Fixpoint first_matching (url : string) (patterns : list string)
  : option string :=
  match patterns with
  | [] => None
  | source :: rest =>
      if regex_test_i source url then Some source else first_matching url rest
  end.

Definition checkUrlForSensitivePatterns (url : string)
  : option SecurityAssessment :=
  match first_matching url SENSITIVE_URL_PATTERNS with
  | Some source =>
      Some {| isDestructive := true;
              riskLevel := medium;
              reason := "Operating in sensitive area: " +:+ source;
              category := Some privacy |}
  | None => None
  end.

Definition sensitiveContexts : list (string * SecurityCategory * RiskLevel) :=
  [ ("checkout", financial, high);
    ("payment", financial, critical);
    ("cart", financial, low);
    ("billing", financial, high);
    ("delete", data_loss, high);
    ("settings", account, medium) ].

Fixpoint scan_contexts (lowerContext : string)
    (entries : list (string * SecurityCategory * RiskLevel))
  : option SecurityAssessment :=
  match entries with
  | [] => None
  | (pattern, c, risk) :: rest =>
      if includes lowerContext pattern
      then Some {| isDestructive := true;
                   riskLevel := risk;
                   reason := "Action in sensitive context: " +:+ pattern;
                   category := Some c |}
      else scan_contexts lowerContext rest
  end.

Definition checkSemanticContext (context : string) : option SecurityAssessment :=
  let lowerContext := toLowerCase context in
  scan_contexts lowerContext sensitiveContexts.

Definition assessTypeAction (context : DestructiveActionContext)
  : option SecurityAssessment :=
  let attrs := default [] (elementAttributes context) in
  let attrString := toLowerCase (JSON_stringify attrs) in
  if bool_decide (prop attrs "type" = Some "password")
  then Some {| isDestructive := true;
               riskLevel := high;
               reason := "Typing into password field";
               category := Some account |}
  else if includes attrString "card" || includes attrString "cvv"
          || includes attrString "credit"
  then Some {| isDestructive := true;
               riskLevel := critical;
               reason := "Typing into payment information field";
               category := Some financial |}
  else None.

(** The five signals, each behind the guard [assessAction] puts before it. *)
Definition text_signal (context : DestructiveActionContext)
  : option SecurityAssessment :=
  if truthy (elementText context)
  then checkTextForDestructiveKeywords (default "" (elementText context))
  else None.

Definition attribute_signal (context : DestructiveActionContext)
  : option SecurityAssessment :=
  match elementAttributes context with
  | Some attributes => checkAttributesForDestructiveIndicators attributes
  | None => None
  end.

Definition url_signal (context : DestructiveActionContext)
  : option SecurityAssessment :=
  if truthy (pageUrl context)
  then checkUrlForSensitivePatterns (default "" (pageUrl context))
  else None.

Definition semantic_signal (context : DestructiveActionContext)
  : option SecurityAssessment :=
  if truthy (semanticContext context)
  then checkSemanticContext (default "" (semanticContext context))
  else None.

Definition type_signal (context : DestructiveActionContext)
  : option SecurityAssessment :=
  if String.eqb (action context) "type_text"
  then assessTypeAction context
  else None.

(** [assessments.push(x)] when the signal gave one. *)
Definition push_if {A} (l : list A) (o : option A) : list A :=
  match o with
  | Some a => l ++ [a]
  | None => l
  end.

(** The array [assessments] when the last guard has been passed. *)
Definition collected (context : DestructiveActionContext)
  : list SecurityAssessment :=
  let assessments := [] in
  let assessments := push_if assessments (text_signal context) in
  let assessments := push_if assessments (attribute_signal context) in
  let assessments := push_if assessments (url_signal context) in
  let assessments := push_if assessments (semantic_signal context) in
  let assessments := push_if assessments (type_signal context) in
  assessments.

Definition by_risk_descending (a b : SecurityAssessment) : Z :=
  (RISK_LEVEL_ORDER (riskLevel b) - RISK_LEVEL_ORDER (riskLevel a))%Z.

Definition assessAction (context : DestructiveActionContext)
  : SecurityAssessment :=
  let assessments := collected context in
  match sort by_risk_descending assessments with
  | [] => {| isDestructive := false;
             riskLevel := low;
             reason := "No destructive patterns detected";
             category := None |}
  | first :: _ => {| isDestructive := true;
                     riskLevel := riskLevel first;
                     reason := reason first;
                     category := category first |}
  end.

End WithLowercase.
End SecurityLayer.

(** ** Class [BrowserManager] *)

Module BrowserManager.

(** A [Page] object, known by the rank at which its context made it. *)
Record Page : Type := { handle : nat }.

#[global] Instance Page_eq_dec : EqDecision Page.
Proof. solve_decision. Defined.

(** The browser context, as the number of pages it has made so far. *)
Record BrowserContext : Type := { created : nat }.

(** The [Map<string, Page>]: its entries in insertion order, keys distinct. *)
Definition PageMap : Type := list (string * Page).

Fixpoint map_get (m : PageMap) (k : string) : option Page :=
  match m with
  | [] => None
  | (k', v) :: rest => if String.eqb k' k then Some v else map_get rest k
  end.

Definition map_has (m : PageMap) (k : string) : bool :=
  match map_get m k with
  | Some _ => true
  | None => false
  end.

(** [m.set(k, v)]: a key already there keeps its place and takes the value. *)
Fixpoint map_set (m : PageMap) (k : string) (v : Page) : PageMap :=
  match m with
  | [] => [(k, v)]
  | (k', v') :: rest =>
      if String.eqb k' k then (k, v) :: rest else (k', v') :: map_set rest k v
  end.

Fixpoint map_delete (m : PageMap) (k : string) : PageMap :=
  match m with
  | [] => []
  | (k', v') :: rest =>
      if String.eqb k' k then rest else (k', v') :: map_delete rest k
  end.

Record State : Type := {
  context : option BrowserContext;
  pages : PageMap;
  currentPageId : option string
}.

Definition initial : State :=
  {| context := None; pages := []; currentPageId := None |}.

(** What the browser answers to the calls a method makes on it;
    [launch_result] is the answer to [chromium.launch] and [newContext]
    taken together, which both leave the fields modelled as they were when
    they throw. *)
Record BrowserIO : Type := {
  launch_result : Result unit;
  newPage_result : Result unit;
  goto_result : Result unit;
  bringToFront_result : Result unit;
  close_result : Result unit
}.

Definition all_ok : BrowserIO := {|
  launch_result := Ok tt;
  newPage_result := Ok tt;
  goto_result := Ok tt;
  bringToFront_result := Ok tt;
  close_result := Ok tt
|}.

(** [launch]; [launchPersistent] registers its page in the same way.  The
    context is set before the first page is asked for: when [newPage]
    throws, the context stays. *)
Definition launch (io : BrowserIO) (s : State) : Result unit * State :=
  match launch_result io with
  | Throw m => (Throw m, s)
  | Ok _ =>
      match newPage_result io with
      | Throw m =>
          (Throw m, {| context := Some {| created := 0 |};
                       pages := pages s;
                       currentPageId := currentPageId s |})
      | Ok _ =>
          let page := {| handle := 0 |} in
          let pageId := "page-0" in
          (Ok tt, {| context := Some {| created := 1 |};
                     pages := map_set (pages s) pageId page;
                     currentPageId := Some pageId |})
      end
  end.

Definition getCurrentPage (s : State) : Result Page :=
  match currentPageId s with
  | Some (String c r) =>
      match map_get (pages s) (String c r) with
      | Some page => Ok page
      | None => Throw "No active page"
      end
  | _ => Throw "No active page"
  end.

Definition createNewTab (io : BrowserIO) (url : option string) (s : State)
  : Result string * State :=
  match context s with
  | None => (Throw "Browser context not initialized", s)
  | Some ctx =>
      match newPage_result io with
      | Throw m => (Throw m, s)
      | Ok _ =>
          let page := {| handle := created ctx |} in
          let pageId := "page-" +:+ nat_to_string (length (pages s)) in
          let s' := {| context := Some {| created := S (created ctx) |};
                       pages := map_set (pages s) pageId page;
                       currentPageId := currentPageId s |} in
          if truthy url
          then match goto_result io with
               | Throw m => (Throw m, s')
               | Ok _ => (Ok pageId, s')
               end
          else (Ok pageId, s')
      end
  end.

Definition switchTab (io : BrowserIO) (pageId : string) (s : State)
  : Result unit * State :=
  if map_has (pages s) pageId
  then
    let s' := {| context := context s;
                 pages := pages s;
                 currentPageId := Some pageId |} in
    match bringToFront_result io with
    | Throw m => (Throw m, s')
    | Ok _ => (Ok tt, s')
    end
  else (Throw ("Page " +:+ pageId +:+ " not found"), s).

Definition closeTab (io : BrowserIO) (pageId : string) (s : State)
  : Result unit * State :=
  match map_get (pages s) pageId with
  | None => (Throw ("Page " +:+ pageId +:+ " not found"), s)
  | Some page =>
      match close_result io with
      | Throw m => (Throw m, s)
      | Ok _ =>
          let remaining := map_delete (pages s) pageId in
          let current :=
            if bool_decide (currentPageId s = Some pageId)
            then match remaining with
                 | (first, _) :: _ => Some first
                 | [] => None
                 end
            else currentPageId s in
          (Ok tt, {| context := context s;
                     pages := remaining;
                     currentPageId := current |})
      end
  end.

(** [listTabs], the url of a page being what [url_of] reads on it. *)
Definition listTabs (url_of : Page -> string) (s : State)
  : list (string * string) :=
  map (fun '(id, page) => (id, url_of page)) (pages s).

End BrowserManager.

(** ** The types of [types/agent.types.js] and [types/dom.types.js] *)

Record AgentConfig : Type := {
  requireConfirmation : bool;
  maxIterations : nat;
  enableThinking : bool;
  showThinkingProcess : bool;
  showPlanVisualization : bool;
  showActionHistory : bool
}.

(** The optional fields of the configuration a caller passes. *)
Record AgentConfigInput : Type := {
  given_requireConfirmation : option bool;
  given_maxIterations : option nat;
  given_enableThinking : option bool;
  given_showThinkingProcess : option bool;
  given_showPlanVisualization : option bool;
  given_showActionHistory : option bool
}.

(** A step keeps the status string it was given: nothing checks it against
    the five names of [TaskStepStatus]. *)
Record TaskStep : Type := {
  step_id : string;
  step_description : string;
  step_status : string
}.

Record TaskPlan : Type := {
  goal : string;
  steps : list TaskStep;
  currentStepIndex : Z;
  adaptations : list string;
  completionCriteria : list string
}.

(** The fields of [SimplifiedElement] the agent itself reads. *)
Record SimplifiedElement : Type := {
  element_ident : string;
  element_tag : string;
  element_text : option string;
  element_attributes : list (string * string);
  element_semanticContext : option string
}.

(** A step of an [update_plan] request. *)
Record StepRequest : Type := {
  description : string;
  status : option string
}.

(** The arguments of a tool call once [JSON.parse] has read them, in the
    range the tool contract gives them: an object, each field the agent code
    reads being absent ([None]) or of the type the contract declares,
    [current_step_index] an integer that a number of JS holds exactly.
    Arguments out of this range (the text 'null', or a number or a string in
    the place of the object, or a field of another type) are not values of
    this record: the development says nothing of a call that carries them. *)
Record ToolArgs : Type := {
  element_id : option string;
  url : option string;
  tab_id : option string;
  request_steps : option (list StepRequest);
  current_step_index : option Z;
  completion_criteria : option (list string);
  request_adaptations : option (list string);
  question : option string;
  summary : string;
  success : bool
}.

Definition no_args : ToolArgs := {|
  element_id := None;
  url := None;
  tab_id := None;
  request_steps := None;
  current_step_index := None;
  completion_criteria := None;
  request_adaptations := None;
  question := None;
  summary := "";
  success := false
|}.

(** A tool call of the model, with its [function] member; [arguments] is
    its argument text, taken as what [JSON.parse] does on it: a
    [SyntaxError], or the object of the contract. *)
Record ToolCall : Type := {
  call_id : string;
  name : string;
  arguments : Result ToolArgs
}.

(** The message of the model; [tool_calls], when there, is a list of tool
    calls without holes. *)
Record ChatMessage : Type := {
  content : option string;
  tool_calls : option (list ToolCall)
}.

(** An entry of [conversationHistory]. *)
Inductive Message : Type :=
| SystemMessage (text : string)
| UserMessage (text : string)
| AssistantMessage (message : ChatMessage)
| ToolMessage (tool_call_id : string) (text : string).

(** An [ActionHistoryItem], the reading of the clock left out. *)
Record ActionHistoryItem : Type := {
  item_iteration : nat;
  item_tool : string;
  item_args : ToolArgs;
  item_result : string;
  item_success : bool
}.

(** ** The state of class [AgentVisualizer] *)

Record AgentVisualizer : Type := {
  shownPlan : option TaskPlan;
  actionHistory : list ActionHistoryItem
}.

(** The five names of [TaskStepStatus]. *)
Definition TaskStepStatus : list string :=
  ["pending"; "in_progress"; "completed"; "failed"; "skipped"].

(** [displayPlan] colours a step with [getStatusColor(step.status)]: the
    member of an object literal found under the status, which it calls on
    the text of the step.  For the five names the member is a colour of
    chalk and the call returns.  For another status the member is
    [undefined], or what [Object.prototype] has under that name, and the
    call throws or not as the engine has it: [color_error] is the message
    of what it throws, and the development is parametric in it. *)
Class StatusColors : Type := {
  color_error : string -> option string;
  color_known : Forall (fun status => color_error status = None) TaskStepStatus
}.

(** An engine for the concrete examples: it is right on every status that
    is no name of a member of [Object.prototype], where the member is
    [undefined]. *)
Definition plainColors : StatusColors :=
  {| color_error status :=
       if existsb (String.eqb status) TaskStepStatus then None
       else Some "statusColor is not a function";
     color_known := ltac:(repeat constructor) |}.

(** [displayPlan], as what it throws: the steps are shown in turn, and the
    first whose colour cannot be called ends the display. *)
Fixpoint display_steps `{StatusColors} (steps : list TaskStep) : Result unit :=
  match steps with
  | [] => Ok tt
  | step :: rest =>
      match color_error (step_status step) with
      | Some message => Throw message
      | None => display_steps rest
      end
  end.

Definition displayPlan `{StatusColors} (plan : TaskPlan) : Result unit :=
  display_steps (steps plan).

(** ** Class [BrowserAgent] *)

Module BrowserAgent.

Record Agent : Type := {
  browserManager : BrowserManager.State;
  config : AgentConfig;
  conversationHistory : list Message;
  currentElements : list SimplifiedElement;
  isTaskComplete : bool;
  visualizer : AgentVisualizer;
  currentPlan : option TaskPlan;
  confirmedActions : gset string
}.

(** What the loop does towards the user and the browser, in order: a
    confirmation asked of the user by [confirmAction], with the answer; a
    tool call handed to [executeTool]; a question put to the user by the
    tool [ask_user]. *)
Inductive Event : Type :=
| Prompted (toolName text : string) (category : option SecurityCategory)
           (answer : bool)
| Dispatched (toolName : string)
| Asked (question : option string).

(** *** The environment of a run *)

(** What surrounds one tool call: the url of the current page, the answer of
    the user if asked, and what the page and the browser give back. *)
Record ToolEnv : Type := {
  page_url : string;
  user_answer : bool;
  page_reply : Result string;
  extracted : list SimplifiedElement;
  found : option SimplifiedElement;
  browser_io : BrowserManager.BrowserIO;
  tab_url : BrowserManager.Page -> string
}.

(** The answer of [llmClient.chat]: it throws, has no choice, or a message. *)
Inductive ChatOutcome : Type :=
| ChatThrows (message : string)
| NoChoice
| Reply (message : ChatMessage).

Record IterationEnv : Type := {
  chat : ChatOutcome;
  tool_env : nat -> ToolEnv
}.

(** *** Computations over the agent: state, exceptions and events *)

Definition M (A : Type) : Type := Agent -> Result A * Agent * list Event.

Definition ret {A} (x : A) : M A := fun a => (Ok x, a, []).

Definition throw {A} (message : string) : M A := fun a => (Throw message, a, []).

Definition mbind {A B} (c : M A) (k : A -> M B) : M B := fun a =>
  match c a with
  | (Ok x, a', ev) =>
      match k x a' with
      | (r, a'', ev') => (r, a'', ev ++ ev')
      end
  | (Throw m, a', ev) => (Throw m, a', ev)
  end.

Definition try_catch {A} (c : M A) (handler : string -> M A) : M A := fun a =>
  match c a with
  | (Ok x, a', ev) => (Ok x, a', ev)
  | (Throw m, a', ev) =>
      match handler m a' with
      | (r, a'', ev') => (r, a'', ev ++ ev')
      end
  end.

Definition gets {A} (f : Agent -> A) : M A := fun a => (Ok (f a), a, []).

Definition modify (f : Agent -> Agent) : M unit := fun a => (Ok tt, f a, []).

Definition emit (e : Event) : M unit := fun a => (Ok tt, a, [e]).

Definition lift {A} (r : Result A) : M A := fun a => (r, a, []).

Declare Scope agent_scope.
Delimit Scope agent_scope with agent.
Notation "'let*' x ':=' c 'in' k" := (mbind c (fun x => k))
  (at level 10, x name, c at level 100, k at level 200) : agent_scope.
Notation "'run' c 'then' k" := (mbind c (fun _ => k))
  (at level 10, c at level 100, k at level 200) : agent_scope.
Local Open Scope agent_scope.

(** *** Field updates *)

Definition set_browserManager (b : BrowserManager.State) (a : Agent) : Agent :=
  {| browserManager := b;
     config := config a;
     conversationHistory := conversationHistory a;
     currentElements := currentElements a;
     isTaskComplete := isTaskComplete a;
     visualizer := visualizer a;
     currentPlan := currentPlan a;
     confirmedActions := confirmedActions a |}.

Definition set_conversationHistory (h : list Message) (a : Agent) : Agent :=
  {| browserManager := browserManager a;
     config := config a;
     conversationHistory := h;
     currentElements := currentElements a;
     isTaskComplete := isTaskComplete a;
     visualizer := visualizer a;
     currentPlan := currentPlan a;
     confirmedActions := confirmedActions a |}.

Definition set_currentElements (l : list SimplifiedElement) (a : Agent) : Agent :=
  {| browserManager := browserManager a;
     config := config a;
     conversationHistory := conversationHistory a;
     currentElements := l;
     isTaskComplete := isTaskComplete a;
     visualizer := visualizer a;
     currentPlan := currentPlan a;
     confirmedActions := confirmedActions a |}.

Definition set_isTaskComplete (b : bool) (a : Agent) : Agent :=
  {| browserManager := browserManager a;
     config := config a;
     conversationHistory := conversationHistory a;
     currentElements := currentElements a;
     isTaskComplete := b;
     visualizer := visualizer a;
     currentPlan := currentPlan a;
     confirmedActions := confirmedActions a |}.

Definition set_visualizer (v : AgentVisualizer) (a : Agent) : Agent :=
  {| browserManager := browserManager a;
     config := config a;
     conversationHistory := conversationHistory a;
     currentElements := currentElements a;
     isTaskComplete := isTaskComplete a;
     visualizer := v;
     currentPlan := currentPlan a;
     confirmedActions := confirmedActions a |}.

Definition set_currentPlan (p : option TaskPlan) (a : Agent) : Agent :=
  {| browserManager := browserManager a;
     config := config a;
     conversationHistory := conversationHistory a;
     currentElements := currentElements a;
     isTaskComplete := isTaskComplete a;
     visualizer := visualizer a;
     currentPlan := p;
     confirmedActions := confirmedActions a |}.

Definition set_confirmedActions (s : gset string) (a : Agent) : Agent :=
  {| browserManager := browserManager a;
     config := config a;
     conversationHistory := conversationHistory a;
     currentElements := currentElements a;
     isTaskComplete := isTaskComplete a;
     visualizer := visualizer a;
     currentPlan := currentPlan a;
     confirmedActions := s |}.

(** [this.conversationHistory.push(m)] *)
Definition push_message (m : Message) : M unit :=
  modify (fun a => set_conversationHistory (conversationHistory a ++ [m]) a).

(** [this.visualizer.setPlan(plan)]: the plan is kept, then displayed. *)
Definition visualizer_setPlan `{StatusColors} (plan : TaskPlan) : M unit :=
  run modify (fun a =>
        set_visualizer {| shownPlan := Some plan;
                          actionHistory := actionHistory (visualizer a) |} a) then
  lift (displayPlan plan).

(** [this.visualizer.addActionToHistory(item)] *)
Definition visualizer_addActionToHistory (item : ActionHistoryItem) : M unit :=
  modify (fun a =>
    set_visualizer {| shownPlan := shownPlan (visualizer a);
                      actionHistory := actionHistory (visualizer a) ++ [item] |} a).

(** A method of the browser manager, run on the manager of the agent. *)
Definition on_browser {A}
    (f : BrowserManager.State -> Result A * BrowserManager.State) : M A :=
  fun a =>
    match f (browserManager a) with
    | (r, b) => (r, set_browserManager b a, [])
    end.

Definition getCurrentPage : M BrowserManager.Page :=
  fun a => (BrowserManager.getCurrentPage (browserManager a), a, []).

(** *** The constructor and [initialize] *)

Definition constructor (given : AgentConfigInput) : Agent :=
  {| browserManager := BrowserManager.initial;
     config :=
       {| requireConfirmation := default true (given_requireConfirmation given);
          maxIterations := default 50 (given_maxIterations given);
          enableThinking := default true (given_enableThinking given);
          showThinkingProcess := default true (given_showThinkingProcess given);
          showPlanVisualization := default true (given_showPlanVisualization given);
          showActionHistory := default true (given_showActionHistory given) |};
     conversationHistory := [];
     currentElements := [];
     isTaskComplete := false;
     visualizer := {| shownPlan := None; actionHistory := [] |};
     currentPlan := None;
     confirmedActions := ∅ |}.

(** [initialize], the text of the system prompt being a parameter. *)
Definition initialize (SYSTEM_PROMPT : string) (io : BrowserManager.BrowserIO)
  : M unit :=
  run on_browser (BrowserManager.launch io) then
  push_message (SystemMessage SYSTEM_PROMPT).

(** *** The confirmation gate *)

Section WithLowercase.
Context `{Lowercase} {colors : StatusColors}.

(** [this.currentElements.find(el => el.id === args.element_id)] *)
Definition find_current (args : ToolArgs) (a : Agent) : option SimplifiedElement :=
  match element_id args with
  | Some wanted =>
      List.find (fun el => String.eqb (element_ident el) wanted) (currentElements a)
  | None => None
  end.

(** The [context] object [shouldConfirm] and [confirmAction] both build. *)
Definition action_context (toolName : string) (element : option SimplifiedElement)
    (page_url : string) : DestructiveActionContext :=
  {| action := toolName;
     elementText := element ≫= element_text;
     elementAttributes := element_attributes <$> element;
     pageUrl := Some page_url;
     pageTitle := None;
     semanticContext := element ≫= element_semanticContext |}.

(** [element?.text || ''] *)
Definition text_or_empty (element : option SimplifiedElement) : string :=
  or_else (element ≫= element_text) "".

(** The template [`${toolName}:${element?.text || ''}:${assessment.category}`];
    a category that is [undefined] prints as such. *)
Definition actionKey (toolName text : string) (c : option SecurityCategory)
  : string :=
  toolName +:+ ":" +:+ text +:+ ":" +:+
  match c with
  | Some c => category_name c
  | None => "undefined"
  end.

Definition shouldConfirm (e : ToolEnv) (toolName : string) (args : ToolArgs)
  : M bool :=
  let* page := getCurrentPage in
  let* element := gets (find_current args) in
  let context := action_context toolName element (page_url e) in
  let assessment := SecurityLayer.assessAction context in
  if bool_decide (riskLevel assessment = low) then ret false
  else
    let key := actionKey toolName (text_or_empty element) (category assessment) in
    let* confirmed := gets confirmedActions in
    if bool_decide (key ∈ confirmed) then ret false
    else ret (isDestructive assessment &&
              (bool_decide (riskLevel assessment = medium)
               || bool_decide (riskLevel assessment = high)
               || bool_decide (riskLevel assessment = critical))).

Definition confirmAction (e : ToolEnv) (toolName : string) (args : ToolArgs)
  : M bool :=
  let* page := getCurrentPage in
  let* element := gets (find_current args) in
  let context := action_context toolName element (page_url e) in
  let assessment := SecurityLayer.assessAction context in
  let answer := user_answer e in
  run emit (Prompted toolName (text_or_empty element) (category assessment) answer) then
  run (if answer
       then
         let key := actionKey toolName (text_or_empty element) (category assessment) in
         modify (fun a => set_confirmedActions (confirmedActions a ∪ {[ key ]}) a)
       else ret tt) then
  ret answer.

(** *** The tool dispatcher *)

(** The cases whose text is made of what the page, or the user asked by
    [ask_user], gives back; the text, or the error, comes with the
    environment. *)
Definition reply_tools : list string :=
  ["navigate"; "get_page_structure"; "get_element_info"; "read_page_text";
   "click"; "type_text"; "scroll"; "wait"; "go_back"; "take_screenshot";
   "extract_text"; "ask_user"].

Definition is_reply_tool (toolName : string) : bool :=
  existsb (String.eqb toolName) reply_tools.

Definition planned_steps (requested : list StepRequest) : list TaskStep :=
  imap (fun index step =>
          {| step_id := "step-" +:+ nat_to_string (index + 1);
             step_description := description step;
             step_status := or_else (status step) "pending" |})
       requested.

(** [args.current_step_index || 0] *)
Definition index_or_zero (i : option Z) : Z := default 0%Z i.

Definition updated_plan (old : option TaskPlan) (args : ToolArgs)
    (requested : list StepRequest) : TaskPlan :=
  {| goal := or_else (goal <$> old) "Current task";
     steps := planned_steps requested;
     currentStepIndex := index_or_zero (current_step_index args);
     adaptations :=
       match request_adaptations args with
       | Some l => l
       | None => match old with
                 | Some plan => adaptations plan
                 | None => []
                 end
       end;
     completionCriteria := default [] (completion_criteria args) |}.

Definition newline : string := String (ascii_of_nat 10) EmptyString.

Fixpoint join_lines (l : list string) : string :=
  match l with
  | [] => EmptyString
  | [x] => x
  | x :: rest => x +:+ newline +:+ join_lines rest
  end.

Definition executeTool (e : ToolEnv) (toolName : string) (args : ToolArgs)
  : M string :=
  let* page := getCurrentPage in
  if String.eqb toolName "get_page_content" then
    let* text := lift (page_reply e) in
    run modify (set_currentElements (extracted e)) then
    ret text
  else if String.eqb toolName "find_element" then
    let* text := lift (page_reply e) in
    match found e with
    | Some element =>
        run modify (set_currentElements [element]) then
        ret text
    | None => ret text
    end
  else if String.eqb toolName "new_tab" then
    let* tabId := on_browser (BrowserManager.createNewTab (browser_io e) (url args)) in
    ret ("Created new tab: " +:+ tabId +:+
         (if truthy (url args) then " at " +:+ default "" (url args) else ""))
  else if String.eqb toolName "switch_tab" then
    match tab_id args with
    | Some id =>
        run on_browser (BrowserManager.switchTab (browser_io e) id) then
        ret ("Switched to tab " +:+ id)
    | None => throw "Page undefined not found"
    end
  else if String.eqb toolName "list_tabs" then
    let* b := gets browserManager in
    let tabs := BrowserManager.listTabs (tab_url e) b in
    ret ("Open tabs:" +:+ newline +:+
         join_lines (map (fun '(id, u) => "- " +:+ id +:+ ": " +:+ u) tabs))
  else if String.eqb toolName "close_tab" then
    match tab_id args with
    | Some id =>
        run on_browser (BrowserManager.closeTab (browser_io e) id) then
        ret ("Closed tab " +:+ id)
    | None => throw "Page undefined not found"
    end
  else if String.eqb toolName "update_plan" then
    match request_steps args with
    | None => throw "Cannot read properties of undefined (reading 'map')"
    | Some requested =>
        let* old := gets currentPlan in
        let plan := updated_plan old args requested in
        run modify (set_currentPlan (Some plan)) then
        let* cfg := gets config in
        run (if showPlanVisualization cfg then visualizer_setPlan plan else ret tt) then
        ret ("Plan updated: " +:+ nat_to_string (length (steps plan)) +:+
             " steps, currently on step " +:+
             match current_step_index args with
             | Some i => Z_to_string (i + 1)
             | None => "NaN"
             end)
    end
  else if String.eqb toolName "complete_task" then
    run modify (set_isTaskComplete true) then
    ret (summary args)
  else if String.eqb toolName "ask_user" then
    run emit (Asked (question args)) then
    lift (page_reply e)
  else if is_reply_tool toolName then
    lift (page_reply e)
  else throw ("Unknown tool: " +:+ toolName).

(** *** The body of the loop *)

(** The guard [this.config.requireConfirmation && this.shouldConfirm(..)]
    and, behind it, the call of [confirmAction]: whether the tool call goes
    on to the dispatcher. *)
Definition confirmation_gate (e : ToolEnv) (toolName : string) (args : ToolArgs)
  : M bool :=
  let* cfg := gets config in
  let* ask :=
    (if requireConfirmation cfg then shouldConfirm e toolName args
     else ret false) in
  if ask then confirmAction e toolName args else ret true.

(** [executeTool] inside its own [try], with [toolSuccess]. *)
Definition dispatch (e : ToolEnv) (toolName : string) (args : ToolArgs)
  : M (string * bool) :=
  run emit (Dispatched toolName) then
  try_catch
    (let* result := executeTool e toolName args in ret (result, true))
    (fun message => ret ("Error: " +:+ message, false)).

(** One turn of [for (const toolCall of message.tool_calls)]. *)
Definition processToolCall (iteration : nat) (e : ToolEnv) (toolCall : ToolCall)
  : M unit :=
  let toolName := name toolCall in
  let* toolArgs := lift (arguments toolCall) in
  let* confirmed := confirmation_gate e toolName toolArgs in
  if negb confirmed then
    push_message (ToolMessage (call_id toolCall) "Action cancelled by user")
  else
    let* outcome := dispatch e toolName toolArgs in
    run push_message (ToolMessage (call_id toolCall) (fst outcome)) then
    let* cfg := gets config in
    if showPlanVisualization cfg && showActionHistory cfg then
      visualizer_addActionToHistory
        {| item_iteration := iteration;
           item_tool := toolName;
           item_args := toolArgs;
           item_result := fst outcome;
           item_success := snd outcome |}
    else ret tt.

Fixpoint for_tool_calls (iteration : nat) (env : nat -> ToolEnv) (i : nat)
    (calls : list ToolCall) : M unit :=
  match calls with
  | [] => ret tt
  | toolCall :: rest =>
      run processToolCall iteration (env i) toolCall then
      for_tool_calls iteration env (S i) rest
  end.

Definition corrective_note (message : string) : Message :=
  UserMessage ("An error occurred: " +:+ message +:+
               ". Please try a different approach.").

(** The [try] block of one iteration. *)
Definition iteration_body (iteration : nat) (e : IterationEnv) : M unit :=
  let* message :=
    match chat e with
    | ChatThrows m => throw m
    | NoChoice => throw "No response from LLM"
    | Reply message => ret message
    end in
  run push_message (AssistantMessage message) then
  match tool_calls message with
  | Some (first :: rest) =>
      for_tool_calls iteration (tool_env e) 0 (first :: rest)
  | _ => throw "Model did not return tool calls as required"
  end.

(** One iteration: the [try] block and its [catch]. *)
Definition runIteration (iteration : nat) (e : IterationEnv) : M unit :=
  try_catch (iteration_body iteration e)
            (fun message => push_message (corrective_note message)).

(** [while (!this.isTaskComplete && iteration < this.config.maxIterations)];
    the answer is the value of [iteration] at the exit, or [None] when the
    fuel is spent before the test fails. *)
Fixpoint while_loop (fuel : nat) (env : nat -> IterationEnv) (iteration : nat)
  : M (option nat) := fun a =>
  if negb (isTaskComplete a) && (iteration <? maxIterations (config a))%nat then
    match fuel with
    | 0 => (Ok None, a, [])
    | S fuel' =>
        let iteration := S iteration in
        (run runIteration iteration (env iteration) then
         while_loop fuel' env iteration) a
    end
  else (Ok (Some iteration), a, []).

(** How a task ends: by [complete_task], or by the warning that the
    maximum of iterations is reached. *)
Inductive Outcome : Type := Completed | MaxIterationsReached.

Record TaskReport : Type := {
  iterations : nat;
  outcome : Outcome
}.

Definition executeTask (env : nat -> IterationEnv) (task : string)
  : M (option TaskReport) :=
  run push_message (UserMessage task) then
  let* cfg := gets config in
  run (if showPlanVisualization cfg
       then
         let plan := {| goal := task;
                        steps := [];
                        currentStepIndex := 0;
                        adaptations := [];
                        completionCriteria := [] |} in
         run modify (set_currentPlan (Some plan)) then
         visualizer_setPlan plan
       else ret tt) then
  run modify (set_isTaskComplete false) then
  run modify (set_confirmedActions ∅) then
  let* count := while_loop (maxIterations cfg) env 0 in
  let* complete := gets isTaskComplete in
  ret (match count with
       | Some n =>
           Some {| iterations := n;
                   outcome := if complete then Completed
                              else MaxIterationsReached |}
       | None => None
       end).

(** The tasks of one session in turn, as [main] runs them: each with its
    own environment; the reports are gathered. *)
Fixpoint session (tasks : list (string * (nat -> IterationEnv)))
  : M (list (option TaskReport)) :=
  match tasks with
  | [] => ret []
  | (task, env) :: rest =>
      let* report := executeTask env task in
      let* reports := session rest in
      ret (report :: reports)
  end.

End WithLowercase.
End BrowserAgent.

(** ** Class [PlanningUtils] *)

Module PlanningUtils.

Definition MIN_FAILURES_TO_ASK_USER : Z := 5.

Definition KEYWORDS_REQUIRING_USER_HELP : list string :=
  ["captcha"; "2fa"; "verification"].

(** [shouldAskUser], the count of failures being an integer. *)
Definition shouldAskUser `{Lowercase} (failureCount : Z) (context : string)
  : bool :=
  if (MIN_FAILURES_TO_ASK_USER <=? failureCount)%Z then true
  else
    let lowerContext := toLowerCase context in
    existsb (fun keyword => includes lowerContext keyword)
            KEYWORDS_REQUIRING_USER_HELP
    || (includes lowerContext "login" && includes lowerContext "required").

End PlanningUtils.

(** ** Class [LLMClient]: the assembly of a streamed answer *)

Module LLMClient.

(** A JavaScript array that may have holes: [None] is a hole, and an index
    past the end reads as one. *)
Definition array_get {A} (a : list (option A)) (i : nat) : option A :=
  match a !! i with
  | Some (Some x) => Some x
  | _ => None
  end.

(** [a[i] = x]: past the end, the array grows, holes filling the gap. *)
Definition array_set {A} (a : list (option A)) (i : nat) (x : A)
  : list (option A) :=
  if (i <? length a)%nat then <[i := Some x]> a
  else a ++ replicate (i - length a) None ++ [Some x].

(** An entry of [toolCalls]; its [type] is always ['function']. *)
Record StreamedToolCall : Type := {
  streamed_id : string;
  streamed_name : string;
  streamed_arguments : string
}.

(** An element of [delta.tool_calls], [function.name] and
    [function.arguments] read through [toolCall.function?.]. *)
Record ToolCallDelta : Type := {
  delta_index : option nat;
  delta_id : option string;
  delta_name : option string;
  delta_arguments : option string
}.

Record Delta : Type := {
  delta_reasoning : option string;
  delta_content : option string;
  delta_tool_calls : option (list ToolCallDelta)
}.

Record Usage : Type := {
  prompt_tokens : nat;
  completion_tokens : nat;
  total_tokens : nat
}.

(** A chunk of the stream, as the fields of it the loop reads. *)
Record Chunk : Type := {
  chunk_delta : option Delta;
  chunk_finish_reason : option string;
  chunk_usage : option Usage
}.

(** The variables of [chatWithThinkingStream], and the texts its callback
    [onThinkingUpdate] has been called with. *)
Record Assembly : Type := {
  fullContent : string;
  thinkingContent : string;
  toolCalls : list (option StreamedToolCall);
  finishReason : string;
  usage : option Usage;
  thinking_updates : list string
}.

Definition start : Assembly :=
  {| fullContent := "";
     thinkingContent := "";
     toolCalls := [];
     finishReason := "";
     usage := None;
     thinking_updates := [] |}.

(** The body of [for (const toolCall of delta.tool_calls)]. *)
Definition absorb_tool_call (calls : list (option StreamedToolCall))
    (d : ToolCallDelta) : list (option StreamedToolCall) :=
  let index := default 0 (delta_index d) in
  let entry :=
    match array_get calls index with
    | Some entry => entry
    | None => {| streamed_id := default "" (delta_id d);
                 streamed_name := "";
                 streamed_arguments := "" |}
    end in
  let entry :=
    if truthy (delta_name d)
    then {| streamed_id := streamed_id entry;
            streamed_name := default "" (delta_name d);
            streamed_arguments := streamed_arguments entry |}
    else entry in
  let entry :=
    if truthy (delta_arguments d)
    then {| streamed_id := streamed_id entry;
            streamed_name := streamed_name entry;
            streamed_arguments :=
              streamed_arguments entry +:+ default "" (delta_arguments d) |}
    else entry in
  array_set calls index entry.

(** The body of [for await (const chunk of stream)]. *)
Definition absorb_chunk (s : Assembly) (c : Chunk) : Assembly :=
  let reasoning := chunk_delta c ≫= delta_reasoning in
  let thinking :=
    if truthy reasoning then thinkingContent s +:+ default "" reasoning
    else thinkingContent s in
  let updates :=
    if truthy reasoning then thinking_updates s ++ [thinking]
    else thinking_updates s in
  let content := chunk_delta c ≫= delta_content in
  let full :=
    if truthy content then fullContent s +:+ default "" content
    else fullContent s in
  let calls :=
    match chunk_delta c ≫= delta_tool_calls with
    | Some deltas => foldl absorb_tool_call (toolCalls s) deltas
    | None => toolCalls s
    end in
  {| fullContent := full;
     thinkingContent := thinking;
     toolCalls := calls;
     finishReason := or_else (chunk_finish_reason c) (finishReason s);
     usage := match chunk_usage c with
              | Some u => Some u
              | None => usage s
              end;
     thinking_updates := updates |}.

Definition absorb_stream (chunks : list Chunk) : Assembly :=
  foldl absorb_chunk start chunks.

(** The [message] built once the stream has ended. *)
Record StreamedMessage : Type := {
  message_content : option string;
  message_reasoning : option string;
  message_tool_calls : option (list (option StreamedToolCall));
  message_finish_reason : string;
  message_usage : Usage
}.

Definition some_if_truthy (s : string) : option string :=
  match s with
  | EmptyString => None
  | String _ _ => Some s
  end.

(** [chatWithThinkingStream] on a stream that ends without an error. *)
Definition chatWithThinkingStream (chunks : list Chunk) : StreamedMessage :=
  let s := absorb_stream chunks in
  {| message_content := some_if_truthy (fullContent s);
     message_reasoning := some_if_truthy (thinkingContent s);
     message_tool_calls :=
       if (0 <? length (toolCalls s))%nat then Some (toolCalls s) else None;
     message_finish_reason := or_else (Some (finishReason s)) "stop";
     message_usage :=
       default {| prompt_tokens := 0; completion_tokens := 0; total_tokens := 0 |}
               (usage s) |}.

End LLMClient.

(** ** Class [DOMExtractor]: what it does to the list of elements *)

Module DOMExtractor.

(** An element as [extractElementData] makes it: the fields the agent
    reads, and those the extractor orders and filters by.  The bounding box
    is always there, its [y] being [Math.round(rect.y)], a whole number. *)
Record ElementData : Type := {
  element : SimplifiedElement;
  nearbyText : option string;
  isInViewport : bool;
  boundingBox_y : Z
}.

Record ContentFilter : Type := {
  selectors : option string;
  textContains : option string;
  maxElements : option nat;
  includeHidden : option bool;
  prioritizeViewport : option bool;
  includeSemanticStructure : option bool
}.

(** The comparator of [results.sort] in [extractSimplifiedDOM]. *)
Definition viewport_first (a b : ElementData) : Z :=
  if isInViewport a && negb (isInViewport b) then (-1)%Z
  else if negb (isInViewport a) && isInViewport b then 1%Z
  else (boundingBox_y a - boundingBox_y b)%Z.

(** [if (filterParam.prioritizeViewport !== false) results.sort(..)] *)
Definition prioritized (filter : ContentFilter) (results : list ElementData)
  : list ElementData :=
  match prioritizeViewport filter with
  | Some false => results
  | _ => sort viewport_first results
  end.

(** [xs.join(' ')] *)
Fixpoint join_spaces (xs : list string) : string :=
  match xs with
  | [] => EmptyString
  | [x] => x
  | x :: rest => x +:+ " " +:+ join_spaces rest
  end.

(** The predicate of [filtered.filter] under [filter.textContains]. *)
Definition contains_text `{Lowercase} (searchText : string) (el : ElementData)
  : bool :=
  let lower_or_empty (o : option string) :=
    match o with
    | Some t => toLowerCase t
    | None => EmptyString
    end in
  let elementText := lower_or_empty (element_text (element el)) in
  let attributeValues :=
    toLowerCase (join_spaces (map snd (element_attributes (element el)))) in
  let nearby := lower_or_empty (nearbyText el) in
  let semanticContext := lower_or_empty (element_semanticContext (element el)) in
  includes elementText searchText || includes attributeValues searchText
  || includes nearby searchText || includes semanticContext searchText.

(** [filter.maxElements || 50] *)
Definition limit (filter : ContentFilter) : nat :=
  match maxElements filter with
  | Some (S n) => S n
  | _ => 50
  end.

(** [extractSimplifiedDOM], from the elements the page gave on. *)
Definition selected `{Lowercase} (filter : ContentFilter)
    (elements : list ElementData) : list ElementData :=
  let filtered :=
    if truthy (textContains filter)
    then
      let searchText := toLowerCase (default "" (textContains filter)) in
      List.filter (contains_text searchText) elements
    else elements in
  if (limit filter <? length filtered)%nat
  then take (limit filter) filtered
  else filtered.

End DOMExtractor.

(** * Notions the statements use *)

Module Spec.
Import SecurityConstants BrowserAgent.

(** The five signals of [assessAction], in the order it evaluates them. *)
Definition signals `{Lowercase} (context : DestructiveActionContext)
  : list (option SecurityAssessment) :=
  [ SecurityLayer.text_signal context;
    SecurityLayer.attribute_signal context;
    SecurityLayer.url_signal context;
    SecurityLayer.semantic_signal context;
    SecurityLayer.type_signal context ].

(** The candidates: what the signals that fire give, in that order. *)
Definition fired `{Lowercase} (context : DestructiveActionContext)
  : list SecurityAssessment :=
  omap id (signals context).


Definition level (a : SecurityAssessment) : Z := RISK_LEVEL_ORDER (riskLevel a).

(** *** The signals as the specification words them (4.2) *)

(** A text, a url or a context that is there: neither absent nor empty. *)
Definition present (o : option string) : option string :=
  if truthy o then o else None.

(** The first of two candidates that is there. *)
Definition first_of {A} (x y : option A) : option A :=
  match x with
  | Some _ => x
  | None => y
  end.

(** The keywords of the dictionary with their category and language, in the
    order the categories, then the languages, then the keywords are
    declared. *)
Definition keyword_entries : list (SecurityCategory * string * string) :=
  '(c, dictionary) ← DESTRUCTIVE_KEYWORDS;
  '(lang, keywords) ← SecurityLayer.language_entries dictionary;
  (fun keyword => (c, lang, keyword)) <$> keywords.

(** 1. The first keyword, in that order, the lowered text contains. *)
Definition text_rule `{Lowercase} (text : string) : option SecurityAssessment :=
  (fun '(c, lang, keyword) => SecurityLayer.text_assessment c lang keyword) <$>
  List.find (fun '(_, _, keyword) => includes (toLowerCase text) keyword)
            keyword_entries.

(** 2. The two rules of the attributes, each by itself: the button rule... *)
Definition button_rule `{Lowercase} (attributes : list (string * string))
  : option SecurityAssessment :=
  if bool_decide (prop attributes "type" = Some "submit")
     || bool_decide (prop attributes "role" = Some "button")
  then
    (fun indicator =>
       {| isDestructive := true;
          riskLevel := high;
          reason := "Button/submit with destructive attribute pattern: "
                    +:+ indicator;
          category := Some content_modification |}) <$>
    List.find (includes (toLowerCase (JSON_stringify attributes)))
              SecurityLayer.button_indicators
  else None.

(** ... and the rule of the sensitive form fields. *)
Definition sensitive_field_rule `{Lowercase} (attributes : list (string * string))
  : option SecurityAssessment :=
  (fun indicator =>
     {| isDestructive := true;
        riskLevel := critical;
        reason := "Sensitive form field detected: " +:+ indicator;
        category := Some financial |}) <$>
  List.find (includes (toLowerCase (JSON_stringify attributes)))
            SENSITIVE_FORM_INDICATORS.

(** 3. The first sensitive pattern the url matches. *)
Definition url_rule (url : string) : option SecurityAssessment :=
  (fun source =>
     {| isDestructive := true;
        riskLevel := medium;
        reason := "Operating in sensitive area: " +:+ source;
        category := Some privacy |}) <$>
  List.find (fun source => regex_test_i source url) SENSITIVE_URL_PATTERNS.

(** 4. The first triple whose pattern the lowered context contains. *)
Definition semantic_rule `{Lowercase} (context : string)
  : option SecurityAssessment :=
  (fun '(pattern, c, risk) =>
     {| isDestructive := true;
        riskLevel := risk;
        reason := "Action in sensitive context: " +:+ pattern;
        category := Some c |}) <$>
  List.find (fun '(pattern, _, _) => includes (toLowerCase context) pattern)
            SecurityLayer.sensitiveContexts.

(** 5. Text entered into a password field, or else into a payment field. *)
Definition typing_rule `{Lowercase} (context : DestructiveActionContext)
  : option SecurityAssessment :=
  if String.eqb (action context) "type_text" then
    let attributes := default [] (elementAttributes context) in
    let serialized := toLowerCase (JSON_stringify attributes) in
    first_of
      (if bool_decide (prop attributes "type" = Some "password")
       then Some {| isDestructive := true;
                    riskLevel := high;
                    reason := "Typing into password field";
                    category := Some account |}
       else None)
      (if existsb (includes serialized) ["card"; "cvv"; "credit"]
       then Some {| isDestructive := true;
                    riskLevel := critical;
                    reason := "Typing into payment information field";
                    category := Some financial |}
       else None)
  else None.


(** The candidates kept when the attributes give one candidate at most: of
    the two rules of the attributes, the button rule goes first and the
    rule of the sensitive fields counts only when it gives nothing. *)
Definition kept `{Lowercase} (context : DestructiveActionContext)
  : list SecurityAssessment :=
  omap id
    [ present (elementText context) ≫= text_rule;
      first_of (elementAttributes context ≫= button_rule)
               (elementAttributes context ≫= sensitive_field_rule);
      present (pageUrl context) ≫= url_rule;
      present (semanticContext context) ≫= semantic_rule;
      typing_rule context ].


(** The financial keywords of every language. *)
Definition financial_words : list string :=
  en financial_keywords ++ ru financial_keywords ++ es financial_keywords ++
  de financial_keywords ++ fr financial_keywords.

(** The events of a run, and the agent it leaves. *)
Definition events_of {A} (r : Result A * Agent * list Event) : list Event := r.2.
Definition agent_of {A} (r : Result A * Agent * list Event) : Agent := r.1.2.
Definition result_of {A} (r : Result A * Agent * list Event) : Result A := r.1.1.

(** The question a dispatched tool puts to the user: [ask_user] alone asks,
    once [executeTool] has found the current page. *)
Definition questions (toolName : string) (args : ToolArgs) (a : Agent)
  : list Event :=
  match BrowserManager.getCurrentPage (browserManager a) with
  | Ok _ =>
      if String.eqb toolName "ask_user" then [Asked (question args)] else []
  | Throw _ => []
  end.

Definition is_prompt_for (toolName text : string) (c : option SecurityCategory)
    (e : Event) : bool :=
  match e with
  | Prompted n t c' _ =>
      String.eqb n toolName && String.eqb t text && bool_decide (c' = c)
  | Dispatched _ => false
  | Asked _ => false
  end.

(** How many times the user was asked about a triple. *)
Fixpoint prompts_for (toolName text : string) (c : option SecurityCategory)
    (ev : list Event) : nat :=
  match ev with
  | [] => 0
  | e :: rest =>
      (if is_prompt_for toolName text c e then 1 else 0) +
      prompts_for toolName text c rest
  end.

Definition is_dispatch_of (toolName : string) (e : Event) : bool :=
  match e with
  | Dispatched n => String.eqb n toolName
  | Prompted _ _ _ _ => false
  | Asked _ => false
  end.

Definition dispatches (toolName : string) (ev : list Event) : bool :=
  existsb (is_dispatch_of toolName) ev.

(** A trace the confirmation gate can leave, between two states of the
    confirmed set: the user is asked only about a key that is not in the
    set, and an approval puts the key in. *)
Inductive gate_trace : gset string -> list Event -> gset string -> Prop :=
| gate_nil (S : gset string) : gate_trace S [] S
| gate_dispatch (S S' : gset string) toolName ev :
    gate_trace S ev S' -> gate_trace S (Dispatched toolName :: ev) S'
| gate_asked (S S' : gset string) question ev :
    gate_trace S ev S' -> gate_trace S (Asked question :: ev) S'
| gate_denied (S S' : gset string) toolName text c ev :
    actionKey toolName text c ∉ S ->
    gate_trace S ev S' ->
    gate_trace S (Prompted toolName text c false :: ev) S'
| gate_approved (S S' : gset string) toolName text c ev :
    actionKey toolName text c ∉ S ->
    gate_trace (S ∪ {[ actionKey toolName text c ]}) ev S' ->
    gate_trace S (Prompted toolName text c true :: ev) S'.

(** A computation keeps a relation [T] between the agent before, the
    events and the agent after. *)
Definition respects {A} (T : Agent -> list Event -> Agent -> Prop) (c : M A)
  : Prop :=
  ∀ a, T a (events_of (c a)) (agent_of (c a)).

(** [new] is [old] with entries added at the end: no shorter, and every
    entry of [old] at its place with its content. *)
Definition append_only (old new : list Message) : Prop :=
  length old <= length new ∧ ∀ i m, old !! i = Some m -> new !! i = Some m.

(** The relations the loop is shown to keep. *)
Definition conversation_grows (a : Agent) (ev : list Event) (a' : Agent) : Prop :=
  conversationHistory a `prefix_of` conversationHistory a'.

Definition gate_keeps (a : Agent) (ev : list Event) (a' : Agent) : Prop :=
  gate_trace (confirmedActions a) ev (confirmedActions a').

Definition completes_by_dispatch (a : Agent) (ev : list Event) (a' : Agent)
  : Prop :=
  config a' = config a ∧
  (dispatches "complete_task" ev = false -> isTaskComplete a' = isTaskComplete a).

Definition no_page (a : Agent) : Prop :=
  BrowserManager.getCurrentPage (browserManager a) = Throw "No active page".

Definition stays_without_page (a : Agent) (ev : list Event) (a' : Agent)
  : Prop :=
  config a' = config a ∧
  (no_page a -> browserManager a' = browserManager a ∧
                isTaskComplete a' = isTaskComplete a).

(** The agent of [executeTask] when it reaches its [while]. *)
Definition at_loop_entry (task : string) (a : Agent) : Agent :=
  let a1 := set_conversationHistory (conversationHistory a ++ [UserMessage task]) a in
  let a2 :=
    if showPlanVisualization (config a)
    then
      let plan := {| goal := task; steps := []; currentStepIndex := 0;
                     adaptations := []; completionCriteria := [] |} in
      set_visualizer {| shownPlan := Some plan;
                        actionHistory := actionHistory (visualizer a) |}
                     (set_currentPlan (Some plan) a1)
    else a1 in
  set_confirmedActions ∅ (set_isTaskComplete false a2).

(** The identifier [createNewTab] makes when the registry holds [i] tabs. *)
Definition tab_name (i : nat) : string := "page-" +:+ nat_to_string i.

(** The registry after [launch] and [n] calls of [createNewTab] that all
    succeed, no tab being closed: the tabs [page-0] .. [page-n]. *)
Definition tabs (n : nat) : BrowserManager.PageMap :=
  map (fun i => (tab_name i, {| BrowserManager.handle := i |})) (seq 0 n).

Definition opened (n : nat) : BrowserManager.State :=
  {| BrowserManager.context := Some {| BrowserManager.created := n |};
     BrowserManager.pages := tabs n;
     BrowserManager.currentPageId := Some "page-0" |}.

Fixpoint open_tabs (n : nat) (s : BrowserManager.State) : BrowserManager.State :=
  match n with
  | 0 => s
  | S n' =>
      (BrowserManager.createNewTab BrowserManager.all_ok None (open_tabs n' s)).2
  end.

(** Every entry of a registry is under the name of its own page. *)
Definition own_names (m : BrowserManager.PageMap) : Prop :=
  Forall (fun entry => entry.1 = tab_name (BrowserManager.handle entry.2)) m.

(** The iterations [i+1] .. [i+n] one after the other, each with the
    decision of the model for it, the test of the [while] left out. *)
Fixpoint iterations_from `{Lowercase} `{StatusColors}
    (env : nat -> IterationEnv) (i n : nat) : M unit :=
  match n with
  | 0 => ret tt
  | S n' =>
      mbind (runIteration (S i) (env (S i)))
            (fun _ => iterations_from env (S i) n')
  end.

End Spec.

(** * Concrete contexts, agents and environments *)

Module Examples.
Import BrowserAgent.

(** A password field of a payment form, typed into on a checkout page. *)
Definition payment_field : DestructiveActionContext :=
  {| action := "type_text";
     elementText := Some "Pay now";
     elementAttributes := Some [("type", "password")];
     pageUrl := Some "https://shop.example/checkout";
     pageTitle := None;
     semanticContext := Some "Payment form" |}.


(** The submit button of the scenario of the specification. *)
Definition purchase_button : DestructiveActionContext :=
  {| action := "click";
     elementText := Some "Complete Purchase";
     elementAttributes := Some [("type", "submit")];
     pageUrl := Some "https://shop.example/basket";
     pageTitle := None;
     semanticContext := None |}.

Definition delete_button : SimplifiedElement :=
  {| element_ident := "el-1";
     element_tag := "button";
     element_text := Some "Delete";
     element_attributes := [];
     element_semanticContext := None |}.

Definition given_iterations (n : nat) : AgentConfigInput :=
  {| given_requireConfirmation := None;
     given_maxIterations := Some n;
     given_enableThinking := None;
     given_showThinkingProcess := None;
     given_showPlanVisualization := None;
     given_showActionHistory := None |}.

(** An agent as [main] has it before the first task: constructed, then
    initialized, the browser showing its first page. *)
Definition started (n : nat) : Agent :=
  (initialize "You are an intelligent web automation agent."
     BrowserManager.all_ok (constructor (given_iterations n))).1.2.

Definition call (id toolName : string) (args : ToolArgs) : ToolCall :=
  {| call_id := id; name := toolName; arguments := Ok args |}.

Definition on_element (id : string) : ToolArgs :=
  {| element_id := Some id;
     url := None;
     tab_id := None;
     request_steps := None;
     current_step_index := None;
     completion_criteria := None;
     request_adaptations := None;
     question := None;
     summary := "";
     success := false |}.

Definition on_tab (id : string) : ToolArgs :=
  {| element_id := None;
     url := None;
     tab_id := Some id;
     request_steps := None;
     current_step_index := None;
     completion_criteria := None;
     request_adaptations := None;
     question := None;
     summary := "";
     success := false |}.

Definition read_page : ToolCall := call "call-0" "get_page_content" no_args.
Definition click_delete : ToolCall := call "call-1" "click" (on_element "el-1").
Definition close_first_tab : ToolCall := call "call-2" "close_tab" (on_tab "page-0").

(** A page of drafts with one button, [Delete]; the user answers [answer]
    to whatever is asked. *)
Definition drafts_page (answer : bool) : ToolEnv :=
  {| page_url := "https://example.org/drafts";
     user_answer := answer;
     page_reply := Ok "done";
     extracted := [delete_button];
     found := None;
     browser_io := BrowserManager.all_ok;
     tab_url := fun _ => "https://example.org/drafts" |}.

Definition decides (calls : list ToolCall) (answer : bool) : IterationEnv :=
  {| chat := Reply {| content := None; tool_calls := Some calls |};
     tool_env := fun _ => drafts_page answer |}.

(** The model reads the page and clicks [Delete], then clicks [Delete]
    again at every later iteration; the user refuses every prompt. *)
Definition always_refused (i : nat) : IterationEnv :=
  if (i =? 1)%nat then decides [read_page; click_delete] false
  else decides [click_delete] false.

(** The same decisions, the user approving. *)
Definition always_approved (i : nat) : IterationEnv :=
  if (i =? 1)%nat then decides [read_page; click_delete] true
  else decides [click_delete] true.

(** The model closes the only tab, then goes on clicking. *)
Definition closes_the_tab (i : nat) : IterationEnv :=
  if (i =? 1)%nat then decides [close_first_tab] true
  else decides [click_delete] true.



(** The agent once the page has been read: [Delete] is in its cache. *)
Definition browsing : Agent :=
  (processToolCall (H := asciiLowercase) (colors := plainColors) 1 (drafts_page true) read_page
     (started 3)).1.2.

(** The agent after the task that closed the only tab. *)
Definition without_page : Agent :=
  (executeTask (H := asciiLowercase) (colors := plainColors) closes_the_tab "close the tab"
     (started 3)).1.2.

(** A plan of one step, with the current step index 5. *)
Definition plan_request : ToolArgs :=
  {| element_id := None;
     url := None;
     tab_id := None;
     request_steps := Some [ {| description := "Open the site"; status := None |} ];
     current_step_index := Some 5%Z;
     completion_criteria := Some ["Site is open"];
     request_adaptations := None;
     question := None;
     summary := "";
     success := false |}.

End Examples.

(** * Further notions *)

Module Notions.
Import BrowserAgent Spec.

(** *** Events *)

Definition is_prompt (e : Event) : bool :=
  match e with
  | Prompted _ _ _ _ => true
  | Dispatched _ => false
  | Asked _ => false
  end.

Definition is_dispatch (e : Event) : bool :=
  match e with
  | Dispatched _ => true
  | Prompted _ _ _ _ => false
  | Asked _ => false
  end.

(** How many tool calls reached the dispatcher. *)
Definition dispatch_count (ev : list Event) : nat :=
  length (List.filter is_dispatch ev).

(** The labels of the [case]s of [executeTool]. *)
Definition case_labels : list string :=
  ["navigate"; "get_page_structure"; "get_page_content"; "find_element";
   "get_element_info"; "read_page_text"; "click"; "type_text"; "scroll";
   "wait"; "new_tab"; "switch_tab"; "list_tabs"; "close_tab"; "go_back";
   "take_screenshot"; "extract_text"; "update_plan"; "ask_user";
   "complete_task"].

(** A page is active. *)
Definition has_page (a : Agent) : Prop :=
  ∃ page, BrowserManager.getCurrentPage (browserManager a) = Ok page.

(** The assessment [shouldConfirm] and [confirmAction] make of a call. *)
Definition assessment_of `{Lowercase} (e : ToolEnv) (toolName : string)
    (args : ToolArgs) (a : Agent) : SecurityAssessment :=
  SecurityLayer.assessAction
    (action_context toolName (find_current args a) (page_url e)).

(** The entries of the audit log. *)
Definition logged (a : Agent) : nat := length (actionHistory (visualizer a)).

Definition logs_actions (a : Agent) : bool :=
  showPlanVisualization (config a) && showActionHistory (config a).

(** The text a dispatched call leaves as its tool result, and whether the
    tool returned. *)
Definition outcome_of `{StatusColors} (e : ToolEnv) (toolName : string)
    (args : ToolArgs) (a : Agent) : string * bool :=
  match result_of (executeTool e toolName args a) with
  | Ok text => (text, true)
  | Throw m => ("Error: " +:+ m, false)
  end.

(** The agent when a call that passed the confirmation has been dispatched
    on [a], its result recorded and logged. *)
Definition after_dispatch `{StatusColors} (iteration : nat) (e : ToolEnv)
    (tc : ToolCall) (args : ToolArgs) (a : Agent) : Agent :=
  let a2 := agent_of (executeTool e (name tc) args a) in
  let outcome := outcome_of e (name tc) args a in
  let a3 := set_conversationHistory
              (conversationHistory a2 ++ [ToolMessage (call_id tc) outcome.1])
              a2 in
  if showPlanVisualization (config a3) && showActionHistory (config a3)
  then set_visualizer
         {| shownPlan := shownPlan (visualizer a3);
            actionHistory :=
              actionHistory (visualizer a3) ++
              [ {| item_iteration := iteration;
                   item_tool := name tc;
                   item_args := args;
                   item_result := outcome.1;
                   item_success := outcome.2 |} ] |} a3
  else a3.

(** The relations the loop is shown to keep, further. *)
Definition asks_only_if_required (a : Agent) (ev : list Event) (a' : Agent)
  : Prop :=
  config a' = config a ∧
  (requireConfirmation (config a) = false -> existsb is_prompt ev = false).

Definition logs_each_dispatch (a : Agent) (ev : list Event) (a' : Agent)
  : Prop :=
  config a' = config a ∧
  logged a' = logged a + (if logs_actions a then dispatch_count ev else 0).

(** The completion flag, once set, stays set. *)
Definition stays_complete (a : Agent) (ev : list Event) (a' : Agent) : Prop :=
  isTaskComplete a = true -> isTaskComplete a' = true.

(** *** The tab registry *)

Inductive Operation : Type :=
| Launch
| CreateNewTab (url : option string)
| SwitchTab (pageId : string)
| CloseTab (pageId : string).

(** The registry after a method has run, whether it returned or threw. *)
Definition perform (s : BrowserManager.State)
    (step : BrowserManager.BrowserIO * Operation) : BrowserManager.State :=
  match step with
  | (io, Launch) => (BrowserManager.launch io s).2
  | (io, CreateNewTab url) => (BrowserManager.createNewTab io url s).2
  | (io, SwitchTab pageId) => (BrowserManager.switchTab io pageId s).2
  | (io, CloseTab pageId) => (BrowserManager.closeTab io pageId s).2
  end.

Definition perform_all (steps : list (BrowserManager.BrowserIO * Operation))
  : BrowserManager.State :=
  foldl perform BrowserManager.initial steps.

Definition keys_distinct (m : BrowserManager.PageMap) : Prop :=
  NoDup (map fst m).

Definition keys_named (m : BrowserManager.PageMap) : Prop :=
  Forall (fun entry => ∃ i, entry.1 = tab_name i) m.

Definition current_registered (s : BrowserManager.State) : Prop :=
  match BrowserManager.currentPageId s with
  | Some pageId => BrowserManager.map_has (BrowserManager.pages s) pageId = true
  | None => True
  end.

(** What holds of the registry whatever the methods called on it. *)
Definition well_formed (s : BrowserManager.State) : Prop :=
  keys_distinct (BrowserManager.pages s) ∧
  keys_named (BrowserManager.pages s) ∧
  current_registered s ∧
  (BrowserManager.context s = None -> BrowserManager.pages s = []).

(** *** The streamed answer *)

(** The tool-call fragments of a stream, in the order they arrive. *)
Definition all_fragments (chunks : list LLMClient.Chunk)
  : list LLMClient.ToolCallDelta :=
  concat (map (fun c => default [] (LLMClient.chunk_delta c ≫=
                                     LLMClient.delta_tool_calls)) chunks).

(** The index a fragment goes to. *)
Definition index_of (d : LLMClient.ToolCallDelta) : nat :=
  default 0 (LLMClient.delta_index d).

Definition fragments_at (i : nat) (ds : list LLMClient.ToolCallDelta)
  : list LLMClient.ToolCallDelta :=
  List.filter (fun d => (index_of d =? i)%nat) ds.

(** The argument texts of fragments, one after the other. *)
Fixpoint joined_arguments (ds : list LLMClient.ToolCallDelta) : string :=
  match ds with
  | [] => EmptyString
  | d :: rest => or_else (LLMClient.delta_arguments d) "" +:+ joined_arguments rest
  end.

(** The last name that is not empty, or [fallback]. *)
Fixpoint last_name (fallback : string) (ds : list LLMClient.ToolCallDelta)
  : string :=
  match ds with
  | [] => fallback
  | d :: rest => last_name (or_else (LLMClient.delta_name d) fallback) rest
  end.

(** The texts of a field of the deltas that are not empty. *)
Definition texts_of (field : LLMClient.Delta -> option string)
    (chunks : list LLMClient.Chunk) : list string :=
  omap (fun c => LLMClient.some_if_truthy
                   (default "" (LLMClient.chunk_delta c ≫= field))) chunks.

Fixpoint joined (xs : list string) : string :=
  match xs with
  | [] => EmptyString
  | x :: rest => x +:+ joined rest
  end.

(** What the fragments of one index make: the identifier of the first, the
    last name that is not empty, the argument texts one after the other. *)
Definition assembled (ds : list LLMClient.ToolCallDelta)
  : option LLMClient.StreamedToolCall :=
  match ds with
  | [] => None
  | d :: _ =>
      Some {| LLMClient.streamed_id := default "" (LLMClient.delta_id d);
              LLMClient.streamed_name := last_name "" ds;
              LLMClient.streamed_arguments := joined_arguments ds |}
  end.

(** Every question put to the user is the one of an [ask_user] call, and
    comes right after the dispatch of that call. *)
Definition asked_by_ask_user (ev : list Event) : Prop :=
  ∀ i q, ev !! i = Some (Asked q) ->
    ∃ j, i = S j ∧ ev !! j = Some (Dispatched "ask_user").

Definition asks_by_ask_user (a : Agent) (ev : list Event) (a' : Agent) : Prop :=
  asked_by_ask_user ev.

End Notions.

(** ** Further scenarios *)

Module Scenarios.
Import BrowserAgent Examples Notions.

(** The attributes of the button of a payment form. *)
Definition payment_button : list (string * string) :=
  [("type", "submit"); ("name", "payment")].

(** A tool call whose argument text is cut short. *)
Definition malformed_call : ToolCall :=
  {| call_id := "call-3";
     name := "click";
     arguments := Throw "Unexpected end of JSON input" |}.

(** An agent that is not to ask for confirmations. *)
Definition unattended : Agent :=
  (initialize "You are an intelligent web automation agent."
     BrowserManager.all_ok
     (constructor
        {| given_requireConfirmation := Some false;
           given_maxIterations := Some 3;
           given_enableThinking := None;
           given_showThinkingProcess := None;
           given_showPlanVisualization := None;
           given_showActionHistory := None |})).1.2.

Definition report : ToolArgs :=
  {| element_id := None;
     url := None;
     tab_id := None;
     request_steps := None;
     current_step_index := None;
     completion_criteria := None;
     request_adaptations := None;
     question := None;
     summary := "The draft is deleted";
     success := true |}.

Definition finish : ToolCall := call "call-4" "complete_task" report.

(** The model declares the task complete and, in the same decision, sends a
    call that cannot be read. *)
Definition finishes (i : nat) : IterationEnv :=
  decides [finish; malformed_call] true.

(** The model declares the task complete, closes the only tab and clicks,
    all in one decision. *)
Definition finishes_and_closes (i : nat) : IterationEnv :=
  decides [finish; close_first_tab; click_delete] true.

(** An [update_plan] call with the plan of one step. *)
Definition plan_call : ToolCall := call "call-5" "update_plan" plan_request.

Definition which_draft : ToolArgs :=
  {| element_id := None;
     url := None;
     tab_id := None;
     request_steps := None;
     current_step_index := None;
     completion_criteria := None;
     request_adaptations := None;
     question := Some "Which draft?";
     summary := "";
     success := false |}.

(** The model asks the user, then declares the task complete. *)
Definition asks_and_finishes (i : nat) : IterationEnv :=
  decides [call "call-6" "ask_user" which_draft; finish] true.

(** The browser launched and a second tab opened. *)
Definition two_tabs : list (BrowserManager.BrowserIO * Operation) :=
  [(BrowserManager.all_ok, Launch); (BrowserManager.all_ok, CreateNewTab None)].

(** A stream of four chunks: reasoning, then a tool call whose arguments
    come in two fragments, the second without identifier and name. *)
Definition fragment (id name arguments : option string)
  : LLMClient.ToolCallDelta :=
  {| LLMClient.delta_index := Some 0;
     LLMClient.delta_id := id;
     LLMClient.delta_name := name;
     LLMClient.delta_arguments := arguments |}.

Definition chunk_of (d : LLMClient.Delta) : LLMClient.Chunk :=
  {| LLMClient.chunk_delta := Some d;
     LLMClient.chunk_finish_reason := None;
     LLMClient.chunk_usage := None |}.

Definition thinks (text : string) : LLMClient.Chunk :=
  chunk_of {| LLMClient.delta_reasoning := Some text;
              LLMClient.delta_content := None;
              LLMClient.delta_tool_calls := None |}.

Definition calls_tool (d : LLMClient.ToolCallDelta) : LLMClient.Chunk :=
  chunk_of {| LLMClient.delta_reasoning := None;
              LLMClient.delta_content := None;
              LLMClient.delta_tool_calls := Some [d] |}.

Definition streamed_click : list LLMClient.Chunk :=
  [ thinks "The button ";
    thinks "is there.";
    calls_tool (fragment (Some "call-7") (Some "click") (Some "{'element_id':"));
    calls_tool (fragment None None (Some "'el-1'}")) ].

End Scenarios.

(** * Properties of the security layer *)

Section SortFacts.
Context {A : Type} (ord : A -> Z) (cmp : A -> A -> Z).
Hypothesis cmp_descending : ∀ a b, cmp a b = (ord b - ord a)%Z.

(** The head of the sorted array is the first of the elements of the
    greatest order. *)
Lemma sort_head_first_max (l : list A) :
  l ≠ [] ->
  ∃ before winner after,
    l = before ++ winner :: after ∧
    (∀ x, x ∈ before -> (ord x < ord winner)%Z) ∧
    (∀ x, x ∈ after -> (ord x <= ord winner)%Z) ∧
    head (sort cmp l) = Some winner.
Proof.
  induction l as [|x rest IH]; [done|]. intros _.
  destruct rest as [|y rest'].
  - exists [], x, []. cbn. set_solver.
  - destruct IH as (before & w & after & Hsplit & Hlt & Hle & Hhead); [done|].
    change (sort cmp (x :: y :: rest'))
      with (insert_sorted cmp x (sort cmp (y :: rest'))).
    destruct (sort cmp (y :: rest')) as [|h t] eqn:Hs; [done|].
    cbn in Hhead. injection Hhead as ->.
    cbn [insert_sorted]. rewrite cmp_descending.
    destruct (Z.leb_spec (ord w - ord x) 0) as [Hc|Hc].
    + exists [], x, (y :: rest'). cbn. split; [done|]. split; [set_solver|].
      split; [|done]. intros z Hz. rewrite Hsplit in Hz.
      apply elem_of_app in Hz as [Hz|Hz].
      * specialize (Hlt z Hz). lia.
      * apply elem_of_cons in Hz as [->|Hz]; [lia|]. specialize (Hle z Hz). lia.
    + exists (x :: before), w, after. rewrite Hsplit. cbn.
      split; [done|]. split; [|done].
      intros z Hz. apply elem_of_cons in Hz as [->|Hz]; [lia|]. by apply Hlt.
Qed.

End SortFacts.

Example sort_keeps_ties_in_order :
  sort (fun a b : Z * string => (b.1 - a.1)%Z)
       [(2%Z, "a"); (4%Z, "b"); (4%Z, "c"); (1%Z, "d")] =
  [(4%Z, "b"); (4%Z, "c"); (2%Z, "a"); (1%Z, "d")].
Proof. reflexivity. Qed.

Section SecurityFacts.
Context `{Lowercase}.
Import SecurityConstants SecurityLayer Spec.

Lemma collected_fired (context : DestructiveActionContext) :
  collected context = fired context.
Proof.
  unfold collected, fired, signals.
  destruct (text_signal context), (attribute_signal context),
    (url_signal context), (semantic_signal context), (type_signal context);
    reflexivity.
Qed.


(** What [assessAction] returns is read off the head of the sorted array. *)
Lemma assessAction_head (context : DestructiveActionContext) w :
  head (sort by_risk_descending (collected context)) = Some w ->
  assessAction context =
    {| isDestructive := true; riskLevel := riskLevel w;
       reason := reason w; category := category w |}.
Proof.
  unfold assessAction.
  destruct (sort by_risk_descending (collected context)); cbn; [done|].
  by intros [= ->].
Qed.

Lemma level_bounds (a : SecurityAssessment) : (1 <= level a <= 4)%Z.
Proof. unfold level. destruct (riskLevel a); cbn; lia. Qed.

End SecurityFacts.

Section AssessAction.
Context `{Lowercase}.
Import SecurityConstants SecurityLayer Spec.

Lemma by_risk_descending_level (a b : SecurityAssessment) :
  by_risk_descending a b = (level b - level a)%Z.
Proof. reflexivity. Qed.

(** The candidate [assessAction] returns, among the fired ones. *)
Lemma assessAction_winner (context : DestructiveActionContext) :
  fired context ≠ [] ->
  ∃ before winner after,
    fired context = before ++ winner :: after ∧
    (∀ x, x ∈ before -> (level x < level winner)%Z) ∧
    (∀ x, x ∈ after -> (level x <= level winner)%Z) ∧
    assessAction context =
      {| isDestructive := true; riskLevel := riskLevel winner;
         reason := reason winner; category := category winner |}.
Proof.
  intros Hne. rewrite <- collected_fired in *.
  destruct (sort_head_first_max level by_risk_descending
              by_risk_descending_level (collected context) Hne)
    as (before & w & after & Hsplit & Hlt & Hle & Hhead).
  exists before, w, after. repeat split; try done.
  by apply assessAction_head.
Qed.

Lemma includes_nonempty (s k : string) :
  includes s k = true -> k ≠ "" -> s ≠ "".
Proof. intros Hi Hk ->. destruct k; [done|]. cbn in Hi. done. Qed.

Lemma first_included_is_Some (t : string) (l : list string) (k : string) :
  k ∈ l -> includes t k = true -> is_Some (first_included t l).
Proof.
  induction l as [|k' l IH]; intros Hin Hi; [by apply elem_of_nil in Hin|].
  cbn. destruct (includes t k') eqn:Hk'; [by eexists|].
  apply elem_of_cons in Hin as [->|Hin]; [congruence|]. by apply IH.
Qed.

Lemma scan_languages_finds (t : string) (c : SecurityCategory)
    (langs : list (string * list string)) (lang k : string) (ks : list string) :
  (lang, ks) ∈ langs -> k ∈ ks -> includes t k = true ->
  ∃ lang' k', scan_languages t c langs = Some (text_assessment c lang' k').
Proof.
  induction langs as [|[l0 ks0] langs IH]; intros Hin Hk Hi;
    [by apply elem_of_nil in Hin|].
  cbn. destruct (first_included t ks0) as [k0|] eqn:H0; [by eauto|].
  apply elem_of_cons in Hin as [Heq|Hin]; [|by apply IH].
  injection Heq as -> ->.
  destruct (first_included_is_Some t ks0 k Hk Hi) as [? ?]. congruence.
Qed.

Lemma financial_words_nonempty (k : string) : k ∈ financial_words -> k ≠ "".
Proof.
  unfold financial_words. cbn. intros Hin ->.
  repeat (apply elem_of_cons in Hin as [Hin|Hin]; [discriminate Hin|]).
  by apply elem_of_nil in Hin.
Qed.

Lemma financial_words_language (k : string) :
  k ∈ financial_words ->
  ∃ lang ks, (lang, ks) ∈ language_entries financial_keywords ∧ k ∈ ks.
Proof.
  unfold financial_words, language_entries. rewrite !elem_of_app.
  intros [Hin|[Hin|[Hin|[Hin|Hin]]]];
    [ exists "en", (en financial_keywords)
    | exists "ru", (ru financial_keywords)
    | exists "es", (es financial_keywords)
    | exists "de", (de financial_keywords)
    | exists "fr", (fr financial_keywords) ];
    (split; [|exact Hin]); repeat constructor.
Qed.

(** A text with a financial keyword gives the text signal of that category. *)
Lemma text_signal_financial (context : DestructiveActionContext)
    (text keyword : string) :
  elementText context = Some text ->
  keyword ∈ financial_words ->
  includes (toLowerCase text) keyword = true ->
  ∃ lang k, text_signal context = Some (text_assessment financial lang k).
Proof.
  intros Htext Hin Hi.
  assert (text ≠ "") as Hne.
  { intros ->. rewrite toLowerCase_empty in Hi.
    by apply (includes_nonempty _ _ Hi (financial_words_nonempty _ Hin)). }
  unfold text_signal. rewrite Htext. destruct text as [|c r]; [done|].
  cbn -[checkTextForDestructiveKeywords].
  unfold checkTextForDestructiveKeywords.
  destruct (financial_words_language keyword Hin) as (lang & ks & Hl & Hk).
  destruct (scan_languages_finds (toLowerCase (String c r)) financial _ _ _ _ Hl Hk Hi)
    as (lang' & k' & Hscan).
  exists lang', k'. unfold DESTRUCTIVE_KEYWORDS. cbn [scan_categories].
  by rewrite Hscan.
Qed.
















(** C7. When the element text contains, once lowered, a financial keyword of
    any of the five languages, the assessment is destructive, of category
    financial and of risk level critical, whatever else fires. *)
Theorem financial_text_assessed_critical (context : DestructiveActionContext)
    (text keyword : string) :
  elementText context = Some text ->
  keyword ∈ financial_words ->
  includes (toLowerCase text) keyword = true ->
  isDestructive (assessAction context) = true ∧
  category (assessAction context) = Some financial ∧
  riskLevel (assessAction context) = critical.
Proof.
  intros Htext Hin Hi.
  destruct (text_signal_financial context text keyword Htext Hin Hi)
    as (lang & k & Hsig).
  assert (∃ rest, fired context = text_assessment financial lang k :: rest)
    as [rest Hfired].
  { unfold fired, signals. rewrite Hsig. cbn. by eexists. }
  destruct (assessAction_winner context) as
    (before & w & after & Hsplit & Hlt & Hle & Heq);
    [by rewrite Hfired|].
  rewrite Heq. cbn. rewrite Hfired in Hsplit.
  destruct before as [|x before'].
  - cbn in Hsplit. injection Hsplit as <- _. done.
  - cbn in Hsplit. injection Hsplit as <- _.
    specialize (Hlt (text_assessment financial lang k)).
    pose proof (level_bounds w).
    assert (level (text_assessment financial lang k) = 4%Z) as Hl by reflexivity.
    rewrite Hl in Hlt. specialize (Hlt ltac:(constructor)). lia.
Qed.

End AssessAction.

(** * Properties of the agent *)

Section Frames.
Context `{Lowercase} {colors : StatusColors}.
Import BrowserAgent Spec.

(** What the confirmation gate can do: let the call through, throw, ask and be
    refused, or ask, be approved and record the key. *)
Lemma confirmation_gate_cases (e : ToolEnv) (n : string) (args : ToolArgs)
    (a : Agent) :
  confirmation_gate e n args a = (Ok true, a, []) ∨
  (∃ m, confirmation_gate e n args a = (Throw m, a, [])) ∨
  (∃ t c, (actionKey n t c ∉ confirmedActions a) ∧
          confirmation_gate e n args a = (Ok false, a, [Prompted n t c false])) ∨
  (∃ t c, (actionKey n t c ∉ confirmedActions a) ∧
          confirmation_gate e n args a =
            (Ok true,
             set_confirmedActions (confirmedActions a ∪ {[ actionKey n t c ]}) a,
             [Prompted n t c true])).
Proof.
  unfold confirmation_gate, shouldConfirm, confirmAction, mbind, gets, ret,
    getCurrentPage, emit, modify.
  destruct (requireConfirmation (config a)); [|by left].
  destruct (BrowserManager.getCurrentPage (browserManager a)) as [page|m] eqn:Hp;
    [|right; left; by eexists].
  set (element := find_current args a).
  set (assessment := SecurityLayer.assessAction _).
  destruct (bool_decide (riskLevel assessment = low)); [by left|].
  destruct (bool_decide (_ ∈ confirmedActions a)) eqn:Hkey; [by left|].
  apply bool_decide_eq_false in Hkey.
  destruct (isDestructive assessment && _); [|by left].
  cbn. rewrite Hp. cbn.
  destruct (user_answer e); cbn.
  - right; right; right. by eexists _, _.
  - right; right; left. by eexists _, _.
Qed.

(** What [executeTool] leaves alone. *)
Lemma executeTool_frame (e : ToolEnv) (n : string) (args : ToolArgs) (a : Agent) :
  events_of (executeTool e n args a) = questions n args a ∧
  conversationHistory (agent_of (executeTool e n args a)) = conversationHistory a ∧
  confirmedActions (agent_of (executeTool e n args a)) = confirmedActions a ∧
  config (agent_of (executeTool e n args a)) = config a ∧
  (n ≠ "complete_task" ->
   isTaskComplete (agent_of (executeTool e n args a)) = isTaskComplete a).
Proof.
  unfold events_of, agent_of, questions.
  destruct (executeTool e n args a) as [[r a'] ev] eqn:Hr. cbn.
  revert Hr. unfold executeTool. unfold mbind at 1. unfold getCurrentPage.
  destruct (BrowserManager.getCurrentPage (browserManager a)) as [page|m];
    [|by intros [= <- <- <-]].
  repeat match goal with
         | |- context [if String.eqb ?x ?y then _ else _] =>
             destruct (String.eqb_spec x y)
         end;
    unfold visualizer_setPlan, mbind, lift, modify, ret, gets, throw, on_browser,
      emit;
    repeat case_match; intros; simplify_eq; cbn; done.
Qed.

End Frames.

(** ** Relations every step of the loop keeps *)

Section Respects.
Context `{Lowercase} {colors : StatusColors}.
Import BrowserAgent Spec.

Variable T : Agent -> list Event -> Agent -> Prop.
Hypothesis T_refl : ∀ a, T a [] a.
Hypothesis T_trans :
  ∀ a ev a' ev' a'', T a ev a' -> T a' ev' a'' -> T a (ev ++ ev') a''.

Lemma respects_ret {A} (x : A) : respects T (ret x).
Proof. intros a. apply T_refl. Qed.

Lemma respects_throw {A} (m : string) : respects T (@throw A m).
Proof. intros a. apply T_refl. Qed.

Lemma respects_lift {A} (r : Result A) : respects T (lift r).
Proof. intros a. apply T_refl. Qed.

Lemma respects_gets {A} (f : Agent -> A) : respects T (gets f).
Proof. intros a. apply T_refl. Qed.

Lemma respects_bind {A B} (c : M A) (k : A -> M B) :
  respects T c -> (∀ x, respects T (k x)) -> respects T (mbind c k).
Proof.
  intros Hc Hk a. unfold mbind, events_of, agent_of.
  specialize (Hc a). unfold events_of, agent_of in Hc.
  destruct (c a) as [[[x|m] a'] ev]; cbn in *; [|done].
  specialize (Hk x a'). unfold events_of, agent_of in Hk.
  destruct (k x a') as [[r a''] ev']. cbn in *. by eapply T_trans.
Qed.

Lemma respects_try_catch {A} (c : M A) (h : string -> M A) :
  respects T c -> (∀ m, respects T (h m)) -> respects T (try_catch c h).
Proof.
  intros Hc Hh a. unfold try_catch, events_of, agent_of.
  specialize (Hc a). unfold events_of, agent_of in Hc.
  destruct (c a) as [[[x|m] a'] ev]; cbn in *; [done|].
  specialize (Hh m a'). unfold events_of, agent_of in Hh.
  destruct (h m a') as [[r a''] ev']. cbn in *. by eapply T_trans.
Qed.

Hypothesis T_push : ∀ m, respects T (push_message m).
Hypothesis T_history : ∀ item, respects T (visualizer_addActionToHistory item).
Hypothesis T_gate : ∀ e n args, respects T (confirmation_gate e n args).
Hypothesis T_dispatch : ∀ e n args, respects T (dispatch e n args).

Lemma respects_processToolCall (iteration : nat) (e : ToolEnv) (tc : ToolCall) :
  respects T (processToolCall iteration e tc).
Proof.
  unfold processToolCall.
  apply respects_bind; [apply respects_lift|]. intros args.
  apply respects_bind; [apply T_gate|]. intros confirmed.
  destruct (negb confirmed); [apply T_push|].
  apply respects_bind; [apply T_dispatch|]. intros outcome.
  apply respects_bind; [apply T_push|]. intros _.
  apply respects_bind; [apply respects_gets|]. intros cfg.
  destruct (_ && _); [apply T_history|apply respects_ret].
Qed.

Lemma respects_for_tool_calls (iteration : nat) (env : nat -> ToolEnv)
    (calls : list ToolCall) :
  ∀ i, respects T (for_tool_calls iteration env i calls).
Proof.
  induction calls as [|tc rest IH]; intros i; cbn [for_tool_calls].
  - apply respects_ret.
  - apply respects_bind; [apply respects_processToolCall|]. intros _. apply IH.
Qed.

Lemma respects_iteration_body (iteration : nat) (e : IterationEnv) :
  respects T (iteration_body iteration e).
Proof.
  unfold iteration_body.
  apply respects_bind.
  { destruct (chat e); [apply respects_throw..|apply respects_ret]. }
  intros message. apply respects_bind; [apply T_push|]. intros _.
  destruct (tool_calls message) as [[|first rest]|];
    [apply respects_throw|apply respects_for_tool_calls|apply respects_throw].
Qed.

Lemma respects_runIteration (iteration : nat) (e : IterationEnv) :
  respects T (runIteration iteration e).
Proof.
  unfold runIteration.
  apply respects_try_catch; [apply respects_iteration_body|].
  intros m. apply T_push.
Qed.

Lemma respects_while_loop (fuel : nat) (env : nat -> IterationEnv) :
  ∀ i, respects T (while_loop fuel env i).
Proof.
  induction fuel as [|fuel IH]; intros i a; cbn [while_loop];
    destruct (_ && _); try apply T_refl.
  revert a. fold (respects T
    (mbind (runIteration (S i) (env (S i))) (fun _ => while_loop fuel env (S i)))).
  apply respects_bind; [apply respects_runIteration|]. intros _. apply IH.
Qed.

End Respects.

Section Kept.
Context `{Lowercase} {colors : StatusColors}.
Import BrowserAgent Spec.

Lemma executeTool_no_page (e : ToolEnv) (n : string) (args : ToolArgs)
    (a : Agent) (m : string) :
  BrowserManager.getCurrentPage (browserManager a) = Throw m ->
  executeTool e n args a = (Throw m, a, []).
Proof.
  intros Hp. unfold executeTool. unfold mbind at 1. unfold getCurrentPage.
  by rewrite Hp.
Qed.

(** [dispatch] never throws: it hands back the text of the tool or of its
    error, on the agent the tool leaves. *)
Lemma dispatch_unfold (e : ToolEnv) (n : string) (args : ToolArgs) (a : Agent) :
  dispatch e n args a =
    (Ok match result_of (executeTool e n args a) with
        | Ok text => (text, true)
        | Throw m => ("Error: " +:+ m, false)
        end,
     agent_of (executeTool e n args a),
     Dispatched n :: questions n args a).
Proof.
  pose proof (executeTool_frame e n args a) as (Hev & _).
  unfold dispatch, mbind, try_catch, emit, ret, result_of, agent_of, events_of in *.
  destruct (executeTool e n args a) as [[[text|m] a'] ev]; cbn in *; subst;
    by rewrite ?app_nil_r.
Qed.

Lemma dispatch_agent (e : ToolEnv) (n : string) (args : ToolArgs) (a : Agent) :
  agent_of (dispatch e n args a) = agent_of (executeTool e n args a).
Proof. by rewrite dispatch_unfold. Qed.

Lemma dispatch_events (e : ToolEnv) (n : string) (args : ToolArgs) (a : Agent) :
  events_of (dispatch e n args a) = Dispatched n :: questions n args a.
Proof. by rewrite dispatch_unfold. Qed.

Lemma questions_cases (n : string) (args : ToolArgs) (a : Agent) :
  questions n args a = [] ∨ questions n args a = [Asked (question args)].
Proof.
  unfold questions. destruct (BrowserManager.getCurrentPage _); [|by left].
  destruct (String.eqb n "ask_user"); [by right|by left].
Qed.

(** *** The conversation only grows *)

Lemma conversation_grows_refl a : conversation_grows a [] a.
Proof. by unfold conversation_grows. Qed.

Lemma conversation_grows_trans a ev a' ev' a'' :
  conversation_grows a ev a' -> conversation_grows a' ev' a'' ->
  conversation_grows a (ev ++ ev') a''.
Proof. unfold conversation_grows. by etrans. Qed.

Lemma conversation_grows_push m : respects conversation_grows (push_message m).
Proof. intros a. unfold conversation_grows. cbn. by apply prefix_app_r. Qed.

Lemma conversation_grows_history item :
  respects conversation_grows (visualizer_addActionToHistory item).
Proof. intros a. unfold conversation_grows. by cbn. Qed.

Lemma conversation_grows_gate e n args :
  respects conversation_grows (confirmation_gate e n args).
Proof.
  intros a. unfold conversation_grows, agent_of.
  destruct (confirmation_gate_cases e n args a)
    as [->|[[m ->]|[(t & c & _ & ->)|(t & c & _ & ->)]]]; by cbn.
Qed.

Lemma conversation_grows_dispatch e n args :
  respects conversation_grows (dispatch e n args).
Proof.
  intros a. unfold conversation_grows. rewrite dispatch_agent.
  pose proof (executeTool_frame e n args a) as (_ & Hc & _). by rewrite Hc.
Qed.

(** *** The confirmation gate asks only about keys it has not recorded *)

Lemma gate_trace_app S1 ev S2 ev' S3 :
  gate_trace S1 ev S2 -> gate_trace S2 ev' S3 -> gate_trace S1 (ev ++ ev') S3.
Proof. induction 1; intros; cbn; [done|constructor; auto..]. Qed.

Lemma gate_keeps_refl a : gate_keeps a [] a.
Proof. constructor. Qed.

Lemma gate_keeps_trans a ev a' ev' a'' :
  gate_keeps a ev a' -> gate_keeps a' ev' a'' -> gate_keeps a (ev ++ ev') a''.
Proof. apply gate_trace_app. Qed.

Lemma gate_keeps_push m : respects gate_keeps (push_message m).
Proof. intros a. constructor. Qed.

Lemma gate_keeps_history item :
  respects gate_keeps (visualizer_addActionToHistory item).
Proof. intros a. constructor. Qed.

Lemma gate_keeps_gate e n args : respects gate_keeps (confirmation_gate e n args).
Proof.
  intros a. unfold gate_keeps, agent_of, events_of.
  destruct (confirmation_gate_cases e n args a)
    as [->|[[m ->]|[(t & c & Hk & ->)|(t & c & Hk & ->)]]]; cbn.
  - constructor.
  - constructor.
  - constructor; [done|constructor].
  - constructor; [done|constructor].
Qed.

Lemma gate_keeps_dispatch e n args : respects gate_keeps (dispatch e n args).
Proof.
  intros a. unfold gate_keeps. rewrite dispatch_agent, dispatch_events.
  pose proof (executeTool_frame e n args a) as (_ & _ & Hc & _).
  rewrite Hc. destruct (questions_cases n args a) as [-> | ->];
    repeat constructor.
Qed.

(** *** Only a dispatch of [complete_task] sets the completion flag *)

Lemma dispatches_app n ev ev' :
  dispatches n (ev ++ ev') = dispatches n ev || dispatches n ev'.
Proof. apply existsb_app. Qed.

Lemma completes_by_dispatch_refl a : completes_by_dispatch a [] a.
Proof. by split. Qed.

Lemma completes_by_dispatch_trans a ev a' ev' a'' :
  completes_by_dispatch a ev a' -> completes_by_dispatch a' ev' a'' ->
  completes_by_dispatch a (ev ++ ev') a''.
Proof.
  intros [Hc1 Hf1] [Hc2 Hf2]. split; [congruence|].
  rewrite dispatches_app. intros [H1 H2]%orb_false_iff.
  rewrite Hf2, Hf1; done.
Qed.

Lemma completes_by_dispatch_push m :
  respects completes_by_dispatch (push_message m).
Proof. intros a. by split. Qed.

Lemma completes_by_dispatch_history item :
  respects completes_by_dispatch (visualizer_addActionToHistory item).
Proof. intros a. by split. Qed.

Lemma completes_by_dispatch_gate e n args :
  respects completes_by_dispatch (confirmation_gate e n args).
Proof.
  intros a. unfold completes_by_dispatch, agent_of, events_of.
  destruct (confirmation_gate_cases e n args a)
    as [->|[[m ->]|[(t & c & _ & ->)|(t & c & _ & ->)]]]; by cbn.
Qed.

Lemma completes_by_dispatch_dispatch e n args :
  respects completes_by_dispatch (dispatch e n args).
Proof.
  intros a. unfold completes_by_dispatch.
  rewrite dispatch_agent, dispatch_events.
  pose proof (executeTool_frame e n args a) as (_ & _ & _ & Hc & Hflag).
  split; [done|]. unfold dispatches. cbn [existsb is_dispatch_of].
  intros [Hn _]%orb_false_iff. apply Hflag. intros ->. done.
Qed.

(** *** Without an active page nothing reaches the browser or the flag *)

Lemma stays_without_page_refl a : stays_without_page a [] a.
Proof. by split. Qed.

Lemma stays_without_page_trans a ev a' ev' a'' :
  stays_without_page a ev a' -> stays_without_page a' ev' a'' ->
  stays_without_page a (ev ++ ev') a''.
Proof.
  intros [Hc1 Hf1] [Hc2 Hf2]. split; [congruence|].
  intros Hp. destruct (Hf1 Hp) as [Hb1 Hd1].
  destruct Hf2 as [Hb2 Hd2]; [unfold no_page in *; congruence|].
  split; congruence.
Qed.

Lemma stays_without_page_push m : respects stays_without_page (push_message m).
Proof. intros a. by split. Qed.

Lemma stays_without_page_history item :
  respects stays_without_page (visualizer_addActionToHistory item).
Proof. intros a. by split. Qed.

Lemma stays_without_page_gate e n args :
  respects stays_without_page (confirmation_gate e n args).
Proof.
  intros a. unfold stays_without_page, agent_of, events_of.
  destruct (confirmation_gate_cases e n args a)
    as [->|[[m ->]|[(t & c & _ & ->)|(t & c & _ & ->)]]]; by cbn.
Qed.

Lemma stays_without_page_dispatch e n args :
  respects stays_without_page (dispatch e n args).
Proof.
  intros a. unfold stays_without_page. rewrite dispatch_agent.
  pose proof (executeTool_frame e n args a) as (_ & _ & _ & Hc & _).
  split; [done|]. intros Hp. by rewrite (executeTool_no_page _ _ _ _ _ Hp).
Qed.

End Kept.

(** ** The loop *)

Section Loop.
Context `{Lowercase} {colors : StatusColors}.
Import BrowserAgent Spec.

Create HintDb kept discriminated.
Hint Resolve conversation_grows_refl conversation_grows_trans
  conversation_grows_push conversation_grows_history conversation_grows_gate
  conversation_grows_dispatch
  gate_keeps_refl gate_keeps_trans gate_keeps_push gate_keeps_history
  gate_keeps_gate gate_keeps_dispatch
  completes_by_dispatch_refl completes_by_dispatch_trans
  completes_by_dispatch_push completes_by_dispatch_history
  completes_by_dispatch_gate completes_by_dispatch_dispatch
  stays_without_page_refl stays_without_page_trans stays_without_page_push
  stays_without_page_history stays_without_page_gate
  stays_without_page_dispatch : kept.

(** An iteration ends inside its [catch] at the latest: it never throws. *)
Lemma runIteration_ok (iteration : nat) (e : IterationEnv) (a : Agent) :
  result_of (runIteration iteration e a) = Ok tt.
Proof.
  unfold runIteration, try_catch, result_of.
  destruct (iteration_body iteration e a) as [[[[]|m] a'] ev]; by cbn.
Qed.

Lemma runIteration_completes_by_dispatch (iteration : nat) (e : IterationEnv) :
  respects completes_by_dispatch (runIteration iteration e).
Proof. apply respects_runIteration; eauto with kept. Qed.

Lemma runIteration_stays_without_page (iteration : nat) (e : IterationEnv) :
  respects stays_without_page (runIteration iteration e).
Proof. apply respects_runIteration; eauto with kept. Qed.

Lemma runIteration_conversation_grows (iteration : nat) (e : IterationEnv) :
  respects conversation_grows (runIteration iteration e).
Proof. apply respects_runIteration; eauto with kept. Qed.

Lemma while_loop_conversation_grows fuel env i :
  respects conversation_grows (while_loop fuel env i).
Proof. apply respects_while_loop; eauto with kept. Qed.

Lemma while_loop_gate_keeps fuel env i :
  respects gate_keeps (while_loop fuel env i).
Proof. apply respects_while_loop; eauto with kept. Qed.

(** [executeTask] is its loop, run on the agent the lines before it make. *)
Lemma executeTask_unfold (env : nat -> IterationEnv) (task : string) (a : Agent) :
  executeTask env task a =
    match while_loop (maxIterations (config a)) env 0 (at_loop_entry task a) with
    | (Ok count, a', ev) =>
        (Ok match count with
            | Some n =>
                Some {| iterations := n;
                        outcome := if isTaskComplete a' then Completed
                                   else MaxIterationsReached |}
            | None => None
            end, a', ev)
    | (Throw m, a', ev) => (Throw m, a', ev)
    end.
Proof.
  unfold executeTask, at_loop_entry, mbind, push_message, visualizer_setPlan,
    modify, gets, ret.
  cbn. destruct (showPlanVisualization (config a)); cbn;
    match goal with
    | |- context [while_loop ?f ?e ?i ?s] =>
        destruct (while_loop f e i s) as [[[count|m] a'] ev]
    end; cbn; by rewrite ?app_nil_r.
Qed.

(** The two ways of the test of the [while]. *)
Lemma while_loop_exit (fuel : nat) (env : nat -> IterationEnv) (i : nat)
    (a : Agent) :
  isTaskComplete a = true ∨ maxIterations (config a) <= i ->
  while_loop fuel env i a = (Ok (Some i), a, []).
Proof.
  intros Hstop. destruct fuel; cbn [while_loop].
  all: destruct Hstop as [->|Hge]; [done|].
  all: destruct (Nat.ltb_spec i (maxIterations (config a))); [lia|].
  all: by rewrite andb_false_r.
Qed.

Lemma while_loop_enter (fuel : nat) (env : nat -> IterationEnv) (i : nat)
    (a : Agent) :
  isTaskComplete a = false -> i < maxIterations (config a) ->
  while_loop (S fuel) env i a =
    mbind (runIteration (S i) (env (S i))) (fun _ => while_loop fuel env (S i)) a.
Proof.
  intros Hflag Hlt. cbn [while_loop]. rewrite Hflag.
  destruct (Nat.ltb_spec i (maxIterations (config a))); [done|lia].
Qed.

(** The loop ends with a count, not beyond the maximum; and it goes up to
    the maximum as long as the iterations, taken one at a time, leave the
    task incomplete. *)
Section ToTheCap.
Variable Inv : Agent -> Prop.
Variable allowed : list Event -> Prop.
Hypothesis allowed_app :
  ∀ ev ev', allowed (ev ++ ev') -> allowed ev ∧ allowed ev'.
Hypothesis Inv_step :
  ∀ iteration e a,
    Inv a -> isTaskComplete a = false ->
    allowed (events_of (runIteration iteration e a)) ->
    Inv (agent_of (runIteration iteration e a)) ∧
    isTaskComplete (agent_of (runIteration iteration e a)) = false.

Lemma while_loop_spec (fuel : nat) (env : nat -> IterationEnv) :
  ∀ (i : nat) (a : Agent),
    maxIterations (config a) - i <= fuel ->
    ∃ n a' ev,
      while_loop fuel env i a = (Ok (Some n), a', ev) ∧
      config a' = config a ∧
      i <= n ∧
      (i <= maxIterations (config a) -> n <= maxIterations (config a)) ∧
      (Inv a -> isTaskComplete a = false -> allowed ev ->
       i <= maxIterations (config a) ->
       n = maxIterations (config a) ∧ isTaskComplete a' = false ∧ Inv a').
Proof.
  assert (∀ i a,
            isTaskComplete a = true ∨ maxIterations (config a) <= i ->
            ∃ n a' ev,
              (Ok (Some i), a, []) = (Ok (Some n), a', ev) ∧
              config a' = config a ∧
              i <= n ∧
              (i <= maxIterations (config a) -> n <= maxIterations (config a)) ∧
              (Inv a -> isTaskComplete a = false -> allowed ev ->
               i <= maxIterations (config a) ->
               n = maxIterations (config a) ∧ isTaskComplete a' = false ∧ Inv a'))
    as Hexit.
  { intros i a Hstop. exists i, a, [].
    split; [done|]. split; [done|]. split; [lia|]. split; [intros; lia|].
    intros HI Hflag _ Hle. destruct Hstop as [Hstop|Hstop]; [congruence|].
    split; [lia|done]. }
  assert (∀ a, isTaskComplete a = true ∨ isTaskComplete a = false) as Hbool.
  { intros a. destruct (isTaskComplete a); auto. }
  induction fuel as [|fuel IH]; intros i a Hfuel.
  - rewrite while_loop_exit; [apply Hexit|];
      (destruct (Hbool a); [by left|right; lia]).
  - destruct (Hbool a) as [Hflag|Hflag];
      [rewrite while_loop_exit; [apply Hexit|]; by left|].
    destruct (Nat.lt_ge_cases i (maxIterations (config a))) as [Hlt|Hge].
    2: { rewrite while_loop_exit; [apply Hexit|]; by right. }
    rewrite while_loop_enter by done.
    unfold mbind.
    pose proof (runIteration_ok (S i) (env (S i)) a) as Hok.
    pose proof (runIteration_completes_by_dispatch (S i) (env (S i)) a) as [Hcfg _].
    pose proof (Inv_step (S i) (env (S i)) a) as Hstep.
    unfold result_of, agent_of, events_of in *.
    destruct (runIteration (S i) (env (S i)) a) as [[r a1] ev1]. cbn in *.
    subst r.
    destruct (IH (S i) a1) as (n & a' & ev & Hrun & Hcfg' & Hle & Hmax & Hcap);
      [rewrite Hcfg; lia|].
    rewrite Hrun. exists n, a', (ev1 ++ ev).
    rewrite Hcfg in *.
    split; [done|]. split; [congruence|]. split; [lia|]. split; [intros; lia|].
    intros HI _ Hall _. apply allowed_app in Hall as [Hall1 Hall].
    destruct (Hstep HI Hflag Hall1) as [HI1 Hflag1]. by apply Hcap.
Qed.

End ToTheCap.
End Loop.

(** ** What the loop guarantees *)

Section LoopGuarantees.
Context `{Lowercase} {colors : StatusColors}.
Import BrowserAgent Spec.

Lemma at_loop_entry_config task a : config (at_loop_entry task a) = config a.
Proof. unfold at_loop_entry. by destruct (showPlanVisualization (config a)). Qed.

Lemma at_loop_entry_flag task a : isTaskComplete (at_loop_entry task a) = false.
Proof. unfold at_loop_entry. by destruct (showPlanVisualization (config a)). Qed.

Lemma at_loop_entry_browser task a :
  browserManager (at_loop_entry task a) = browserManager a.
Proof. unfold at_loop_entry. by destruct (showPlanVisualization (config a)). Qed.

Lemma at_loop_entry_confirmed task a : confirmedActions (at_loop_entry task a) = ∅.
Proof. unfold at_loop_entry. by destruct (showPlanVisualization (config a)). Qed.

Lemma at_loop_entry_conversation task a :
  conversationHistory (at_loop_entry task a) =
  conversationHistory a ++ [UserMessage task].
Proof. unfold at_loop_entry. by destruct (showPlanVisualization (config a)). Qed.

Lemma dispatches_app_false n ev ev' :
  dispatches n (ev ++ ev') = false ->
  dispatches n ev = false ∧ dispatches n ev' = false.
Proof. rewrite dispatches_app. apply orb_false_iff. Qed.

(** A task that starts with no active page.  Every iteration returns
    normally, with the completion flag and the tab registry as they were;
    when [shouldConfirm] is the one to meet the error, the iteration adds the
    message of the model and the note 'An error occurred: No active page.
    Please try a different approach.' to the conversation; the loop runs up
    to [maxIterations]. *)
Lemma loop_without_page (env : nat -> IterationEnv)
    (task : string) (a : Agent) :
  no_page a ->
  (∀ iteration e,
     result_of (runIteration iteration e a) = Ok tt ∧
     no_page (agent_of (runIteration iteration e a)) ∧
     isTaskComplete (agent_of (runIteration iteration e a)) = isTaskComplete a) ∧
  (∀ iteration e m first rest args,
     requireConfirmation (config a) = true ->
     chat e = Reply m ->
     tool_calls m = Some (first :: rest) ->
     arguments first = Ok args ->
     runIteration iteration e a =
       (Ok tt,
        set_conversationHistory
          (conversationHistory a ++
           [AssistantMessage m;
            UserMessage ("An error occurred: No active page" +:+
                         ". Please try a different approach.")]) a,
        [])) ∧
  (∀ fuel i,
     isTaskComplete a = false ->
     i <= maxIterations (config a) ->
     maxIterations (config a) - i <= fuel ->
     ∃ a' ev,
       while_loop fuel env i a = (Ok (Some (maxIterations (config a))), a', ev) ∧
       isTaskComplete a' = false ∧ no_page a') ∧
  result_of (executeTask env task a) =
    Ok (Some {| iterations := maxIterations (config a);
                outcome := MaxIterationsReached |}) ∧
  no_page (agent_of (executeTask env task a)).
Proof.
  intros Hp.
  assert (∀ iteration e a0,
            no_page a0 -> isTaskComplete a0 = false -> True ->
            no_page (agent_of (runIteration iteration e a0)) ∧
            isTaskComplete (agent_of (runIteration iteration e a0)) = false)
    as Hstep.
  { intros iteration e a0 Hp0 Hflag _.
    destruct (runIteration_stays_without_page iteration e a0) as [_ Hsame].
    destruct (Hsame Hp0) as [Hb Hf]. unfold no_page in *. rewrite Hb, Hf. done. }
  split; [|split; [|split]].
  - intros iteration e. split; [apply runIteration_ok|].
    destruct (runIteration_stays_without_page iteration e a) as [_ Hsame].
    destruct (Hsame Hp) as [Hb Hf]. unfold no_page in *. by rewrite Hb.
  - intros iteration e m first rest args Hrc Hchat Hcalls Hargs.
    unfold runIteration, try_catch, iteration_body.
    unfold mbind at 1. rewrite Hchat. cbn [ret].
    unfold mbind at 1. cbn [push_message modify].
    rewrite Hcalls. cbn [for_tool_calls].
    unfold mbind at 1. unfold processToolCall. unfold mbind at 1.
    unfold lift at 1. rewrite Hargs.
    unfold mbind at 1. unfold confirmation_gate. unfold mbind at 1. cbn [gets].
    unfold mbind at 1. cbn [config set_conversationHistory]. rewrite Hrc.
    unfold shouldConfirm. unfold mbind at 1. unfold getCurrentPage at 1.
    cbn [browserManager set_conversationHistory].
    unfold no_page in Hp. rewrite Hp.
    unfold set_conversationHistory, corrective_note. cbn.
    by rewrite <- app_assoc.
  - intros fuel i Hflag Hi Hfuel.
    destruct (while_loop_spec no_page (fun _ => True)) with
      (fuel := fuel) (env := env) (i := i) (a := a)
      as (n & a' & ev & Hrun & _ & _ & _ & Hcap); [done|exact Hstep|done|].
    destruct Hcap as (-> & Hflag' & Hp'); try done.
    by exists a', ev.
  - rewrite executeTask_unfold.
    destruct (while_loop_spec no_page (fun _ => True)) with
      (fuel := maxIterations (config a)) (env := env) (i := 0)
      (a := at_loop_entry task a)
      as (n & a' & ev & Hrun & Hcfg & _ & Hmax & Hcap);
      [done|exact Hstep|rewrite at_loop_entry_config; lia|].
    rewrite at_loop_entry_config in *. rewrite Hrun.
    unfold result_of, events_of, agent_of. cbn.
    destruct Hcap as (-> & Hflag & Hp');
      [unfold no_page; by rewrite at_loop_entry_browser
      |apply at_loop_entry_flag|done|lia|].
    by rewrite Hflag.
Qed.

Lemma gate_trace_split (ev1 ev2 : list Event) :
  ∀ S S', gate_trace S (ev1 ++ ev2) S' ->
          ∃ S1, gate_trace S ev1 S1 ∧ gate_trace S1 ev2 S'.
Proof.
  induction ev1 as [|e ev1 IH]; intros S S' Htrace; cbn in Htrace.
  - exists S. split; [constructor|done].
  - inversion Htrace; subst;
      match goal with
      | Hrest : gate_trace _ (ev1 ++ ev2) _ |- _ =>
          destruct (IH _ _ Hrest) as (S1 & H1 & H2)
      end;
      exists S1; (split; [by constructor|done]).
Qed.

Lemma is_prompt_for_true n t c n' t' c' answer :
  is_prompt_for n t c (Prompted n' t' c' answer) = true ->
  n' = n ∧ t' = t ∧ c' = c.
Proof.
  cbn. rewrite !andb_true_iff, !String.eqb_eq, bool_decide_eq_true. tauto.
Qed.

(** A key in the confirmed set is not asked about. *)
Lemma gate_trace_recorded n t c (S S' : gset string) (ev : list Event) :
  gate_trace S ev S' -> actionKey n t c ∈ S -> prompts_for n t c ev = 0.
Proof.
  induction 1 as [S|S S' n' ev _ IH|S S' q ev _ IH
                 |S S' n' t' c' ev Hk _ IH|S S' n' t' c' ev Hk _ IH];
    intros Hin; cbn [prompts_for]; [done|by rewrite IH|by rewrite IH|..].
  - destruct (is_prompt_for n t c (Prompted n' t' c' false)) eqn:Hp.
    + apply is_prompt_for_true in Hp as (-> & -> & ->). done.
    + by rewrite IH.
  - destruct (is_prompt_for n t c (Prompted n' t' c' true)) eqn:Hp.
    + apply is_prompt_for_true in Hp as (-> & -> & ->). done.
    + rewrite IH; [done|set_solver].
Qed.

Lemma executeTask_gate_trace (env : nat -> IterationEnv) (task : string)
    (a : Agent) :
  gate_trace ∅ (events_of (executeTask env task a))
             (confirmedActions (agent_of (executeTask env task a))).
Proof.
  rewrite executeTask_unfold.
  pose proof (while_loop_gate_keeps (maxIterations (config a)) env 0
                (at_loop_entry task a)) as Htrace.
  unfold gate_keeps, events_of, agent_of in *.
  rewrite at_loop_entry_confirmed in Htrace.
  by destruct (while_loop _ _ _ _) as [[[count|m] a'] ev].
Qed.

(** C2, as the code has it.  Within one task, once the user has approved
    the prompt for a triple (operation, element text, category), the user is
    not asked about that triple again: [confirmAction] asks at most once with
    approval, and a refusal leaves the triple to be asked about again. *)
Theorem approved_triple_is_not_asked_again (env : nat -> IterationEnv)
    (task : string) (a : Agent) (n t : string) (c : option SecurityCategory)
    (before after : list Event) :
  events_of (executeTask env task a) = before ++ Prompted n t c true :: after ->
  prompts_for n t c after = 0.
Proof.
  intros Hev. pose proof (executeTask_gate_trace env task a) as Htrace.
  rewrite Hev in Htrace.
  apply gate_trace_split in Htrace as (S1 & _ & Htrace).
  inversion Htrace; subst.
  eapply gate_trace_recorded; [eassumption|set_solver].
Qed.


Lemma prefix_append_only (old new : list Message) :
  old `prefix_of` new -> append_only old new.
Proof.
  intros Hp. split; [by apply prefix_length|].
  intros i m Hi. by eapply prefix_lookup_Some.
Qed.

Lemma executeTask_conversation_grows (env : nat -> IterationEnv) (task : string) :
  respects conversation_grows (executeTask env task).
Proof.
  intros a. rewrite executeTask_unfold.
  pose proof (while_loop_conversation_grows (maxIterations (config a)) env 0
                (at_loop_entry task a)) as Hgrow.
  unfold conversation_grows, events_of, agent_of in *.
  rewrite at_loop_entry_conversation in Hgrow.
  destruct (while_loop _ _ _ _) as [[[count|m] a'] ev]; cbn in *;
    (etrans; [|exact Hgrow]); by apply prefix_app_r.
Qed.

Lemma session_conversation_grows (tasks : list (string * (nat -> IterationEnv))) :
  respects conversation_grows (session tasks).
Proof.
  induction tasks as [|[task env] rest IH]; cbn [session].
  - apply respects_ret; apply conversation_grows_refl.
  - apply respects_bind;
      [apply conversation_grows_trans|apply executeTask_conversation_grows|].
    intros report. apply respects_bind; [apply conversation_grows_trans|apply IH|].
    intros reports. apply respects_ret; apply conversation_grows_refl.
Qed.

(** C8. The conversation is only added to at its end: after [initialize],
    after any iteration, after any task and after any run of tasks of a
    session it is no shorter, and each entry it had is at its place with its
    content. *)
Theorem conversation_is_append_only :
  (∀ prompt io a,
     append_only (conversationHistory a)
                 (conversationHistory (agent_of (initialize prompt io a)))) ∧
  (∀ iteration e a,
     append_only (conversationHistory a)
                 (conversationHistory (agent_of (runIteration iteration e a)))) ∧
  (∀ env task a,
     append_only (conversationHistory a)
                 (conversationHistory (agent_of (executeTask env task a)))) ∧
  (∀ tasks a,
     append_only (conversationHistory a)
                 (conversationHistory (agent_of (session tasks a)))).
Proof.
  split; [|split; [|split]]; intros; apply prefix_append_only.
  - unfold initialize, mbind, on_browser, push_message, modify, agent_of.
    destruct (BrowserManager.launch io (browserManager a)) as [[[]|m] b]; cbn;
      [by apply prefix_app_r|done].
  - apply runIteration_conversation_grows.
  - apply executeTask_conversation_grows.
  - apply session_conversation_grows.
Qed.

(** C9. When [shouldConfirm] asks and the user refuses, the tool call is not
    dispatched and the confirmed set is as it was; the tool entry
    'Action cancelled by user' is added to the conversation, and the plan,
    the element cache, the completion flag, the browser registry, the
    visualizer and the configuration are as they were. *)
Theorem refusal_changes_only_the_conversation (iteration : nat) (e : ToolEnv)
    (tc : ToolCall) (args : ToolArgs) (a : Agent) :
  arguments tc = Ok args ->
  requireConfirmation (config a) = true ->
  result_of (shouldConfirm e (name tc) args a) = Ok true ->
  user_answer e = false ->
  result_of (processToolCall iteration e tc a) = Ok tt ∧
  dispatches (name tc) (events_of (processToolCall iteration e tc a)) = false ∧
  prompts_for (name tc) (text_or_empty (find_current args a))
    (category (SecurityLayer.assessAction
                 (action_context (name tc) (find_current args a) (page_url e))))
    (events_of (processToolCall iteration e tc a)) = 1 ∧
  agent_of (processToolCall iteration e tc a) =
    set_conversationHistory
      (conversationHistory a ++
       [ToolMessage (call_id tc) "Action cancelled by user"]) a ∧
  confirmedActions (agent_of (processToolCall iteration e tc a)) =
    confirmedActions a ∧
  currentPlan (agent_of (processToolCall iteration e tc a)) = currentPlan a ∧
  currentElements (agent_of (processToolCall iteration e tc a)) =
    currentElements a ∧
  isTaskComplete (agent_of (processToolCall iteration e tc a)) =
    isTaskComplete a.
Proof.
  intros Hargs Hrc Hask Hno.
  assert (∃ page, BrowserManager.getCurrentPage (browserManager a) = Ok page)
    as [page Hpage].
  { revert Hask. unfold shouldConfirm, mbind, getCurrentPage, result_of.
    destruct (BrowserManager.getCurrentPage (browserManager a)); [by eexists|done]. }
  assert (shouldConfirm e (name tc) args a = (Ok true, a, [])) as Hshould.
  { revert Hask. unfold shouldConfirm, mbind, getCurrentPage, gets, ret, result_of.
    rewrite Hpage. cbn. repeat case_match; cbn; congruence. }
  set (t := text_or_empty (find_current args a)).
  set (c := category _).
  assert (processToolCall iteration e tc a =
          (Ok tt,
           set_conversationHistory
             (conversationHistory a ++
              [ToolMessage (call_id tc) "Action cancelled by user"]) a,
           [Prompted (name tc) t c false])) as Hrun.
  { unfold processToolCall, confirmation_gate, mbind at 1 2 3 4, lift, gets.
    rewrite Hargs. cbn. rewrite Hrc, Hshould. cbn.
    unfold confirmAction, mbind, getCurrentPage, gets, emit, ret.
    rewrite Hpage, Hno. cbn. done. }
  rewrite Hrun. unfold result_of, events_of, agent_of. cbn.
  repeat split; try done.
  rewrite !String.eqb_refl, bool_decide_eq_true_2; done.
Qed.

End LoopGuarantees.

(** * Properties of the tab registry *)

Section Registry.
Import BrowserManager Spec.

Lemma nat_to_string_inj (i j : nat) : nat_to_string i = nat_to_string j -> i = j.
Proof.
  unfold nat_to_string. intros Heq.
  assert (Nat.to_uint i = Nat.to_uint j) as Hu.
  { apply (f_equal NilEmpty.uint_of_string) in Heq.
    rewrite !NilEmpty.usu in Heq. congruence. }
  apply (f_equal Nat.of_uint) in Hu. by rewrite !Unsigned.of_to in Hu.
Qed.

Lemma tab_name_inj (i j : nat) : tab_name i = tab_name j -> i = j.
Proof. unfold tab_name. cbn. intros [= Heq]. by apply nat_to_string_inj. Qed.

Lemma tab_name_eqb (i j : nat) :
  String.eqb (tab_name i) (tab_name j) = bool_decide (i = j).
Proof.
  destruct (String.eqb_spec (tab_name i) (tab_name j)) as [Heq|Hne].
  - apply tab_name_inj in Heq. by rewrite bool_decide_eq_true_2.
  - rewrite bool_decide_eq_false_2; [done|]. by intros ->.
Qed.

Lemma map_get_app (m1 m2 : PageMap) (k : string) :
  map_get (m1 ++ m2) k =
  match map_get m1 k with
  | Some page => Some page
  | None => map_get m2 k
  end.
Proof.
  induction m1 as [|[k' v] m1 IH]; cbn; [done|]. by destruct (String.eqb k' k).
Qed.

Lemma map_set_fresh (m : PageMap) (k : string) (v : Page) :
  map_get m k = None -> map_set m k v = m ++ [(k, v)].
Proof.
  induction m as [|[k' v'] m IH]; cbn; [done|].
  destruct (String.eqb k' k); [done|]. intros Hm. by rewrite IH.
Qed.

Lemma map_get_set_same (m : PageMap) (k : string) (v : Page) :
  map_get (map_set m k v) k = Some v.
Proof.
  induction m as [|[k' v'] m IH]; cbn; [by rewrite String.eqb_refl|].
  destruct (String.eqb k' k) eqn:Hk; cbn; [by rewrite String.eqb_refl|].
  by rewrite Hk.
Qed.

Lemma map_get_set_other (m : PageMap) (k k' : string) (v : Page) :
  k ≠ k' -> map_get (map_set m k v) k' = map_get m k'.
Proof.
  intros Hne. induction m as [|[k0 v0] m IH]; cbn.
  - destruct (String.eqb_spec k k'); [done|done].
  - destruct (String.eqb_spec k0 k) as [->|Hk]; cbn.
    + destruct (String.eqb_spec k k'); done.
    + destruct (String.eqb_spec k0 k'); done.
Qed.

Lemma map_get_delete_other (m : PageMap) (k k' : string) :
  k ≠ k' -> map_get (map_delete m k) k' = map_get m k'.
Proof.
  intros Hne. induction m as [|[k0 v0] m IH]; cbn; [done|].
  destruct (String.eqb_spec k0 k) as [->|Hk]; cbn.
  - destruct (String.eqb_spec k k'); done.
  - destruct (String.eqb_spec k0 k'); done.
Qed.

Lemma length_map_delete (m : PageMap) (k : string) (v : Page) :
  map_get m k = Some v -> S (length (map_delete m k)) = length m.
Proof.
  induction m as [|[k0 v0] m IH]; cbn; [done|].
  destruct (String.eqb k0 k); [done|]. intros Hm. cbn. by rewrite IH.
Qed.

Lemma map_get_elem (m : PageMap) (k : string) (v : Page) :
  map_get m k = Some v -> (k, v) ∈ m.
Proof.
  induction m as [|[k0 v0] m IH]; cbn; [done|].
  destruct (String.eqb_spec k0 k) as [->|Hk].
  - intros [= ->]. constructor.
  - intros Hm. constructor. by apply IH.
Qed.

Lemma own_names_get (m : PageMap) (k : string) (v : Page) :
  own_names m -> map_get m k = Some v -> k = tab_name (handle v).
Proof.
  intros Hown Hget. apply map_get_elem in Hget.
  unfold own_names in Hown. rewrite Forall_forall in Hown.
  by apply (Hown (k, v)).
Qed.

Lemma own_names_delete (m : PageMap) (k : string) :
  own_names m -> own_names (map_delete m k).
Proof.
  unfold own_names. induction m as [|[k0 v0] m IH]; cbn; [done|].
  intros [Hhead Htail]%Forall_cons. destruct (String.eqb k0 k); [done|].
  constructor; [done|]. by apply IH.
Qed.

Lemma tabs_S (n : nat) : tabs (S n) = tabs n ++ [(tab_name n, {| handle := n |})].
Proof. unfold tabs. by rewrite seq_S, map_app. Qed.

Lemma length_tabs (n : nat) : length (tabs n) = n.
Proof. unfold tabs. by rewrite length_map, length_seq. Qed.

Lemma own_names_tabs (n : nat) : own_names (tabs n).
Proof.
  unfold own_names, tabs. apply Forall_forall. intros [k v] Hin.
  apply list_elem_of_fmap in Hin as (i & [= -> ->] & _). done.
Qed.

Lemma map_get_tabs (n i : nat) :
  map_get (tabs n) (tab_name i) =
  if bool_decide (i < n) then Some {| handle := i |} else None.
Proof.
  induction n as [|n IH]; [done|].
  rewrite tabs_S, map_get_app, IH. cbn. rewrite tab_name_eqb.
  repeat case_bool_decide; try done; try lia. by subst.
Qed.

(** [launch], then [n] tabs created: the registry is [opened (S n)]. *)
Lemma open_tabs_opened (n : nat) :
  open_tabs n (launch all_ok initial).2 = opened (S n).
Proof.
  induction n as [|n IH]; [done|].
  cbn [open_tabs]. rewrite IH. unfold createNewTab, opened.
  cbn [context pages created currentPageId all_ok newPage_result truthy snd].
  rewrite length_tabs. fold (tab_name (S n)).
  rewrite map_set_fresh.
  - by rewrite <- tabs_S.
  - rewrite map_get_tabs. rewrite bool_decide_eq_false_2; [done|lia].
Qed.

(** C10. [createNewTab] registers the new tab under [page-] followed by the
    number of tabs in the registry, and returns that identifier.  So, when [launch] and the creation of tabs have
    made the tabs [page-0] .. [page-(n-1)] and a tab [page-k] other than the
    last made is closed, the next [createNewTab] gives the identifier of the
    last made tab, which is open: its entry is written over, and no
    identifier gives that page any more to [switchTab] or [closeTab]. *)
Theorem createNewTab_reuses_an_open_identifier :
  (∀ io url s ctx,
     context s = Some ctx -> newPage_result io = Ok tt ->
     pages (createNewTab io url s).2 =
       map_set (pages s) ("page-" +:+ nat_to_string (length (pages s)))
               {| handle := created ctx |} ∧
     ((truthy url = true -> goto_result io = Ok tt) ->
      (createNewTab io url s).1 =
        Ok ("page-" +:+ nat_to_string (length (pages s))))) ∧
  (∀ n, open_tabs n (launch all_ok initial).2 = opened (S n)) ∧
  (∀ n k url,
     k + 1 < n ->
     ∃ s1 s2,
       closeTab all_ok (tab_name k) (opened n) = (Ok tt, s1) ∧
       map_get (pages s1) (tab_name (n - 1)) = Some {| handle := n - 1 |} ∧
       createNewTab all_ok url s1 = (Ok (tab_name (n - 1)), s2) ∧
       map_get (pages s2) (tab_name (n - 1)) = Some {| handle := n |} ∧
       (∀ id, map_get (pages s2) id ≠ Some {| handle := n - 1 |})).
Proof.
  split; [|split; [apply open_tabs_opened|]].
  - intros io url s ctx Hctx Hnew. unfold createNewTab.
    rewrite Hctx, Hnew. destruct (truthy url); [|done].
    destruct (goto_result io) as [[]|m]; cbn; split; try done.
    intros Hgoto. by specialize (Hgoto eq_refl).
  - intros n k url Hk.
    assert (map_get (tabs n) (tab_name k) = Some {| handle := k |}) as Hgetk.
    { rewrite map_get_tabs, bool_decide_eq_true_2; [done|lia]. }
    assert (tab_name k ≠ tab_name (n - 1)) as Hne.
    { intros Heq%tab_name_inj. lia. }
    assert (length (map_delete (tabs n) (tab_name k)) = n - 1) as Hlen.
    { pose proof (length_map_delete _ _ _ Hgetk) as Hl.
      rewrite length_tabs in Hl. lia. }
    eexists _, _. split; [|split; [|split; [|split]]].
    + unfold closeTab, opened. cbn [pages context currentPageId all_ok close_result].
      rewrite Hgetk. reflexivity.
    + cbn [pages]. rewrite map_get_delete_other by done.
      rewrite map_get_tabs, bool_decide_eq_true_2; [done|lia].
    + unfold createNewTab. cbn [pages context currentPageId all_ok
        newPage_result goto_result created].
      rewrite Hlen. fold (tab_name (n - 1)).
      destruct (truthy url); reflexivity.
    + cbn [pages]. apply map_get_set_same.
    + cbn [pages]. intros id Hid.
      destruct (decide (tab_name (n - 1) = id)) as [<-|Hother].
      * rewrite map_get_set_same in Hid. injection Hid. lia.
      * rewrite map_get_set_other in Hid by done.
        apply own_names_get in Hid; [|apply own_names_delete, own_names_tabs].
        cbn in Hid. congruence.
Qed.

End Registry.

(** * The statements at concrete inputs *)

Section Instances.
Import BrowserAgent Spec Examples.
#[local] Existing Instance asciiLowercase.
#[local] Existing Instance plainColors.



Example payment_field_candidates :
  map (fun c => (riskLevel c, category c)) (fired payment_field) =
    [ (critical, Some financial); (critical, Some financial);
      (medium, Some privacy); (critical, Some financial);
      (high, Some account) ] ∧
  reason (SecurityLayer.assessAction payment_field) =
    "Detected financial keyword: " +:+ dquote +:+ "pay" +:+ dquote +:+ " (en)".
Proof. split; reflexivity. Qed.

Lemma financial_text_assessed_critical_witness :
  isDestructive (SecurityLayer.assessAction purchase_button) = true ∧
  category (SecurityLayer.assessAction purchase_button) = Some financial ∧
  riskLevel (SecurityLayer.assessAction purchase_button) = critical.
Proof.
  apply (financial_text_assessed_critical purchase_button
           "Complete Purchase" "purchase").
  - reflexivity.
  - unfold financial_words. cbn. repeat constructor.
  - reflexivity.
Defined.

(** The click on [Delete] is asked for in three iterations and refused each
    time: three prompts for one triple within one task. *)
Lemma refused_triple_is_asked_again :
  events_of (executeTask always_refused "delete the draft" (started 3)) =
    [ Dispatched "get_page_content";
      Prompted "click" "Delete" (Some data_loss) false;
      Prompted "click" "Delete" (Some data_loss) false;
      Prompted "click" "Delete" (Some data_loss) false ] ∧
  prompts_for "click" "Delete" (Some data_loss)
    (events_of (executeTask always_refused "delete the draft" (started 3))) = 3 ∧
  ¬ (prompts_for "click" "Delete" (Some data_loss)
       (events_of (executeTask always_refused "delete the draft" (started 3)))
     <= 1).
Proof.
  assert (events_of (executeTask always_refused "delete the draft" (started 3)) =
          [ Dispatched "get_page_content";
            Prompted "click" "Delete" (Some data_loss) false;
            Prompted "click" "Delete" (Some data_loss) false;
            Prompted "click" "Delete" (Some data_loss) false ]) as ->
    by (vm_compute; reflexivity).
  split; [reflexivity|]. split; [reflexivity|].
  change (prompts_for "click" "Delete" (Some data_loss) _) with 3. lia.
Qed.

(** The same clicks approved at the first prompt: the two later clicks are
    dispatched without a prompt. *)
Lemma approved_triple_is_not_asked_again_witness :
  prompts_for "click" "Delete" (Some data_loss)
    [Dispatched "click"; Dispatched "click"; Dispatched "click"] = 0.
Proof.
  apply (approved_triple_is_not_asked_again always_approved
           "delete the draft" (started 3) "click" "Delete" (Some data_loss)
           [Dispatched "get_page_content"]).
  vm_compute. reflexivity.
Defined.

(** The model closes the only tab in the first iteration.  In the second
    iteration [getCurrentPage] raises 'No active page'; the loop goes on to
    the third, and [executeTask] returns its report. *)
Lemma loop_goes_on_without_page :
  result_of (executeTask closes_the_tab "close the tab" (started 3)) =
    Ok (Some {| iterations := 3; outcome := MaxIterationsReached |}) ∧
  BrowserManager.getCurrentPage
    (browserManager
       (agent_of (runIteration 1 (closes_the_tab 1)
                    (at_loop_entry "close the tab" (started 3))))) =
    Throw "No active page" ∧
  conversationHistory
    (agent_of (executeTask closes_the_tab "close the tab" (started 3))) =
    [ SystemMessage "You are an intelligent web automation agent.";
      UserMessage "close the tab";
      AssistantMessage {| content := None; tool_calls := Some [close_first_tab] |};
      ToolMessage "call-2" "Closed tab page-0";
      AssistantMessage {| content := None; tool_calls := Some [click_delete] |};
      UserMessage "An error occurred: No active page. Please try a different approach.";
      AssistantMessage {| content := None; tool_calls := Some [click_delete] |};
      UserMessage "An error occurred: No active page. Please try a different approach." ].
Proof. vm_compute. repeat split. Qed.

(** A plan of one step takes the current step index 5. *)
Lemma step_index_is_not_clamped :
  ∃ plan,
    currentPlan (agent_of (executeTool (drafts_page true) "update_plan"
                             plan_request (started 3))) = Some plan ∧
    length (steps plan) = 1 ∧
    currentStepIndex plan = 5%Z ∧
    ¬ (0 <= currentStepIndex plan < Z.of_nat (length (steps plan)))%Z.
Proof. eexists. vm_compute. repeat split. intros [_ Hlt]. discriminate Hlt. Qed.


Lemma refusal_changes_only_the_conversation_witness :
  result_of (processToolCall 2 (drafts_page false) click_delete browsing) = Ok tt ∧
  events_of (processToolCall 2 (drafts_page false) click_delete browsing) =
    [Prompted "click" "Delete" (Some data_loss) false] ∧
  conversationHistory
    (agent_of (processToolCall 2 (drafts_page false) click_delete browsing)) =
    conversationHistory browsing ++
    [ToolMessage "call-1" "Action cancelled by user"] ∧
  confirmedActions
    (agent_of (processToolCall 2 (drafts_page false) click_delete browsing)) =
    confirmedActions browsing.
Proof.
  destruct (refusal_changes_only_the_conversation 2 (drafts_page false)
              click_delete (on_element "el-1") browsing)
    as (Hres & _ & _ & Hagent & Hconfirmed & _).
  - reflexivity.
  - reflexivity.
  - vm_compute. reflexivity.
  - reflexivity.
  - split; [exact Hres|]. split; [vm_compute; reflexivity|].
    split; [|exact Hconfirmed]. rewrite Hagent. reflexivity.
Defined.

(** Three tabs, the middle one closed: the new tab takes the name of the
    third, which is open. *)
Lemma createNewTab_reuses_an_open_identifier_witness :
  ∃ s1 s2,
    BrowserManager.closeTab BrowserManager.all_ok "page-1" (opened 3) = (Ok tt, s1) ∧
    BrowserManager.map_get (BrowserManager.pages s1) "page-2" =
      Some {| BrowserManager.handle := 2 |} ∧
    BrowserManager.createNewTab BrowserManager.all_ok None s1 = (Ok "page-2", s2) ∧
    BrowserManager.map_get (BrowserManager.pages s2) "page-2" =
      Some {| BrowserManager.handle := 3 |} ∧
    (∀ id, BrowserManager.map_get (BrowserManager.pages s2) id ≠
           Some {| BrowserManager.handle := 2 |}).
Proof.
  destruct createNewTab_reuses_an_open_identifier as (_ & _ & Hcollide).
  apply (Hcollide 3 1 None). lia.
Defined.

Example three_tabs_one_closed_one_made :
  let s3 := open_tabs 2 (BrowserManager.launch BrowserManager.all_ok
                           BrowserManager.initial).2 in
  let s4 := (BrowserManager.closeTab BrowserManager.all_ok "page-1" s3).2 in
  let made := BrowserManager.createNewTab BrowserManager.all_ok None s4 in
  BrowserManager.pages s3 =
    [ ("page-0", {| BrowserManager.handle := 0 |});
      ("page-1", {| BrowserManager.handle := 1 |});
      ("page-2", {| BrowserManager.handle := 2 |}) ] ∧
  made.1 = Ok "page-2" ∧
  BrowserManager.pages made.2 =
    [ ("page-0", {| BrowserManager.handle := 0 |});
      ("page-2", {| BrowserManager.handle := 3 |}) ].
Proof. vm_compute. repeat split. Qed.

End Instances.

(** * Further properties of the security layer *)

Section MoreSecurity.
Context `{Lowercase}.
Import SecurityConstants SecurityLayer Spec.

Lemma fired_elem (context : DestructiveActionContext) (c : SecurityAssessment) :
  Some c ∈ signals context -> c ∈ fired context.
Proof.
  intros Hin. unfold fired. apply list_elem_of_omap. by exists (Some c).
Qed.

(** What fires is destructive and bounds the assessment from below. *)
Lemma assessAction_at_least (context : DestructiveActionContext)
    (c : SecurityAssessment) :
  c ∈ fired context ->
  isDestructive (assessAction context) = true ∧
  (level c <= level (assessAction context))%Z.
Proof.
  intros Hin.
  destruct (assessAction_winner context) as
    (before & w & after & Hsplit & Hlt & Hle & Heq).
  { intros Hnil. rewrite Hnil in Hin. by apply elem_of_nil in Hin. }
  rewrite Heq. split; [done|]. unfold level at 2. cbn. fold (level w).
  rewrite Hsplit in Hin. apply elem_of_app in Hin as [Hin|Hin].
  - specialize (Hlt c Hin). lia.
  - apply elem_of_cons in Hin as [->|Hin]; [lia|]. by apply Hle.
Qed.

Lemma first_matching_is_Some (url : string) (l : list string) (p : string) :
  p ∈ l -> regex_test_i p url = true -> is_Some (first_matching url l).
Proof.
  induction l as [|p' l IH]; intros Hin Hp; [by apply elem_of_nil in Hin|].
  cbn. destruct (regex_test_i p' url) eqn:Hp'; [by eexists|].
  apply elem_of_cons in Hin as [->|Hin]; [congruence|]. by apply IH.
Qed.

Lemma prefix_of_needle (k k2 s : string) :
  String.prefix (k +:+ k2) s = true -> String.prefix k s = true.
Proof.
  revert s. induction k as [|c k IH]; intros s; [by destruct s|].
  destruct s as [|c' s]; [done|].
  change (String c k +:+ k2) with (String c (k +:+ k2)). cbn [String.prefix].
  destruct (Ascii.ascii_dec c c'); [apply IH|done].
Qed.

Lemma includes_prefix_of_needle (s k k2 : string) :
  includes s (k +:+ k2) = true -> includes s k = true.
Proof.
  induction s as [|c s IH]; cbn [includes].
  - rewrite !orb_false_r. apply prefix_of_needle.
  - intros [Hp|Hi]%orb_true_iff; apply orb_true_iff;
      [left; by eapply prefix_of_needle|right; by apply IH].
Qed.


(** X2. On a page whose url holds one of the sensitive patterns, in any case of
    letters, every action is assessed destructive, of risk medium at
    least. *)
Theorem sensitive_url_is_at_least_medium (context : DestructiveActionContext)
    (url pattern : string) :
  pageUrl context = Some url ->
  pattern ∈ SENSITIVE_URL_PATTERNS ->
  regex_test_i pattern url = true ->
  isDestructive (assessAction context) = true ∧
  (RISK_LEVEL_ORDER medium <= RISK_LEVEL_ORDER (riskLevel (assessAction context)))%Z.
Proof.
  intros Hurl Hin Hmatch.
  assert (url ≠ "") as Hne.
  { intros ->. unfold regex_test_i in Hmatch. cbn [asciiLower] in Hmatch.
    apply includes_nonempty in Hmatch; [done|].
    revert Hin. unfold SENSITIVE_URL_PATTERNS. intros Hin Hp.
    repeat (apply elem_of_cons in Hin as [->|Hin]; [discriminate Hp|]).
    by apply elem_of_nil in Hin. }
  destruct (first_matching_is_Some url _ _ Hin Hmatch) as [source Hfirst].
  apply (assessAction_at_least context
           {| isDestructive := true; riskLevel := medium;
              reason := "Operating in sensitive area: " +:+ source;
              category := Some privacy |}).
  apply fired_elem. unfold signals.
  assert (url_signal context =
          Some {| isDestructive := true; riskLevel := medium;
                  reason := "Operating in sensitive area: " +:+ source;
                  category := Some privacy |}) as ->.
  { unfold url_signal, checkUrlForSensitivePatterns. rewrite Hurl.
    destruct url; [done|]. cbn [truthy default from_option id]. by rewrite Hfirst. }
  do 2 apply list_elem_of_further. apply list_elem_of_here.
Qed.

(** X3. Typing into a field whose [type] is [password] is assessed destructive,
    of risk high at least, whatever the text, the url and the other
    attributes are. *)
Theorem typing_a_password_is_at_least_high (context : DestructiveActionContext)
    (attributes : list (string * string)) :
  action context = "type_text" ->
  elementAttributes context = Some attributes ->
  prop attributes "type" = Some "password" ->
  isDestructive (assessAction context) = true ∧
  (RISK_LEVEL_ORDER high <= RISK_LEVEL_ORDER (riskLevel (assessAction context)))%Z.
Proof.
  intros Haction Hattrs Htype.
  apply (assessAction_at_least context
           {| isDestructive := true; riskLevel := high;
              reason := "Typing into password field";
              category := Some account |}).
  apply fired_elem. unfold signals.
  assert (type_signal context =
          Some {| isDestructive := true; riskLevel := high;
                  reason := "Typing into password field";
                  category := Some account |}) as ->.
  { unfold type_signal, assessTypeAction. rewrite Haction, Hattrs.
    cbn [String.eqb Ascii.eqb Bool.eqb default from_option id].
    rewrite Htype. by rewrite bool_decide_eq_true_2. }
  do 4 apply list_elem_of_further. apply list_elem_of_here.
Qed.

(** X4. On a submit control or a button, attributes that hold [payment] are
    reported by the button patterns ([pay] is one of them, and is met
    first): the candidate is of risk high and of category content
    modification, not the critical financial one of the sensitive form
    fields. *)
Theorem button_with_payment_is_content_modification
    (attributes : list (string * string)) :
  prop attributes "type" = Some "submit" ∨ prop attributes "role" = Some "button" ->
  includes (toLowerCase (JSON_stringify attributes)) "payment" = true ->
  ∃ a, checkAttributesForDestructiveIndicators attributes = Some a ∧
       riskLevel a = high ∧ category a = Some content_modification.
Proof.
  intros Hbutton Hpayment.
  assert (includes (toLowerCase (JSON_stringify attributes)) "pay" = true) as Hpay.
  { apply (includes_prefix_of_needle _ "pay" "ment"). exact Hpayment. }
  destruct (first_included_is_Some (toLowerCase (JSON_stringify attributes))
              button_indicators "pay") as [indicator Hfirst]; [|done|].
  { unfold button_indicators. do 4 apply list_elem_of_further. apply list_elem_of_here. }
  unfold checkAttributesForDestructiveIndicators.
  assert (bool_decide (prop attributes "type" = Some "submit")
          || bool_decide (prop attributes "role" = Some "button") = true) as ->.
  { apply orb_true_iff. destruct Hbutton as [Hb|Hb];
      [left|right]; by apply bool_decide_eq_true_2. }
  rewrite Hfirst. by eexists.
Qed.

End MoreSecurity.

(** * Properties of the planning helper *)

Section Planning.
Context `{Lowercase}.
Import PlanningUtils.

(** X5. [shouldAskUser] never takes its advice back as the failures add up: once
    it says to ask the user, it says so for every greater count of
    failures, and from five failures on it says so for every context. *)
Theorem shouldAskUser_monotone (n m : Z) (context : string) :
  (n <= m)%Z ->
  (shouldAskUser n context = true -> shouldAskUser m context = true) ∧
  ((5 <= n)%Z -> shouldAskUser n context = true).
Proof.
  intros Hle. unfold shouldAskUser, MIN_FAILURES_TO_ASK_USER. split.
  - destruct (Z.leb_spec 5 n), (Z.leb_spec 5 m); try done; lia.
  - intros Hn. destruct (Z.leb_spec 5 n); [done|lia].
Qed.

End Planning.

(** * Further properties of the agent *)

Section MoreAgent.
Context `{Lowercase} {colors : StatusColors}.
Import BrowserAgent Spec Notions.
#[local] Arguments executeTool : simpl never.

Lemma assessAction_not_low (context : DestructiveActionContext) :
  riskLevel (SecurityLayer.assessAction context) ≠ low ->
  isDestructive (SecurityLayer.assessAction context) = true.
Proof.
  unfold SecurityLayer.assessAction.
  by destruct (sort SecurityLayer.by_risk_descending _).
Qed.

(** X6. [shouldConfirm] only reads: it leaves the agent as it is and asks
    nothing by itself.  It answers that the user is to be asked exactly when
    a page is active, the risk of the assessment is not low and the key of
    the call is not in the confirmed set. *)
Theorem shouldConfirm_asks_iff (e : ToolEnv) (n : string) (args : ToolArgs)
    (a : Agent) :
  agent_of (shouldConfirm e n args a) = a ∧
  events_of (shouldConfirm e n args a) = [] ∧
  (result_of (shouldConfirm e n args a) = Ok true <->
   has_page a ∧
   riskLevel (assessment_of e n args a) ≠ low ∧
   actionKey n (text_or_empty (find_current args a))
     (category (assessment_of e n args a)) ∉ confirmedActions a).
Proof.
  unfold shouldConfirm, assessment_of, has_page, mbind, getCurrentPage, gets,
    ret, agent_of, events_of, result_of.
  destruct (BrowserManager.getCurrentPage (browserManager a)) as [page|m]; cbn.
  2: { repeat split; try done. intros ([? ?] & _). done. }
  set (assessment := SecurityLayer.assessAction _).
  pose proof (assessAction_not_low
                (action_context n (find_current args a) (page_url e))) as Hd.
  fold assessment in Hd.
  destruct (bool_decide (riskLevel assessment = low)) eqn:Hlow; cbn.
  { apply bool_decide_eq_true in Hlow. repeat split; try done.
    intros (_ & Hne & _). done. }
  apply bool_decide_eq_false in Hlow.
  destruct (bool_decide (_ ∈ confirmedActions a)) eqn:Hkey; cbn.
  { apply bool_decide_eq_true in Hkey. repeat split; try done.
    intros (_ & _ & Hnot). done. }
  apply bool_decide_eq_false in Hkey.
  rewrite (Hd Hlow). repeat split; try done; try by eexists.
  intros _. cbn. destruct (riskLevel assessment); cbn; done.
Qed.

Lemma gate_without_requirement (e : ToolEnv) (n : string) (args : ToolArgs)
    (a : Agent) :
  requireConfirmation (config a) = false ->
  confirmation_gate e n args a = (Ok true, a, []).
Proof.
  intros Hrc. unfold confirmation_gate, mbind, gets. cbn. by rewrite Hrc.
Qed.

Lemma gate_throws (e : ToolEnv) (n : string) (args : ToolArgs) (a : Agent)
    (m : string) :
  result_of (confirmation_gate e n args a) = Throw m ->
  requireConfirmation (config a) = true ∧
  BrowserManager.getCurrentPage (browserManager a) = Throw m ∧
  confirmation_gate e n args a = (Throw m, a, []).
Proof.
  unfold confirmation_gate, shouldConfirm, confirmAction, mbind, gets, ret,
    getCurrentPage, emit, modify, result_of.
  destruct (requireConfirmation (config a)); [|done].
  destruct (BrowserManager.getCurrentPage (browserManager a)) as [page|m'] eqn:Hp;
    cbn; [|by intros [= ->]].
  destruct (bool_decide (riskLevel _ = low)); [done|].
  destruct (bool_decide (_ ∈ confirmedActions a)); [done|].
  destruct (isDestructive _ && _); [|done].
  cbn. rewrite Hp. cbn. by destruct (user_answer e).
Qed.

Lemma executeTool_history (e : ToolEnv) (n : string) (args : ToolArgs) (a : Agent) :
  actionHistory (visualizer (agent_of (executeTool e n args a))) =
  actionHistory (visualizer a).
Proof.
  unfold agent_of.
  destruct (executeTool e n args a) as [[r a'] ev] eqn:Hr. cbn.
  revert Hr. unfold executeTool. unfold mbind at 1. unfold getCurrentPage.
  destruct (BrowserManager.getCurrentPage (browserManager a)) as [page|m];
    [|by intros [= <- <- <-]].
  repeat match goal with
         | |- context [if String.eqb ?x ?y then _ else _] =>
             destruct (String.eqb_spec x y)
         end;
    unfold visualizer_setPlan, mbind, lift, modify, ret, gets, throw, on_browser,
      emit;
    repeat case_match; intros; simplify_eq; cbn; done.
Qed.

Lemma processToolCall_passed (iteration : nat) (e : ToolEnv) (tc : ToolCall)
    (args : ToolArgs) (a a1 : Agent) (ev1 : list Event) :
  arguments tc = Ok args ->
  confirmation_gate e (name tc) args a = (Ok true, a1, ev1) ->
  processToolCall iteration e tc a =
    (Ok tt, after_dispatch iteration e tc args a1,
     ev1 ++ Dispatched (name tc) :: questions (name tc) args a1).
Proof.
  intros Hargs Hgate. unfold processToolCall.
  unfold mbind at 1. unfold lift. rewrite Hargs.
  unfold mbind at 1. rewrite Hgate. cbn [negb].
  unfold mbind at 1. rewrite dispatch_unfold.
  unfold after_dispatch, outcome_of, mbind, push_message, modify, gets,
    visualizer_addActionToHistory, ret.
  cbn. destruct (_ && _); cbn; by rewrite ?app_nil_r.
Qed.

Lemma after_dispatch_conversation (iteration : nat) (e : ToolEnv) (tc : ToolCall)
    (args : ToolArgs) (a : Agent) :
  conversationHistory (after_dispatch iteration e tc args a) =
  conversationHistory a ++
  [ToolMessage (call_id tc) (outcome_of e (name tc) args a).1].
Proof.
  pose proof (executeTool_frame e (name tc) args a) as (_ & Hc & _).
  unfold after_dispatch. cbn. destruct (_ && _); cbn; by rewrite Hc.
Qed.

Lemma after_dispatch_config (iteration : nat) (e : ToolEnv) (tc : ToolCall)
    (args : ToolArgs) (a : Agent) :
  config (after_dispatch iteration e tc args a) = config a.
Proof.
  pose proof (executeTool_frame e (name tc) args a) as (_ & _ & _ & Hc & _).
  unfold after_dispatch. cbn. by destruct (_ && _).
Qed.

Lemma after_dispatch_logged (iteration : nat) (e : ToolEnv) (tc : ToolCall)
    (args : ToolArgs) (a : Agent) :
  logged (after_dispatch iteration e tc args a) =
  logged a + (if logs_actions a then 1 else 0).
Proof.
  pose proof (executeTool_frame e (name tc) args a) as (_ & _ & _ & Hc & _).
  pose proof (executeTool_history e (name tc) args a) as Hh.
  unfold after_dispatch, logged, logs_actions. cbn. rewrite Hc.
  destruct (_ && _); cbn; rewrite ?length_app, Hh; cbn; lia.
Qed.


Lemma plain_call_passes (e : ToolEnv) (n : string) (args : ToolArgs)
    (a : Agent) :
  has_page a ->
  find_current args a = None ->
  SecurityLayer.checkUrlForSensitivePatterns (page_url e) = None ->
  n ≠ "type_text" ->
  confirmation_gate e n args a = (Ok true, a, []).
Proof.
  intros [page Hpage] Hnone Hurl Hn.
  assert (SecurityLayer.assessAction (action_context n None (page_url e)) =
          {| isDestructive := false; riskLevel := low;
             reason := "No destructive patterns detected"; category := None |})
    as Hlow.
  { unfold SecurityLayer.assessAction, SecurityLayer.collected,
      SecurityLayer.text_signal, SecurityLayer.attribute_signal,
      SecurityLayer.url_signal, SecurityLayer.semantic_signal,
      SecurityLayer.type_signal, action_context. cbn.
    destruct (String.eqb_spec n "type_text"); [done|].
    destruct (page_url e); cbn; [done|]. cbn in Hurl. by rewrite Hurl. }
  unfold confirmation_gate, shouldConfirm, mbind, gets, ret, getCurrentPage.
  cbn. destruct (requireConfirmation (config a)); [|done].
  rewrite Hpage, Hnone. cbn. by rewrite Hlow.
Qed.

(** X7. A tool call whose arguments parse to an object, that names no
    element of the cache, on a page whose url holds no sensitive pattern,
    with a tool other than [type_text], goes to the dispatcher without a
    confirmation being asked, whatever the configuration: the events are
    the dispatch and, when the tool is [ask_user], the question that tool
    itself puts to the user. *)
Theorem plain_call_is_not_asked (iteration : nat) (e : ToolEnv) (tc : ToolCall)
    (args : ToolArgs) (a : Agent) :
  arguments tc = Ok args ->
  has_page a ->
  find_current args a = None ->
  SecurityLayer.checkUrlForSensitivePatterns (page_url e) = None ->
  name tc ≠ "type_text" ->
  result_of (processToolCall iteration e tc a) = Ok tt ∧
  events_of (processToolCall iteration e tc a) =
    Dispatched (name tc) ::
    (if String.eqb (name tc) "ask_user" then [Asked (question args)] else []) ∧
  confirmedActions (agent_of (processToolCall iteration e tc a)) =
    confirmedActions a.
Proof.
  intros Hargs Hpage Hnone Hurl Hn.
  pose proof (plain_call_passes e (name tc) args a Hpage Hnone Hurl Hn) as Hgate.
  rewrite (processToolCall_passed iteration e tc args a a [] Hargs Hgate).
  unfold result_of, events_of, agent_of. cbn [fst snd app].
  split; [done|]. split.
  - destruct Hpage as [page Hpage]. unfold questions. by rewrite Hpage.
  - pose proof (executeTool_frame e (name tc) args a) as (_ & _ & Hc & _).
    unfold after_dispatch. destruct (_ && _); cbn; exact Hc.
Qed.

Lemma gate_without_page (e : ToolEnv) (n : string) (args : ToolArgs)
    (a : Agent) :
  requireConfirmation (config a) = true ->
  no_page a ->
  confirmation_gate e n args a = (Throw "No active page", a, []).
Proof.
  intros Hrc Hp. unfold confirmation_gate, shouldConfirm, mbind, gets,
    getCurrentPage. cbn. rewrite Hrc. unfold no_page in Hp. by rewrite Hp.
Qed.

(** The ways of one tool call. *)
Lemma processToolCall_cases (iteration : nat) (e : ToolEnv) (tc : ToolCall)
    (a : Agent) :
  (∃ m, arguments tc = Throw m ∧
        processToolCall iteration e tc a = (Throw m, a, [])) ∨
  (∃ args m, arguments tc = Ok args ∧
        requireConfirmation (config a) = true ∧
        BrowserManager.getCurrentPage (browserManager a) = Throw m ∧
        processToolCall iteration e tc a = (Throw m, a, [])) ∨
  (∃ args t c, arguments tc = Ok args ∧
        processToolCall iteration e tc a =
          (Ok tt,
           set_conversationHistory
             (conversationHistory a ++
              [ToolMessage (call_id tc) "Action cancelled by user"]) a,
           [Prompted (name tc) t c false])) ∨
  (∃ args, arguments tc = Ok args ∧
        processToolCall iteration e tc a =
          (Ok tt, after_dispatch iteration e tc args a,
           Dispatched (name tc) :: questions (name tc) args a)) ∨
  (∃ args t c, arguments tc = Ok args ∧
        processToolCall iteration e tc a =
          (Ok tt,
           after_dispatch iteration e tc args
             (set_confirmedActions
                (confirmedActions a ∪ {[ actionKey (name tc) t c ]}) a),
           Prompted (name tc) t c true :: Dispatched (name tc) ::
           questions (name tc) args a)).
Proof.
  destruct (arguments tc) as [args|m] eqn:Hargs.
  2: { left. exists m. split; [done|].
       unfold processToolCall, mbind, lift. by rewrite Hargs. }
  right.
  pose proof (fun a1 ev1 => processToolCall_passed iteration e tc args a a1 ev1 Hargs)
    as Hgo.
  destruct (confirmation_gate_cases e (name tc) args a)
    as [Hgate|[[m Hgate]|[(t & c & _ & Hgate)|(t & c & _ & Hgate)]]].
  - right; right; left. exists args. split; [done|]. by rewrite (Hgo _ _ Hgate).
  - left. exists args, m.
    destruct (gate_throws e (name tc) args a m) as (Hrc & Hp & _);
      [by rewrite Hgate|].
    repeat split; try done.
    unfold processToolCall, mbind at 1, lift. rewrite Hargs.
    unfold mbind at 1. by rewrite Hgate.
  - right; left. exists args, t, c. split; [done|].
    unfold processToolCall, mbind at 1, lift. rewrite Hargs.
    unfold mbind at 1. rewrite Hgate. by cbn.
  - right; right; right. exists args, t, c. split; [done|].
    by rewrite (Hgo _ _ Hgate).
Qed.


Lemma mbind_ok {A B} (c : M A) (k : A -> M B) (a a1 : Agent) (x : A)
    (ev1 : list Event) :
  c a = (Ok x, a1, ev1) ->
  result_of (mbind c k a) = result_of (k x a1) ∧
  agent_of (mbind c k a) = agent_of (k x a1) ∧
  events_of (mbind c k a) = ev1 ++ events_of (k x a1).
Proof.
  intros Hc. unfold mbind, result_of, agent_of, events_of. rewrite Hc.
  by destruct (k x a1) as [[r a2] ev2].
Qed.

(** What one tool call adds to the conversation: nothing when it throws, its
    one tool result otherwise. *)
Lemma processToolCall_conversation (iteration : nat) (e : ToolEnv)
    (tc : ToolCall) (a : Agent) :
  (∃ m, processToolCall iteration e tc a = (Throw m, a, [])) ∨
  (∃ a1 ev text,
     processToolCall iteration e tc a = (Ok tt, a1, ev) ∧
     conversationHistory a1 =
       conversationHistory a ++ [ToolMessage (call_id tc) text]).
Proof.
  destruct (processToolCall_cases iteration e tc a)
    as [(m & _ & Hrun)|[(args & m & _ & _ & _ & Hrun)
       |[(args & t & c & _ & Hrun)|[(args & _ & Hrun)|(args & t & c & _ & Hrun)]]]].
  - left. by exists m.
  - left. by exists m.
  - right. by eexists _, _, _.
  - right. eexists _, _, _. split; [exact Hrun|].
    apply after_dispatch_conversation.
  - right. eexists _, _, _. split; [exact Hrun|].
    by rewrite after_dispatch_conversation.
Qed.

(** X9. The tool calls of one decision leave their results in the conversation
    in the order of the calls, each under the identifier of its call, and
    nothing between them: one result per call when the [for] loop returns;
    when it throws, the results stop right before the call that threw, which
    is the one at that place in the decision, and the agent is as that call
    found it. *)
Theorem tool_results_follow_the_calls (iteration : nat) (env : nat -> ToolEnv)
    (calls : list ToolCall) (i : nat) (a : Agent) :
  ∃ texts,
    conversationHistory (agent_of (for_tool_calls iteration env i calls a)) =
      conversationHistory a ++ zip_with ToolMessage (map call_id calls) texts ∧
    length texts <= length calls ∧
    (result_of (for_tool_calls iteration env i calls a) = Ok tt ->
     length texts = length calls) ∧
    (∀ m, result_of (for_tool_calls iteration env i calls a) = Throw m ->
       ∃ tc, calls !! length texts = Some tc ∧
             processToolCall iteration (env (i + length texts)) tc
               (agent_of (for_tool_calls iteration env i calls a)) =
               (Throw m, agent_of (for_tool_calls iteration env i calls a), [])).
Proof.
  revert i a. induction calls as [|tc rest IH]; intros i a;
    cbn [for_tool_calls].
  - exists []. cbn. by rewrite app_nil_r.
  - destruct (processToolCall_conversation iteration (env i) tc a)
      as [(m & Hrun)|(a1 & ev & text & Hrun & Hconv)].
    + exists []. unfold mbind. rewrite Hrun. cbn. rewrite app_nil_r.
      split; [done|]. split; [lia|]. split; [done|].
      intros m' [= <-]. exists tc. split; [done|].
      by rewrite Nat.add_0_r.
    + destruct (mbind_ok _ (fun _ => for_tool_calls iteration env (S i) rest)
                  _ _ _ _ Hrun) as (-> & -> & _).
      destruct (IH (S i) a1) as (texts & Hc & Hl & Hok & Hthrow).
      exists (text :: texts). rewrite Hc, Hconv, <- app_assoc. cbn.
      split; [done|]. split; [lia|]. split; [intros Hr; by rewrite Hok|].
      intros m Hr. destruct (Hthrow m Hr) as (tc' & Hat & Hrun').
      exists tc'. split; [done|]. by rewrite Nat.add_succ_r.
Qed.

End MoreAgent.

(** *** Relations kept by every tool call *)

Section RespectsCalls.
Context `{Lowercase} {colors : StatusColors}.
Import BrowserAgent Spec.

Variable T : Agent -> list Event -> Agent -> Prop.
Hypothesis T_refl : ∀ a, T a [] a.
Hypothesis T_trans :
  ∀ a ev a' ev' a'', T a ev a' -> T a' ev' a'' -> T a (ev ++ ev') a''.
Hypothesis T_push : ∀ m, respects T (push_message m).
Hypothesis T_call :
  ∀ iteration e tc, respects T (processToolCall iteration e tc).

Lemma calls_for_tool_calls (iteration : nat) (env : nat -> ToolEnv)
    (calls : list ToolCall) :
  ∀ i, respects T (for_tool_calls iteration env i calls).
Proof.
  induction calls as [|tc rest IH]; intros i; cbn [for_tool_calls].
  - by apply respects_ret.
  - apply respects_bind; [done|apply T_call|]. intros _. apply IH.
Qed.

Lemma calls_runIteration (iteration : nat) (e : IterationEnv) :
  respects T (runIteration iteration e).
Proof.
  unfold runIteration.
  apply respects_try_catch; [done| |intros m; apply T_push].
  unfold iteration_body.
  apply respects_bind; [done| |].
  { destruct (chat e); [by apply respects_throw..|by apply respects_ret]. }
  intros message. apply respects_bind; [done|apply T_push|]. intros _.
  destruct (tool_calls message) as [[|first rest]|];
    [by apply respects_throw|apply calls_for_tool_calls|by apply respects_throw].
Qed.

Lemma calls_while_loop (fuel : nat) (env : nat -> IterationEnv) :
  ∀ i, respects T (while_loop fuel env i).
Proof.
  induction fuel as [|fuel IH]; intros i a; cbn [while_loop];
    destruct (_ && _); try apply T_refl.
  revert a. fold (respects T
    (mbind (runIteration (S i) (env (S i))) (fun _ => while_loop fuel env (S i)))).
  apply respects_bind; [done|apply calls_runIteration|]. intros _. apply IH.
Qed.

End RespectsCalls.

Section AuditLog.
Context `{Lowercase} {colors : StatusColors}.
Import BrowserAgent Spec Notions.

Lemma dispatch_count_app (ev ev' : list Event) :
  dispatch_count (ev ++ ev') = dispatch_count ev + dispatch_count ev'.
Proof. unfold dispatch_count. by rewrite List.filter_app, length_app. Qed.

Lemma questions_count (n : string) (args : ToolArgs) (a : Agent) :
  dispatch_count (questions n args a) = 0 ∧
  existsb is_prompt (questions n args a) = false.
Proof. by destruct (questions_cases n args a) as [-> | ->]. Qed.

Lemma dispatch_count_cons (n : string) (ev : list Event) :
  dispatch_count (Dispatched n :: ev) = S (dispatch_count ev).
Proof. done. Qed.

Lemma logs_each_dispatch_refl a : logs_each_dispatch a [] a.
Proof. unfold logs_each_dispatch. cbn. split; [done|]. destruct (logs_actions a); lia. Qed.

Lemma logs_each_dispatch_trans a ev a' ev' a'' :
  logs_each_dispatch a ev a' -> logs_each_dispatch a' ev' a'' ->
  logs_each_dispatch a (ev ++ ev') a''.
Proof.
  unfold logs_each_dispatch, logs_actions.
  intros [Hc Hl] [Hc' Hl']. split; [congruence|].
  rewrite Hl', Hl, Hc, dispatch_count_app. destruct (_ && _); lia.
Qed.

Lemma logs_each_dispatch_push m : respects logs_each_dispatch (push_message m).
Proof.
  intros a. unfold logs_each_dispatch, logged. cbn. split; [done|].
  destruct (logs_actions a); cbn; lia.
Qed.

Lemma logs_each_dispatch_call iteration e tc :
  respects logs_each_dispatch (processToolCall iteration e tc).
Proof.
  intros a. unfold logs_each_dispatch, events_of, agent_of.
  destruct (processToolCall_cases iteration e tc a)
    as [(m & _ & Hrun)|[(args & m & _ & _ & _ & Hrun)
       |[(args & t & c & _ & Hrun)|[(args & _ & Hrun)|(args & t & c & _ & Hrun)]]]];
    rewrite Hrun; cbn [fst snd].
  - split; [done|]. cbn. destruct (logs_actions a); lia.
  - split; [done|]. cbn. destruct (logs_actions a); lia.
  - split; [done|]. unfold logged. cbn. destruct (logs_actions a); lia.
  - rewrite after_dispatch_config, after_dispatch_logged. split; [done|].
    rewrite dispatch_count_cons, (proj1 (questions_count _ _ _)).
    by destruct (logs_actions a).
  - rewrite after_dispatch_config, after_dispatch_logged. split; [done|].
    change (dispatch_count (Prompted (name tc) t c true :: ?l))
      with (dispatch_count l).
    rewrite dispatch_count_cons, (proj1 (questions_count _ _ _)).
    unfold logs_actions, logged. cbn. by destruct (_ && _).
Qed.

(** X10. The audit log of a task: with the plan and the action history both
    shown, the log grows during [executeTask] by one entry for each tool
    call that reached the dispatcher, the failed ones included and the
    refused ones not; with either of them off it stays as it was. *)
Theorem audit_log_counts_dispatches (env : nat -> IterationEnv) (task : string)
    (a : Agent) :
  logged (agent_of (executeTask env task a)) =
  logged a +
  (if logs_actions a then dispatch_count (events_of (executeTask env task a))
   else 0).
Proof.
  rewrite executeTask_unfold.
  pose proof (calls_while_loop logs_each_dispatch logs_each_dispatch_refl
                logs_each_dispatch_trans logs_each_dispatch_push
                logs_each_dispatch_call (maxIterations (config a)) env 0
                (at_loop_entry task a)) as [_ Hlog].
  unfold events_of, agent_of in *.
  assert (logged (at_loop_entry task a) = logged a) as Hl.
  { unfold at_loop_entry, logged. by destruct (showPlanVisualization (config a)). }
  assert (logs_actions (at_loop_entry task a) = logs_actions a) as Hc.
  { unfold logs_actions. by rewrite at_loop_entry_config. }
  rewrite Hl, Hc in Hlog.
  by destruct (while_loop _ _ _ _) as [[[count|m] a'] ev].
Qed.

Lemma asks_only_if_required_refl a : asks_only_if_required a [] a.
Proof. by unfold asks_only_if_required. Qed.

Lemma asks_only_if_required_trans a ev a' ev' a'' :
  asks_only_if_required a ev a' -> asks_only_if_required a' ev' a'' ->
  asks_only_if_required a (ev ++ ev') a''.
Proof.
  unfold asks_only_if_required. intros [Hc Hp] [Hc' Hp']. split; [congruence|].
  intros Hrc. rewrite existsb_app, Hp by done. rewrite Hp'; [done|congruence].
Qed.

Lemma asks_only_if_required_push m :
  respects asks_only_if_required (push_message m).
Proof. intros a. by unfold asks_only_if_required. Qed.

Lemma asks_only_if_required_call iteration e tc :
  respects asks_only_if_required (processToolCall iteration e tc).
Proof.
  intros a. unfold asks_only_if_required, events_of, agent_of.
  destruct (arguments tc) as [args|m] eqn:Hargs.
  2: { unfold processToolCall, mbind, lift. by rewrite Hargs. }
  destruct (requireConfirmation (config a)) eqn:Hrc.
  - split; [|done].
    destruct (processToolCall_cases iteration e tc a)
      as [(m & _ & Hrun)|[(args' & m & _ & _ & _ & Hrun)
         |[(args' & t & c & _ & Hrun)|[(args' & _ & Hrun)|(args' & t & c & _ & Hrun)]]]];
      rewrite Hrun; cbn [fst snd]; by rewrite ?after_dispatch_config.
  - rewrite (processToolCall_passed iteration e tc args a a [] Hargs
               (gate_without_requirement e (name tc) args a Hrc)).
    cbn [fst snd app existsb is_prompt orb].
    rewrite after_dispatch_config. split; [done|]. intros _.
    apply questions_count.
Qed.

Lemma asked_by_ask_user_app (ev ev' : list Event) :
  asked_by_ask_user ev -> asked_by_ask_user ev' -> asked_by_ask_user (ev ++ ev').
Proof.
  intros Hev Hev' i q Hi.
  destruct (decide (i < length ev)) as [Hlt|Hge].
  - rewrite lookup_app_l in Hi by done.
    destruct (Hev i q Hi) as (j & -> & Hj). exists j. split; [done|].
    rewrite lookup_app_l by lia. done.
  - rewrite lookup_app_r in Hi by lia.
    destruct (Hev' _ q Hi) as (j & Hij & Hj). exists (length ev + j).
    split; [lia|]. rewrite lookup_app_r by lia.
    by replace (length ev + j - length ev) with j by lia.
Qed.

Lemma asked_by_ask_user_nil : asked_by_ask_user [].
Proof. intros i q Hi. by rewrite lookup_nil in Hi. Qed.

Lemma asked_by_ask_user_dispatch (n : string) (args : ToolArgs) (a : Agent) :
  asked_by_ask_user (Dispatched n :: questions n args a).
Proof.
  intros i q Hi. unfold questions in Hi.
  destruct i as [|[|i]]; [done| |].
  - exists 0. split; [done|]. cbn in Hi |- *.
    destruct (String.eqb_spec n "ask_user") as [->|]; [done|].
    by destruct (BrowserManager.getCurrentPage _).
  - cbn in Hi. destruct (BrowserManager.getCurrentPage _); [|done].
    by destruct (String.eqb n "ask_user").
Qed.

Lemma asks_by_ask_user_call iteration e tc :
  respects asks_by_ask_user (processToolCall iteration e tc).
Proof.
  intros a. unfold asks_by_ask_user, events_of.
  destruct (processToolCall_cases iteration e tc a)
    as [(m & _ & Hrun)|[(args & m & _ & _ & _ & Hrun)
       |[(args & t & c & _ & Hrun)|[(args & _ & Hrun)|(args & t & c & _ & Hrun)]]]];
    rewrite Hrun; cbn [fst snd].
  - apply asked_by_ask_user_nil.
  - apply asked_by_ask_user_nil.
  - by intros [|[|i]] q Hi.
  - apply asked_by_ask_user_dispatch.
  - apply (asked_by_ask_user_app [Prompted (name tc) t c true]);
      [by intros [|[|i]] q Hi|apply asked_by_ask_user_dispatch].
Qed.

(** X11. With [requireConfirmation] off no confirmation is asked during a
    task, whatever the model decides and whatever the pages hold: the only
    questions put to the user are those of the [ask_user] calls, each right
    after the dispatch of its call. *)
Theorem no_confirmation_without_requirement (env : nat -> IterationEnv)
    (task : string) (a : Agent) :
  requireConfirmation (config a) = false ->
  existsb is_prompt (events_of (executeTask env task a)) = false ∧
  asked_by_ask_user (events_of (executeTask env task a)).
Proof.
  intros Hrc. rewrite executeTask_unfold.
  pose proof (calls_while_loop asks_only_if_required asks_only_if_required_refl
                asks_only_if_required_trans asks_only_if_required_push
                asks_only_if_required_call (maxIterations (config a)) env 0
                (at_loop_entry task a)) as [_ Hask].
  pose proof (calls_while_loop asks_by_ask_user
                (fun _ => asked_by_ask_user_nil)
                (fun _ ev _ ev' _ => asked_by_ask_user_app ev ev')
                (fun _ _ => asked_by_ask_user_nil)
                asks_by_ask_user_call (maxIterations (config a)) env 0
                (at_loop_entry task a)) as Hq.
  rewrite at_loop_entry_config in Hask. specialize (Hask Hrc).
  unfold asks_by_ask_user, events_of in *.
  by destruct (while_loop _ _ _ _) as [[[count|m] a'] ev].
Qed.

End AuditLog.

(** *** What the tools write *)

Section Tools.
Context `{Lowercase} {colors : StatusColors}.
Import BrowserAgent Spec Notions.

Ltac tool_cases :=
  unfold executeTool; unfold mbind at 1; unfold getCurrentPage;
  match goal with
  | |- context [BrowserManager.getCurrentPage ?b] =>
      destruct (BrowserManager.getCurrentPage b) as [?page|?m] eqn:?Hpage
  end;
  [repeat match goal with
          | |- context [if String.eqb ?x ?y then _ else _] =>
              destruct (String.eqb_spec x y)
          end|].

(** X12. Each tool writes its own part of the agent and no other: the element
    cache is written by [get_page_content] and [find_element] only, the tab
    registry by the three tab tools, the plan and the plan shown by
    [update_plan], the completion flag by [complete_task]; the tools that
    act on the page, and the names that are no tool, leave the agent as it
    is, and so does every tool when no page is active. *)
Theorem executeTool_writes_its_own_part (e : ToolEnv) (n : string)
    (args : ToolArgs) (a : Agent) :
  (n ≠ "get_page_content" -> n ≠ "find_element" ->
   currentElements (agent_of (executeTool e n args a)) = currentElements a) ∧
  (n ≠ "new_tab" -> n ≠ "switch_tab" -> n ≠ "close_tab" ->
   browserManager (agent_of (executeTool e n args a)) = browserManager a) ∧
  (n ≠ "update_plan" ->
   currentPlan (agent_of (executeTool e n args a)) = currentPlan a ∧
   visualizer (agent_of (executeTool e n args a)) = visualizer a) ∧
  (n ≠ "complete_task" ->
   isTaskComplete (agent_of (executeTool e n args a)) = isTaskComplete a) ∧
  (is_reply_tool n = true ∨ n ∉ case_labels ∨ no_page a ->
   agent_of (executeTool e n args a) = a).
Proof.
  assert (∀ a : Agent,
    {| browserManager := browserManager a; config := config a;
       conversationHistory := conversationHistory a;
       currentElements := currentElements a;
       isTaskComplete := isTaskComplete a; visualizer := visualizer a;
       currentPlan := currentPlan a;
       confirmedActions := confirmedActions a |} = a) as Heta by (by intros []).
  unfold agent_of, no_page, case_labels.
  destruct (executeTool e n args a) as [[r a'] ev] eqn:Hr. cbn [fst snd].
  revert Hr. tool_cases.
  all: unfold visualizer_setPlan, mbind, lift, modify, ret, gets, throw, on_browser,
    emit.
  all: repeat case_match; intros; simplify_eq; cbn.
  all: repeat split; try done.
  all: try (intros [Hreply|[Hno|Hno]]; try done;
            exfalso; apply Hno; repeat constructor).
Qed.

(** X13. A name that is no tool is reported to the model as an error and
    nothing else happens: the dispatcher does not throw and the agent is as
    it was. *)
Theorem unknown_tool_is_reported (e : ToolEnv) (n : string) (args : ToolArgs)
    (a : Agent) :
  has_page a ->
  n ∉ case_labels ->
  dispatch e n args a =
    (Ok ("Error: Unknown tool: " +:+ n, false), a, [Dispatched n]).
Proof.
  intros [page Hpage] Hn. rewrite dispatch_unfold.
  assert (questions n args a = []) as ->.
  { unfold questions. rewrite Hpage.
    destruct (String.eqb_spec n "ask_user") as [->|]; [|done].
    exfalso. apply Hn. unfold case_labels. repeat constructor. }
  assert (executeTool e n args a = (Throw ("Unknown tool: " +:+ n), a, []))
    as ->; [|done].
  revert Hn. unfold case_labels. tool_cases; [..|congruence].
  all: intros Hn; try solve [exfalso; apply Hn; subst n; repeat constructor].
  assert (is_reply_tool n = false) as ->; [|done].
  apply not_true_is_false. intros Hreply. apply Hn.
  unfold is_reply_tool in Hreply.
  apply existsb_exists in Hreply as (label & Hin & ->%String.eqb_eq).
  cbn in Hin.
  repeat (destruct Hin as [<-|Hin]; [repeat constructor|]). done.
Qed.

End Tools.

(** *** The end of a task *)

Section Completion.
Context `{Lowercase} {colors : StatusColors}.
Import BrowserAgent Spec Notions.

Lemma executeTool_complete_task (e : ToolEnv) (args : ToolArgs) (a : Agent) :
  has_page a ->
  executeTool e "complete_task" args a =
    (Ok (summary args), set_isTaskComplete true a, []).
Proof.
  intros [page Hpage]. unfold executeTool. unfold mbind at 1.
  unfold getCurrentPage. by rewrite Hpage.
Qed.

Lemma after_dispatch_flag (iteration : nat) (e : ToolEnv) (tc : ToolCall)
    (args : ToolArgs) (a : Agent) :
  isTaskComplete (after_dispatch iteration e tc args a) =
  isTaskComplete (agent_of (executeTool e (name tc) args a)).
Proof. unfold after_dispatch. cbn. by destruct (_ && _). Qed.

Lemma executeTool_stays_complete (e : ToolEnv) (n : string) (args : ToolArgs)
    (a : Agent) :
  isTaskComplete a = true ->
  isTaskComplete (agent_of (executeTool e n args a)) = true.
Proof.
  intros Hflag. destruct (decide (n = "complete_task")) as [->|Hn].
  - destruct (BrowserManager.getCurrentPage (browserManager a)) as [page|m] eqn:Hp.
    + rewrite executeTool_complete_task; [done|by exists page].
    + by rewrite (executeTool_no_page e _ args a m Hp).
  - pose proof (executeTool_frame e n args a) as (_ & _ & _ & _ & Hsame).
    by rewrite Hsame.
Qed.

Lemma stays_complete_refl a : stays_complete a [] a.
Proof. by unfold stays_complete. Qed.

Lemma stays_complete_trans a ev a' ev' a'' :
  stays_complete a ev a' -> stays_complete a' ev' a'' ->
  stays_complete a (ev ++ ev') a''.
Proof. unfold stays_complete. auto. Qed.

Lemma stays_complete_push m : respects stays_complete (push_message m).
Proof. intros a. by unfold stays_complete. Qed.

Lemma stays_complete_call iteration e tc :
  respects stays_complete (processToolCall iteration e tc).
Proof.
  intros a. unfold stays_complete, events_of, agent_of.
  destruct (processToolCall_cases iteration e tc a)
    as [(m & _ & Hrun)|[(args & m & _ & _ & _ & Hrun)
       |[(args & t & c & _ & Hrun)|[(args & _ & Hrun)|(args & t & c & _ & Hrun)]]]];
    rewrite Hrun; cbn [fst snd]; try done.
  all: intros Hflag; rewrite after_dispatch_flag;
    by apply executeTool_stays_complete.
Qed.

Lemma iteration_body_with_calls (iteration : nat) (e : IterationEnv) (a : Agent)
    (message : ChatMessage) (first : ToolCall) (rest : list ToolCall) :
  chat e = Reply message ->
  tool_calls message = Some (first :: rest) ->
  iteration_body iteration e a =
    for_tool_calls iteration (tool_env e) 0 (first :: rest)
      (set_conversationHistory
         (conversationHistory a ++ [AssistantMessage message]) a).
Proof.
  intros Hchat Hcalls. unfold iteration_body.
  unfold mbind at 1. rewrite Hchat. cbn [ret].
  unfold mbind at 1. cbn [push_message modify]. rewrite Hcalls.
  by destruct (for_tool_calls _ _ _ _ _) as [[r a2] ev2].
Qed.

(** X14. When the first tool call of a decision is [complete_task], a page is
    active and the call needs no confirmation, the loop ends with this
    iteration: whatever the calls after it in the same decision do, even
    when one of them throws, the task is complete and no further decision
    is asked of the model. *)
Theorem complete_task_ends_the_loop (fuel : nat) (env : nat -> IterationEnv)
    (i : nat) (a : Agent) (message : ChatMessage) (tc : ToolCall)
    (rest : list ToolCall) (args : ToolArgs) :
  isTaskComplete a = false ->
  i < maxIterations (config a) ->
  has_page a ->
  chat (env (S i)) = Reply message ->
  tool_calls message = Some (tc :: rest) ->
  name tc = "complete_task" ->
  arguments tc = Ok args ->
  requireConfirmation (config a) = false ∨
  (find_current args a = None ∧
   SecurityLayer.checkUrlForSensitivePatterns
     (page_url (tool_env (env (S i)) 0)) = None) ->
  result_of (while_loop (S fuel) env i a) = Ok (Some (S i)) ∧
  isTaskComplete (agent_of (while_loop (S fuel) env i a)) = true ∧
  dispatches "complete_task" (events_of (while_loop (S fuel) env i a)) = true.
Proof.
  intros Hflag Hlt Hpage Hchat Hcalls Hname Hargs Hfree.
  set (a0 := set_conversationHistory
               (conversationHistory a ++ [AssistantMessage message]) a).
  assert (confirmation_gate (tool_env (env (S i)) 0) (name tc) args a0 =
          (Ok true, a0, [])) as Hgate.
  { destruct Hfree as [Hrc|[Hnone Hurl]].
    - by apply gate_without_requirement.
    - apply plain_call_passes; try done. by rewrite Hname. }
  pose proof (processToolCall_passed (S i) _ tc args a0 a0 [] Hargs Hgate)
    as Hcall.
  assert (questions (name tc) args a0 = []) as Hquiet.
  { unfold questions. rewrite Hname. by destruct (BrowserManager.getCurrentPage _). }
  rewrite Hquiet in Hcall.
  assert (isTaskComplete
            (after_dispatch (S i) (tool_env (env (S i)) 0) tc args a0) = true)
    as Hdone.
  { rewrite after_dispatch_flag, Hname, executeTool_complete_task; done. }
  assert (∃ a' ev,
            runIteration (S i) (env (S i)) a =
              (Ok tt, a', Dispatched "complete_task" :: ev) ∧
            isTaskComplete a' = true) as (a' & ev & Hrun & Hflag').
  { unfold runIteration, try_catch.
    rewrite (iteration_body_with_calls _ _ _ _ _ _ Hchat Hcalls).
    fold a0. cbn [for_tool_calls]. unfold mbind. rewrite Hcall, Hname.
    pose proof (calls_for_tool_calls stays_complete stays_complete_refl
                  stays_complete_trans stays_complete_call (S i)
                  (tool_env (env (S i))) rest 1 _ Hdone) as Hrest.
    unfold agent_of in Hrest.
    destruct (for_tool_calls _ _ _ rest _) as [[[[]|m] a2] ev2]; cbn in *.
    - by exists a2, ev2.
    - exists (set_conversationHistory
                (conversationHistory a2 ++ [corrective_note m]) a2),
             (ev2 ++ []).
      split; [done|]. exact Hrest. }
  rewrite while_loop_enter by done.
  destruct (mbind_ok (runIteration (S i) (env (S i)))
              (fun _ => while_loop fuel env (S i)) _ _ _ _ Hrun)
    as (-> & -> & ->).
  rewrite while_loop_exit by (by left). cbn.
  repeat split; try done.
Qed.

(** X15. A task starts afresh: the approvals given and the completion flag left
    by an earlier task have no effect on what [executeTask] does. *)
Theorem executeTask_starts_afresh (env : nat -> IterationEnv) (task : string)
    (a : Agent) (approved : gset string) (flag : bool) :
  executeTask env task (set_confirmedActions approved (set_isTaskComplete flag a)) =
  executeTask env task a.
Proof.
  rewrite !executeTask_unfold.
  assert (at_loop_entry task
            (set_confirmedActions approved (set_isTaskComplete flag a)) =
          at_loop_entry task a) as ->; [|done].
  unfold at_loop_entry. cbn. by destruct (showPlanVisualization (config a)).
Qed.

End Completion.

(** *** The run of the loop, iteration by iteration *)

Section LoopTrace.
Context `{Lowercase} {colors : StatusColors}.
Import BrowserAgent Spec Notions.

Lemma runIteration_config (iteration : nat) (e : IterationEnv) (a : Agent) :
  config (agent_of (runIteration iteration e a)) = config a.
Proof. by destruct (runIteration_completes_by_dispatch iteration e a). Qed.

(** The loop is the run of its first iterations, as many as its test lets
    through. *)
Lemma while_loop_trace (env : nat -> IterationEnv) (fuel : nat) :
  ∀ (i : nat) (a : Agent),
    maxIterations (config a) - i <= fuel ->
    ∃ n a' ev,
      iterations_from env i n a = (Ok tt, a', ev) ∧
      while_loop fuel env i a = (Ok (Some (i + n)), a', ev) ∧
      config a' = config a ∧
      (i <= maxIterations (config a) -> i + n <= maxIterations (config a)) ∧
      (∀ k, k < n ->
         isTaskComplete (agent_of (iterations_from env i k a)) = false ∧
         i + k < maxIterations (config a)) ∧
      (isTaskComplete a' = true ∨ maxIterations (config a) <= i + n).
Proof.
  assert (∀ fuel' i a,
            isTaskComplete a = true ∨ maxIterations (config a) <= i ->
            ∃ n a' ev,
              iterations_from env i n a = (Ok tt, a', ev) ∧
              while_loop fuel' env i a = (Ok (Some (i + n)), a', ev) ∧
              config a' = config a ∧
              (i <= maxIterations (config a) ->
               i + n <= maxIterations (config a)) ∧
              (∀ k, k < n ->
                 isTaskComplete (agent_of (iterations_from env i k a)) = false ∧
                 i + k < maxIterations (config a)) ∧
              (isTaskComplete a' = true ∨ maxIterations (config a) <= i + n))
    as Hstop.
  { intros fuel' i a Hexit. exists 0, a, [].
    rewrite while_loop_exit by done. rewrite Nat.add_0_r.
    split; [done|]. split; [done|]. split; [done|]. split; [done|].
    split; [intros k Hk; lia|]. destruct Hexit as [Hflag|Hge]; [by left|by right]. }
  induction fuel as [|fuel IH]; intros i a Hfuel.
  { apply Hstop. right. lia. }
  specialize (Hstop (S fuel)).
  destruct (isTaskComplete a) eqn:Hflag; [apply Hstop; by left|].
  destruct (decide (i < maxIterations (config a))) as [Hlt|Hge];
    [|apply Hstop; right; lia].
  - rewrite while_loop_enter by done.
    pose proof (runIteration_ok (S i) (env (S i)) a) as Hok.
    pose proof (runIteration_config (S i) (env (S i)) a) as Hcfg.
    destruct (runIteration (S i) (env (S i)) a) as [[r a1] ev1] eqn:Hrun.
    unfold result_of, agent_of in Hok, Hcfg. cbn in Hok, Hcfg. subst r.
    destruct (IH (S i) a1) as (n & a' & ev & Hiter & Hloop & Hcfg' & Hmax & Hbefore & Hend);
      [rewrite Hcfg; lia|].
    exists (S n), a', (ev1 ++ ev).
    cbn [iterations_from]. unfold mbind. rewrite Hrun, Hiter, Hloop.
    rewrite Hcfg in *.
    replace (i + S n) with (S i + n) by lia.
    split; [done|]. split; [done|]. split; [done|]. split; [lia|].
    split; [|destruct Hend; [by left|right; lia]].
    intros [|k] Hk; [split; [exact Hflag|lia]|].
    destruct (Hbefore k) as [Hf Hb]; [lia|]. split; [|lia].
    cbn [iterations_from]. unfold mbind, agent_of. rewrite Hrun.
    unfold agent_of in Hf.
    by destruct (iterations_from env (S i) k a1) as [[r2 a2] ev2].
Qed.

Lemma while_loop_completes_by_dispatch fuel env i :
  respects completes_by_dispatch (while_loop fuel env i).
Proof.
  apply respects_while_loop.
  - apply completes_by_dispatch_refl.
  - apply completes_by_dispatch_trans.
  - apply completes_by_dispatch_push.
  - apply completes_by_dispatch_history.
  - apply completes_by_dispatch_gate.
  - apply completes_by_dispatch_dispatch.
Qed.

(** [executeTask] is the run of its first [n] iterations, for the [n] it
    reports, and [n] is where the test of the loop first fails. *)
Lemma executeTask_trace (env : nat -> IterationEnv) (task : string) (a : Agent) :
  ∃ n a' ev,
    iterations_from env 0 n (at_loop_entry task a) = (Ok tt, a', ev) ∧
    executeTask env task a =
      (Ok (Some {| iterations := n;
                   outcome := if isTaskComplete a' then Completed
                              else MaxIterationsReached |}), a', ev) ∧
    n <= maxIterations (config a) ∧
    (∀ k, k < n ->
       isTaskComplete
         (agent_of (iterations_from env 0 k (at_loop_entry task a))) = false) ∧
    (isTaskComplete a' = true ∨ n = maxIterations (config a)) ∧
    (dispatches "complete_task" ev = false -> isTaskComplete a' = false).
Proof.
  destruct (while_loop_trace env (maxIterations (config a)) 0
              (at_loop_entry task a))
    as (n & a' & ev & Hiter & Hloop & Hcfg & Hmax & Hbefore & Hend);
    [rewrite at_loop_entry_config; lia|].
  rewrite at_loop_entry_config in *. cbn in Hloop, Hmax, Hend.
  exists n, a', ev. rewrite executeTask_unfold, Hloop.
  split; [done|]. split; [done|]. split; [lia|].
  split; [intros k Hk; by apply Hbefore|].
  split; [destruct Hend as [Hend|Hend]; [by left|right; lia]|].
  intros Hno.
  destruct (while_loop_completes_by_dispatch (maxIterations (config a)) env 0
              (at_loop_entry task a)) as [_ Hsame].
  rewrite Hloop in Hsame. unfold events_of, agent_of in Hsame. cbn in Hsame.
  rewrite (Hsame Hno). apply (at_loop_entry_flag task a).
Qed.

(** C5. Whatever the model decides, [executeTask] returns a report, and the
    report counts the iterations that were run: the run is the one of the
    iterations 1 .. n one after the other, the task was not complete before
    any of them, n is at most [maxIterations], and the loop stops after n
    because the task is complete or n is [maxIterations].  When no
    [complete_task] is dispatched during the run, n is exactly
    [maxIterations], each of these iterations is run, and the report is the
    one of the reached maximum, a normal return.  The constructor sets
    [maxIterations] to 50 when none is given. *)
Theorem executeTask_stops_at_maxIterations (env : nat -> IterationEnv)
    (task : string) (a : Agent) :
  (∃ n a' ev,
     iterations_from env 0 n (at_loop_entry task a) = (Ok tt, a', ev) ∧
     executeTask env task a =
       (Ok (Some {| iterations := n;
                    outcome := if isTaskComplete a' then Completed
                               else MaxIterationsReached |}), a', ev) ∧
     n <= maxIterations (config a) ∧
     (∀ k, k < n ->
        isTaskComplete
          (agent_of (iterations_from env 0 k (at_loop_entry task a))) = false) ∧
     (isTaskComplete a' = true ∨ n = maxIterations (config a)) ∧
     (dispatches "complete_task" ev = false ->
      n = maxIterations (config a) ∧
      isTaskComplete a' = false ∧
      result_of (executeTask env task a) =
        Ok (Some {| iterations := maxIterations (config a);
                    outcome := MaxIterationsReached |}))) ∧
  (∀ given, maxIterations (config (constructor given)) =
            default 50 (given_maxIterations given)).
Proof.
  split; [|done].
  destruct (executeTask_trace env task a)
    as (n & a' & ev & Hiter & Hrun & Hle & Hbefore & Hend & Hcap).
  exists n, a', ev.
  split; [done|]. split; [done|]. split; [done|]. split; [done|].
  split; [done|]. intros Hno. specialize (Hcap Hno).
  assert (n = maxIterations (config a)) as Hn
    by (destruct Hend as [Hend|Hend]; congruence).
  split; [done|]. split; [done|].
  rewrite Hrun. unfold result_of. cbn. by rewrite Hcap, Hn.
Qed.

Lemma call_without_page (iteration : nat) (e : ToolEnv) (tc : ToolCall)
    (args : ToolArgs) (a : Agent) :
  arguments tc = Ok args ->
  no_page a ->
  (requireConfirmation (config a) = true ->
   processToolCall iteration e tc a = (Throw "No active page", a, [])) ∧
  (requireConfirmation (config a) = false ->
   result_of (processToolCall iteration e tc a) = Ok tt ∧
   events_of (processToolCall iteration e tc a) = [Dispatched (name tc)] ∧
   conversationHistory (agent_of (processToolCall iteration e tc a)) =
     conversationHistory a ++
     [ToolMessage (call_id tc) "Error: No active page"] ∧
   browserManager (agent_of (processToolCall iteration e tc a)) =
     browserManager a ∧
   isTaskComplete (agent_of (processToolCall iteration e tc a)) =
     isTaskComplete a).
Proof.
  intros Hargs Hp. split; intros Hrc.
  - unfold processToolCall. unfold mbind at 1, lift. rewrite Hargs.
    unfold mbind at 1. by rewrite (gate_without_page e (name tc) args a Hrc Hp).
  - rewrite (processToolCall_passed iteration e tc args a a [] Hargs
               (gate_without_requirement e (name tc) args a Hrc)).
    pose proof (executeTool_no_page e (name tc) args a _ Hp) as Htool.
    unfold result_of, events_of, agent_of, after_dispatch, outcome_of,
      questions, result_of, agent_of.
    unfold no_page in Hp. rewrite Htool, Hp. cbn.
    by destruct (_ && _).
Qed.

(** The [for] loop stops at the call that throws: the calls before it have
    run, the calls after it do not. *)
Lemma for_tool_calls_throw_at (iteration : nat) (env : nat -> ToolEnv)
    (tc : ToolCall) (after : list ToolCall) (m : string) (before : list ToolCall) :
  ∀ i a0 a_k ev_k,
    for_tool_calls iteration env i before a0 = (Ok tt, a_k, ev_k) ->
    processToolCall iteration (env (i + length before)) tc a_k =
      (Throw m, a_k, []) ->
    for_tool_calls iteration env i (before ++ tc :: after) a0 =
      (Throw m, a_k, ev_k).
Proof.
  induction before as [|x before IH]; intros i a0 a_k ev_k Hbefore Hcall.
  - cbn in Hbefore. injection Hbefore as -> <-.
    cbn [app for_tool_calls length] in *. rewrite Nat.add_0_r in Hcall.
    unfold mbind. by rewrite Hcall.
  - cbn [app for_tool_calls length] in *. unfold mbind in Hbefore |- *.
    destruct (processToolCall iteration (env i) x a0) as [[[[]|m1] a1] ev1];
      [|done].
    destruct (for_tool_calls iteration env (S i) before a1)
      as [[r2 a2] ev2] eqn:Hrest.
    injection Hbefore as -> -> <-.
    rewrite (IH (S i) a1 a_k ev2 Hrest); [done|].
    by rewrite Nat.add_succ_r in Hcall.
Qed.

(** C3, as the code has it.  When [getCurrentPage] raises 'No active page'
    during an iteration, the loop does not abort and nothing is reported
    upward.  A tool call that comes while no page is active: with the
    confirmation off, it is dispatched and the error is its tool result,
    'Error: No active page', the calls after it going on; with the
    confirmation on, the check throws, the calls after it are skipped and
    the [catch] of the iteration adds the note 'An error occurred: No active
    page. Please try a different approach.' to the conversation.  Every
    iteration returns normally, and the loop goes on under its usual test:
    [executeTask] returns the report of the iterations run, the last one
    being the first after which the task is complete or [maxIterations] is
    reached.  When the task starts without a page, no iteration brings one
    back, and the report is the one of the reached maximum. *)
Theorem no_active_page_does_not_abort (env : nat -> IterationEnv)
    (task : string) (a : Agent) :
  (∀ iteration e tc args a0,
     arguments tc = Ok args ->
     no_page a0 ->
     (requireConfirmation (config a0) = true ->
      processToolCall iteration e tc a0 = (Throw "No active page", a0, [])) ∧
     (requireConfirmation (config a0) = false ->
      result_of (processToolCall iteration e tc a0) = Ok tt ∧
      events_of (processToolCall iteration e tc a0) = [Dispatched (name tc)] ∧
      conversationHistory (agent_of (processToolCall iteration e tc a0)) =
        conversationHistory a0 ++
        [ToolMessage (call_id tc) "Error: No active page"] ∧
      browserManager (agent_of (processToolCall iteration e tc a0)) =
        browserManager a0 ∧
      isTaskComplete (agent_of (processToolCall iteration e tc a0)) =
        isTaskComplete a0)) ∧
  (∀ iteration e message before tc after args a0 a_k ev_k,
     chat e = Reply message ->
     tool_calls message = Some (before ++ tc :: after) ->
     for_tool_calls iteration (tool_env e) 0 before
       (agent_of (push_message (AssistantMessage message) a0)) =
       (Ok tt, a_k, ev_k) ->
     arguments tc = Ok args ->
     no_page a_k ->
     requireConfirmation (config a_k) = true ->
     runIteration iteration e a0 =
       (Ok tt,
        set_conversationHistory
          (conversationHistory a_k ++
           [UserMessage ("An error occurred: No active page" +:+
                         ". Please try a different approach.")]) a_k,
        ev_k)) ∧
  (∀ iteration e a0, result_of (runIteration iteration e a0) = Ok tt) ∧
  (∃ n a' ev,
     iterations_from env 0 n (at_loop_entry task a) = (Ok tt, a', ev) ∧
     executeTask env task a =
       (Ok (Some {| iterations := n;
                    outcome := if isTaskComplete a' then Completed
                               else MaxIterationsReached |}), a', ev) ∧
     (∀ k, k < n ->
        isTaskComplete
          (agent_of (iterations_from env 0 k (at_loop_entry task a))) = false) ∧
     (isTaskComplete a' = true ∨ n = maxIterations (config a))) ∧
  (no_page a ->
   (∀ iteration e,
      no_page (agent_of (runIteration iteration e a)) ∧
      isTaskComplete (agent_of (runIteration iteration e a)) = isTaskComplete a) ∧
   result_of (executeTask env task a) =
     Ok (Some {| iterations := maxIterations (config a);
                 outcome := MaxIterationsReached |}) ∧
   no_page (agent_of (executeTask env task a))).
Proof.
  split; [intros iteration e tc args a0 Hargs Hp0;
          exact (call_without_page iteration e tc args a0 Hargs Hp0)|].
  split.
  { intros iteration e message before tc after args a0 a_k ev_k
      Hchat Hcalls Hbefore Hargs Hp Hrc.
    destruct (call_without_page iteration (tool_env e (0 + length before))
                tc args a_k Hargs Hp) as [Hthrow _].
    pose proof (for_tool_calls_throw_at iteration (tool_env e) tc after _
                  before 0 _ a_k ev_k Hbefore (Hthrow Hrc)) as Hfor.
    unfold runIteration, try_catch, iteration_body.
    unfold mbind at 1. rewrite Hchat. cbn [ret].
    unfold mbind at 1. cbn [push_message modify].
    rewrite Hcalls.
    unfold agent_of in Hfor. cbn [push_message modify fst snd] in Hfor.
    destruct before as [|x before]; cbn [app] in Hfor |- *;
      rewrite Hfor; cbn; by rewrite app_nil_r. }
  split; [intros; apply runIteration_ok|].
  split.
  { destruct (executeTask_trace env task a)
      as (n & a' & ev & Hiter & Hrun & _ & Hbefore & Hend & _).
    by exists n, a', ev. }
  intros Hp.
  destruct (loop_without_page env task a Hp)
    as (Hstep & _ & _ & Hreport & Hpage).
  split; [intros iteration e; by destruct (Hstep iteration e) as (_ & ? & ?)|].
  by split.
Qed.

End LoopTrace.

Section PlanUpdates.
Context `{Lowercase} {colors : StatusColors}.
Import BrowserAgent Spec Notions.

(** The agent [update_plan] leaves, whether the display of the plan throws
    or not. *)
Lemma update_plan_agent (e : ToolEnv) (args : ToolArgs)
    (requested : list StepRequest) (a : Agent) :
  has_page a ->
  request_steps args = Some requested ->
  agent_of (executeTool e "update_plan" args a) =
    let plan := updated_plan (currentPlan a) args requested in
    let a1 := set_currentPlan (Some plan) a in
    if showPlanVisualization (config a)
    then set_visualizer {| shownPlan := Some plan;
                           actionHistory := actionHistory (visualizer a) |} a1
    else a1.
Proof.
  intros [page Hpage] Hsteps.
  unfold executeTool, agent_of, mbind at 1, getCurrentPage. rewrite Hpage.
  cbn [String.eqb Ascii.eqb Bool.eqb]. rewrite Hsteps.
  unfold mbind, gets, modify, ret, visualizer_setPlan, lift, mbind. cbn.
  destruct (showPlanVisualization (config a)); [|done].
  cbn. by destruct (display_steps _).
Qed.

Lemma after_dispatch_plan (iteration : nat) (e : ToolEnv) (tc : ToolCall)
    (args : ToolArgs) (a : Agent) :
  currentPlan (after_dispatch iteration e tc args a) =
    currentPlan (agent_of (executeTool e (name tc) args a)) ∧
  shownPlan (visualizer (after_dispatch iteration e tc args a)) =
    shownPlan (visualizer (agent_of (executeTool e (name tc) args a))).
Proof. unfold after_dispatch. cbn. by destruct (_ && _). Qed.

Lemma planned_steps_spec (requested : list StepRequest) :
  length (planned_steps requested) = length requested ∧
  ∀ i r, requested !! i = Some r ->
    ∃ st, planned_steps requested !! i = Some st ∧
          step_id st = "step-" +:+ nat_to_string (i + 1) ∧
          step_description st = description r ∧
          step_status st = match status r with
                           | Some (String c s) => String c s
                           | _ => "pending"
                           end.
Proof.
  split; [apply length_imap|]. intros i r Hi. eexists. split.
  { unfold planned_steps. rewrite list_lookup_imap, Hi. done. }
  cbn. repeat split.
Qed.

(** C4, as the code has it.  An [update_plan] call carrying N steps.  When
    a page is active and the call is dispatched, the plan of the agent, and
    the one the visualizer shows when plans are shown, is the requested one,
    whether its display throws or not: N steps named step-1 .. step-N, with
    the descriptions of the request and its statuses, 'pending' when the
    status is omitted or empty; the current step index is the one of the
    request as given, 0 when omitted, and is not clamped.  When the call is
    refused at the confirmation, or no page is active, the plan stays as it
    was.  With the confirmation off the call is always dispatched. *)
Theorem update_plan_stores_the_request (iteration : nat) (e : ToolEnv)
    (tc : ToolCall) (args : ToolArgs) (requested : list StepRequest)
    (a : Agent) :
  name tc = "update_plan" ->
  arguments tc = Ok args ->
  request_steps args = Some requested ->
  ∃ plan,
    (has_page a ->
     currentPlan (agent_of (executeTool e "update_plan" args a)) = Some plan ∧
     (showPlanVisualization (config a) = true ->
      shownPlan (visualizer (agent_of (executeTool e "update_plan" args a))) =
        Some plan)) ∧
    (has_page a ->
     dispatches "update_plan" (events_of (processToolCall iteration e tc a)) = true ->
     currentPlan (agent_of (processToolCall iteration e tc a)) = Some plan ∧
     (showPlanVisualization (config a) = true ->
      shownPlan (visualizer (agent_of (processToolCall iteration e tc a))) =
        Some plan)) ∧
    length (steps plan) = length requested ∧
    (∀ i r, requested !! i = Some r ->
       ∃ st, steps plan !! i = Some st ∧
             step_id st = "step-" +:+ nat_to_string (i + 1) ∧
             step_description st = description r ∧
             step_status st = match status r with
                              | Some (String c s) => String c s
                              | _ => "pending"
                              end) ∧
    currentStepIndex plan = match current_step_index args with
                            | Some z => z
                            | None => 0%Z
                            end ∧
    (no_page a ∨
     dispatches "update_plan" (events_of (processToolCall iteration e tc a)) = false ->
     currentPlan (agent_of (processToolCall iteration e tc a)) = currentPlan a ∧
     shownPlan (visualizer (agent_of (processToolCall iteration e tc a))) =
       shownPlan (visualizer a)) ∧
    (no_page a ->
     executeTool e "update_plan" args a = (Throw "No active page", a, [])) ∧
    (requireConfirmation (config a) = false ->
     dispatches "update_plan" (events_of (processToolCall iteration e tc a)) = true).
Proof.
  intros Hname Hargs Hsteps.
  exists (updated_plan (currentPlan a) args requested).
  assert (∀ a0 : Agent,
            has_page a0 -> currentPlan a0 = currentPlan a ->
            config a0 = config a ->
            currentPlan (agent_of (executeTool e "update_plan" args a0)) =
              Some (updated_plan (currentPlan a) args requested) ∧
            (showPlanVisualization (config a) = true ->
             shownPlan (visualizer (agent_of (executeTool e "update_plan" args a0))) =
               Some (updated_plan (currentPlan a) args requested))) as Hstored.
  { intros a0 Hpage Hplan Hcfg.
    rewrite (update_plan_agent e args requested a0 Hpage Hsteps).
    cbn. rewrite Hplan, Hcfg.
    destruct (showPlanVisualization (config a)); cbn; [done|].
    split; [done|]. done. }
  assert (∀ a0 : Agent,
            no_page a0 ->
            agent_of (executeTool e "update_plan" args a0) = a0) as Hnone.
  { intros a0 Hp. by rewrite (executeTool_no_page e _ args a0 _ Hp). }
  split; [intros Hpage; by apply Hstored|].
  pose proof (processToolCall_cases iteration e tc a) as Hcases.
  rewrite Hname in *.
  split; [|split; [apply planned_steps_spec|split; [apply planned_steps_spec|
           split; [cbn; unfold index_or_zero; by destruct (current_step_index args)|split]]]].
  - intros Hpage Hdispatched.
    destruct Hcases
      as [(m & _ & Hrun)|[(args' & m & _ & _ & _ & Hrun)
         |[(args' & t & c & _ & Hrun)|[(args' & Hargs' & Hrun)
         |(args' & t & c & Hargs' & Hrun)]]]];
      rewrite Hrun in Hdispatched |- *;
      unfold events_of, agent_of in *; cbn [fst snd] in *; try done.
    + assert (args' = args) as -> by congruence.
      destruct (after_dispatch_plan iteration e tc args a) as [-> ->].
      rewrite Hname. by apply Hstored.
    + assert (args' = args) as -> by congruence.
      destruct (after_dispatch_plan iteration e tc args
                  (set_confirmedActions
                     (confirmedActions a ∪ {[actionKey "update_plan" t c]}) a))
        as [-> ->].
      rewrite Hname. by apply Hstored.
  - intros Hquiet.
    destruct Hcases
      as [(m & _ & Hrun)|[(args' & m & _ & _ & _ & Hrun)
         |[(args' & t & c & _ & Hrun)|[(args' & Hargs' & Hrun)
         |(args' & t & c & Hargs' & Hrun)]]]];
      rewrite Hrun in Hquiet |- *;
      unfold events_of, agent_of in *; cbn [fst snd] in *; try done.
    + assert (args' = args) as -> by congruence.
      destruct Hquiet as [Hp|Hno];
        [|by cbn in Hno].
      destruct (after_dispatch_plan iteration e tc args a) as [-> ->].
      rewrite Hname. unfold agent_of. by rewrite (Hnone a Hp).
    + assert (args' = args) as -> by congruence.
      destruct Hquiet as [Hp|Hno]; [|done].
      destruct (after_dispatch_plan iteration e tc args
                  (set_confirmedActions
                     (confirmedActions a ∪ {[actionKey "update_plan" t c]}) a))
        as [-> ->].
      rewrite Hname. unfold agent_of. by rewrite Hnone.
  - split; [intros Hp; by apply executeTool_no_page|].
    intros Hrc.
    rewrite (processToolCall_passed iteration e tc args a a [] Hargs
               (gate_without_requirement e (name tc) args a Hrc)).
    by rewrite Hname.
Qed.

End PlanUpdates.

(** *** The tab registry under any use *)

Section MoreRegistry.
Import BrowserManager Spec Notions.

Lemma map_get_None (m : PageMap) (k : string) :
  map_get m k = None <-> k ∉ map fst m.
Proof.
  induction m as [|[k0 v0] m IH]; cbn.
  - split; [intros _; apply not_elem_of_nil|done].
  - rewrite not_elem_of_cons.
    destruct (String.eqb_spec k0 k) as [->|Hk]; [by split; [|intros []]|].
    rewrite IH. split; [by split|by intros []].
Qed.

Lemma keys_map_set (m : PageMap) (k : string) (v : Page) :
  map fst (map_set m k v) =
  if map_has m k then map fst m else map fst m ++ [k].
Proof.
  unfold map_has. induction m as [|[k0 v0] m IH]; cbn; [done|].
  destruct (String.eqb_spec k0 k) as [->|Hk]; cbn; [done|].
  rewrite IH. by destruct (map_get m k).
Qed.

Lemma keys_map_delete (m : PageMap) (k : string) :
  map fst (map_delete m k) `sublist_of` map fst m.
Proof.
  induction m as [|[k0 v0] m IH]; cbn; [done|].
  destruct (String.eqb k0 k); cbn; [by apply sublist_cons|by apply sublist_skip].
Qed.

Lemma keys_distinct_set (m : PageMap) (k : string) (v : Page) :
  keys_distinct m -> keys_distinct (map_set m k v).
Proof.
  unfold keys_distinct. intros Hm. rewrite keys_map_set. unfold map_has.
  destruct (map_get m k) eqn:Hget; [done|].
  apply map_get_None in Hget. apply NoDup_app. split; [done|].
  split; [|apply NoDup_singleton].
  intros x Hx ->%list_elem_of_singleton. done.
Qed.

Lemma keys_distinct_delete (m : PageMap) (k : string) :
  keys_distinct m -> keys_distinct (map_delete m k).
Proof.
  unfold keys_distinct. intros Hm.
  eapply sublist_NoDup; [exact Hm|apply keys_map_delete].
Qed.

Lemma map_get_delete_same (m : PageMap) (k : string) :
  keys_distinct m -> map_get (map_delete m k) k = None.
Proof.
  unfold keys_distinct. induction m as [|[k0 v0] m IH]; cbn; [done|].
  intros [Hhead Htail]%NoDup_cons.
  destruct (String.eqb_spec k0 k) as [->|Hk]; cbn.
  - by apply map_get_None.
  - destruct (String.eqb_spec k0 k); [done|]. by apply IH.
Qed.

Lemma keys_named_set (m : PageMap) (i : nat) (v : Page) :
  keys_named m -> keys_named (map_set m (tab_name i) v).
Proof.
  unfold keys_named. induction m as [|[k0 v0] m IH]; cbn.
  - intros _. constructor; [by exists i|done].
  - intros [Hhead Htail]%Forall_cons.
    destruct (String.eqb k0 (tab_name i)); constructor; try done.
    + by exists i.
    + by apply IH.
Qed.

Lemma keys_named_delete (m : PageMap) (k : string) :
  keys_named m -> keys_named (map_delete m k).
Proof.
  unfold keys_named. induction m as [|[k0 v0] m IH]; cbn; [done|].
  intros [Hhead Htail]%Forall_cons. destruct (String.eqb k0 k); [done|].
  constructor; [done|]. by apply IH.
Qed.

Lemma keys_named_get (m : PageMap) (k : string) (v : Page) :
  keys_named m -> map_get m k = Some v -> ∃ i, k = tab_name i.
Proof.
  intros Hnamed Hget. apply map_get_elem in Hget.
  unfold keys_named in Hnamed. rewrite Forall_forall in Hnamed.
  by apply (Hnamed (k, v)).
Qed.

Lemma map_has_set (m : PageMap) (k k' : string) (v : Page) :
  map_has m k' = true -> map_has (map_set m k v) k' = true.
Proof.
  unfold map_has. destruct (decide (k = k')) as [->|Hne].
  - by rewrite map_get_set_same.
  - by rewrite map_get_set_other.
Qed.

Lemma well_formed_initial : well_formed initial.
Proof.
  unfold well_formed, keys_distinct, keys_named, current_registered. cbn.
  repeat split; try done. apply NoDup_nil_2.
Qed.

Lemma perform_well_formed (s : State) (step : BrowserIO * Operation) :
  well_formed s -> well_formed (perform s step).
Proof.
  intros Hwf. pose proof Hwf as (Hdistinct & Hnamed & Hcurrent & Hnone).
  destruct step as [io [|url|pageId|pageId]]; cbn [perform].
  - unfold launch. destruct (launch_result io); [|done].
    destruct (newPage_result io); [|by unfold well_formed, current_registered].
    cbn [snd]. unfold well_formed, current_registered.
    cbn [context pages currentPageId].
    split; [by apply keys_distinct_set|].
    split; [by apply (keys_named_set _ 0)|].
    split; [|done]. unfold map_has. by rewrite map_get_set_same.
  - unfold createNewTab. destruct (context s) as [ctx|] eqn:Hctx; [|done].
    destruct (newPage_result io); [|done].
    clear Hwf.
    assert (well_formed
              {| context := Some {| created := S (created ctx) |};
                 pages := map_set (pages s)
                            ("page-" +:+ nat_to_string (length (pages s)))
                            {| handle := created ctx |};
                 currentPageId := currentPageId s |}) as Hnew.
    { unfold well_formed, current_registered.
      cbn [context pages currentPageId].
      split; [by apply keys_distinct_set|].
      split; [by apply (keys_named_set _ (length (pages s)))|].
      split; [|done]. unfold current_registered in Hcurrent.
      destruct (currentPageId s); [|done]. by apply map_has_set. }
    destruct (truthy url); [|done]. by destruct (goto_result io).
  - unfold switchTab. destruct (map_has (pages s) pageId) eqn:Hhas; [|done].
    assert (well_formed {| context := context s; pages := pages s;
                           currentPageId := Some pageId |}) as Hnew.
    { by unfold well_formed, current_registered. }
    by destruct (bringToFront_result io).
  - unfold closeTab. destruct (map_get (pages s) pageId) as [page|] eqn:Hget;
      [|done].
    destruct (close_result io); [|done]. cbn [snd].
    unfold well_formed, current_registered.
    cbn [context pages currentPageId].
    split; [by apply keys_distinct_delete|].
    split; [by apply keys_named_delete|].
    split.
    + case_bool_decide as Hcur.
      * destruct (map_delete (pages s) pageId) as [|[first v] rest]; [done|].
        unfold map_has. cbn. by rewrite String.eqb_refl.
      * unfold current_registered in Hcurrent.
        destruct (currentPageId s) as [k|]; [|done].
        unfold map_has in *. rewrite map_get_delete_other; [done|].
        by intros ->.
    + intros Hctx. apply Hnone in Hctx. by rewrite Hctx in Hget.
Qed.

Lemma perform_all_well_formed (steps : list (BrowserIO * Operation)) :
  well_formed (perform_all steps).
Proof.
  unfold perform_all.
  assert (∀ s, well_formed s -> well_formed (foldl perform s steps)) as Hall.
  { induction steps as [|step steps IH]; intros s Hs; cbn; [done|].
    by apply IH, perform_well_formed. }
  apply Hall, well_formed_initial.
Qed.

Lemma well_formed_current (s : State) (k : string) :
  well_formed s -> currentPageId s = Some k ->
  ∃ page, map_get (pages s) k = Some page ∧ getCurrentPage s = Ok page.
Proof.
  intros (_ & Hnamed & Hcurrent & _) Hk.
  unfold current_registered, map_has, getCurrentPage in *. rewrite Hk in *.
  destruct (map_get (pages s) k) as [page|] eqn:Hget; [|done].
  exists page. split; [done|].
  destruct (keys_named_get _ _ _ Hnamed Hget) as [i ->].
  destruct (tab_name i) as [|c r] eqn:Hname; [done|]. by rewrite Hget.
Qed.

(** X16. Whatever methods are called on the browser manager, in whatever order
    and whether the browser obeys or throws, the registry stays in order:
    no identifier is registered twice, every identifier has the form
    [page-<n>], no tab is registered before a launch, and the current
    identifier, when there is one, is registered; so [getCurrentPage]
    throws exactly when there is no current identifier. *)
Theorem registry_stays_well_formed (steps : list (BrowserIO * Operation)) :
  well_formed (perform_all steps) ∧
  (getCurrentPage (perform_all steps) = Throw "No active page" <->
   currentPageId (perform_all steps) = None) ∧
  (∀ k, currentPageId (perform_all steps) = Some k ->
        ∃ page, map_get (pages (perform_all steps)) k = Some page ∧
                getCurrentPage (perform_all steps) = Ok page).
Proof.
  pose proof (perform_all_well_formed steps) as Hwf.
  split; [done|]. split.
  - split.
    + intros Hthrow.
      destruct (currentPageId (perform_all steps)) as [k|] eqn:Hk; [|done].
      destruct (well_formed_current _ k Hwf Hk) as (page & _ & Hpage).
      congruence.
    + intros Hnone. unfold getCurrentPage. by rewrite Hnone.
  - intros k Hk. by apply well_formed_current.
Qed.


(** X18. [closeTab] on a registry the methods have built: when it returns, the
    identifier is registered no more and one tab less is open; the other
    tabs are as they were; when the tab closed was not the current one the
    current page is as it was, and when it was the current page becomes
    the first tab left in the order of registration, or none. *)
Theorem closeTab_removes_the_tab (steps : list (BrowserIO * Operation))
    (io : BrowserIO) (id : string) (s' : State) :
  closeTab io id (perform_all steps) = (Ok tt, s') ->
  map_has (pages s') id = false ∧
  S (length (pages s')) = length (pages (perform_all steps)) ∧
  (∀ k, k ≠ id -> map_get (pages s') k = map_get (pages (perform_all steps)) k) ∧
  (currentPageId (perform_all steps) ≠ Some id ->
   currentPageId s' = currentPageId (perform_all steps) ∧
   getCurrentPage s' = getCurrentPage (perform_all steps)) ∧
  (currentPageId (perform_all steps) = Some id ->
   currentPageId s' = head (map fst (pages s'))) ∧
  well_formed s'.
Proof.
  pose proof (perform_all_well_formed steps) as Hwf.
  pose proof (perform_well_formed _ (io, CloseTab id) Hwf) as Hwf'.
  cbn [perform] in Hwf'.
  set (s := perform_all steps) in *. intros Hclose.
  rewrite Hclose in Hwf'. cbn [snd] in Hwf'.
  destruct Hwf as (Hdistinct & Hnamed & Hcurrent & _).
  revert Hclose. unfold closeTab.
  destruct (map_get (pages s) id) as [page|] eqn:Hget; [|done].
  destruct (close_result io); [|done]. intros [= <-].
  cbn [pages currentPageId].
  split; [unfold map_has; by rewrite map_get_delete_same|].
  split; [by eapply length_map_delete|].
  split; [intros k Hk; by apply map_get_delete_other|].
  split; [|split; [|done]].
  - intros Hcur. rewrite bool_decide_eq_false_2 by done. split; [done|].
    unfold getCurrentPage. cbn [currentPageId pages].
    destruct (currentPageId s) as [[|c r]|]; [done| |done].
    rewrite map_get_delete_other; [done|]. by intros ->.
  - intros Hcur. rewrite bool_decide_eq_true_2 by done.
    by destruct (map_delete (pages s) id) as [|[first v] rest].
Qed.

End MoreRegistry.

(** * The streamed answer of the model *)

Section Strings.

Lemma append_nil_r (s : string) : s +:+ "" = s.
Proof.
  induction s as [|c s IH]; [done|].
  change (String c s +:+ "") with (String c (s +:+ "")). by rewrite IH.
Qed.

Lemma append_assoc (s1 s2 s3 : string) :
  (s1 +:+ s2) +:+ s3 = s1 +:+ (s2 +:+ s3).
Proof.
  induction s1 as [|c s1 IH]; [done|].
  change (String c ((s1 +:+ s2) +:+ s3) = String c (s1 +:+ (s2 +:+ s3))).
  by rewrite IH.
Qed.

End Strings.

Section Stream.
Import LLMClient Notions.

Lemma array_get_set {A} (a : list (option A)) (i j : nat) (x : A) :
  array_get (array_set a j x) i =
  if bool_decide (i = j) then Some x else array_get a i.
Proof.
  unfold array_get, array_set.
  destruct (Nat.ltb_spec j (length a)) as [Hlt|Hge].
  - case_bool_decide as Hij.
    + subst. by rewrite list_lookup_insert_eq.
    + by rewrite list_lookup_insert_ne.
  - case_bool_decide as Hij.
    + subst. rewrite lookup_app_r by done.
      rewrite lookup_app_r by (rewrite length_replicate; lia).
      rewrite length_replicate. by rewrite Nat.sub_diag.
    + destruct (decide (i < length a)) as [Hi|Hi].
      * by rewrite lookup_app_l.
      * rewrite lookup_app_r by lia.
        rewrite (lookup_ge_None_2 a i) by lia.
        destruct (decide (i < j)) as [Hlt|Hgt].
        -- rewrite lookup_app_l by (rewrite length_replicate; lia).
           rewrite lookup_replicate_2 by lia. done.
        -- rewrite lookup_ge_None_2; [done|].
           rewrite length_app, length_replicate. cbn. lia.
Qed.


Lemma absorb_tool_call_get (calls : list (option StreamedToolCall))
    (d : ToolCallDelta) (i : nat) :
  array_get (absorb_tool_call calls d) i =
  if bool_decide (i = index_of d)
  then
    let entry :=
      default {| streamed_id := default "" (delta_id d);
                 streamed_name := "";
                 streamed_arguments := "" |} (array_get calls i) in
    Some {| streamed_id := streamed_id entry;
            streamed_name := or_else (delta_name d) (streamed_name entry);
            streamed_arguments :=
              streamed_arguments entry +:+ or_else (delta_arguments d) "" |}
  else array_get calls i.
Proof.
  unfold absorb_tool_call, index_of. rewrite array_get_set.
  case_bool_decide as Hi; [subst i|done].
  destruct (array_get calls (default 0 (delta_index d))) as [[id name args]|];
    destruct (delta_name d) as [[|c1 n1]|];
    destruct (delta_arguments d) as [[|c2 a2]|]; cbn;
    by rewrite ?append_nil_r.
Qed.

Lemma foldl_absorb_get (ds : list ToolCallDelta) :
  ∀ (calls : list (option StreamedToolCall)) (i : nat),
    array_get (foldl absorb_tool_call calls ds) i =
    match fragments_at i ds with
    | [] => array_get calls i
    | d :: rest =>
        let entry :=
          default {| streamed_id := default "" (delta_id d);
                     streamed_name := "";
                     streamed_arguments := "" |} (array_get calls i) in
        Some {| streamed_id := streamed_id entry;
                streamed_name := last_name (streamed_name entry) (d :: rest);
                streamed_arguments :=
                  streamed_arguments entry +:+ joined_arguments (d :: rest) |}
    end.
Proof.
  induction ds as [|d ds IH]; intros calls i; [done|].
  cbn [foldl]. rewrite IH, absorb_tool_call_get.
  unfold fragments_at. cbn [List.filter]. fold (fragments_at i ds).
  case_bool_decide as Hi.
  - subst i. rewrite Nat.eqb_refl.
    destruct (fragments_at (index_of d) ds) as [|d' rest]; cbn.
    + by rewrite append_nil_r.
    + by rewrite append_assoc.
  - destruct (Nat.eqb_spec (index_of d) i); [done|]. done.
Qed.

Lemma toolCalls_foldl (chunks : list Chunk) :
  ∀ s, toolCalls (foldl absorb_chunk s chunks) =
       foldl absorb_tool_call (toolCalls s) (all_fragments chunks).
Proof.
  induction chunks as [|c chunks IH]; intros s; [done|].
  cbn [foldl]. rewrite IH. unfold all_fragments. cbn [map concat].
  rewrite foldl_app. f_equal. cbn.
  by destruct (chunk_delta c ≫= delta_tool_calls).
Qed.

Lemma length_array_set {A} (a : list (option A)) (j : nat) (x : A) :
  0 < length (array_set a j x) ∧ length a <= length (array_set a j x).
Proof.
  unfold array_set. destruct (Nat.ltb_spec j (length a)).
  - rewrite length_insert. lia.
  - rewrite !length_app. cbn. lia.
Qed.

Lemma length_absorb_tool_call (calls : list (option StreamedToolCall))
    (d : ToolCallDelta) :
  0 < length (absorb_tool_call calls d) ∧
  length calls <= length (absorb_tool_call calls d).
Proof. unfold absorb_tool_call. apply length_array_set. Qed.

Lemma length_foldl_absorb (ds : list ToolCallDelta) :
  ∀ calls, length calls <= length (foldl absorb_tool_call calls ds) ∧
           (ds ≠ [] -> 0 < length (foldl absorb_tool_call calls ds)).
Proof.
  induction ds as [|d ds IH]; intros calls; cbn [foldl]; [by split|].
  destruct (IH (absorb_tool_call calls d)) as [Hle _].
  destruct (length_absorb_tool_call calls d) as [Hpos Hgrow].
  split; [lia|]. intros _. lia.
Qed.

(** X19. The tool calls of a streamed answer are put together index by index:
    the entry at an index has the identifier of the first fragment that
    came for it, the last name that was not empty, and as arguments the
    argument texts of its fragments in the order they came; an index no
    fragment came for is a hole.  The message has tool calls exactly when
    some fragment came. *)
Theorem tool_calls_are_assembled_by_index (chunks : list Chunk) :
  (∀ i, array_get (toolCalls (absorb_stream chunks)) i =
        assembled (fragments_at i (all_fragments chunks))) ∧
  (message_tool_calls (chatWithThinkingStream chunks) = None <->
   all_fragments chunks = []).
Proof.
  unfold chatWithThinkingStream, absorb_stream.
  rewrite toolCalls_foldl. cbn [toolCalls start message_tool_calls]. split.
  - intros i. rewrite foldl_absorb_get. unfold assembled.
    destruct (fragments_at i (all_fragments chunks)) as [|d rest]; [|done].
    unfold array_get. by rewrite lookup_nil.
  - destruct (all_fragments chunks) as [|d ds] eqn:Hds; [done|].
    destruct (length_foldl_absorb (d :: ds) []) as [_ Hpos].
    destruct (Nat.ltb_spec 0 (length (foldl absorb_tool_call [] (d :: ds))));
      [done|]. specialize (Hpos ltac:(done)). lia.
Qed.


Lemma texts_of_cons (field : Delta -> option string) (c : Chunk)
    (chunks : list Chunk) :
  texts_of field (c :: chunks) =
  match chunk_delta c ≫= field with
  | Some (String a r) => String a r :: texts_of field chunks
  | _ => texts_of field chunks
  end.
Proof.
  unfold texts_of. cbn [omap list_omap].
  by destruct (chunk_delta c ≫= field) as [[|a r]|].
Qed.

Lemma fullContent_foldl (chunks : list Chunk) :
  ∀ s, fullContent (foldl absorb_chunk s chunks) =
       fullContent s +:+ joined (texts_of delta_content chunks).
Proof.
  induction chunks as [|c chunks IH]; intros s; cbn [foldl].
  - cbn. by rewrite append_nil_r.
  - rewrite IH, texts_of_cons. unfold absorb_chunk. cbn [fullContent].
    destruct (chunk_delta c ≫= delta_content) as [[|a r]|]; cbn [truthy];
      try done.
    cbn [joined default]. by rewrite append_assoc.
Qed.

Lemma thinking_foldl (chunks : list Chunk) :
  ∀ s,
    thinkingContent (foldl absorb_chunk s chunks) =
      thinkingContent s +:+ joined (texts_of delta_reasoning chunks) ∧
    thinking_updates (foldl absorb_chunk s chunks) =
      thinking_updates s ++
      map (fun k => thinkingContent s +:+
                    joined (take (S k) (texts_of delta_reasoning chunks)))
          (seq 0 (length (texts_of delta_reasoning chunks))).
Proof.
  induction chunks as [|c chunks IH]; intros s; cbn [foldl].
  - cbn. by rewrite append_nil_r, app_nil_r.
  - destruct (IH (absorb_chunk s c)) as [-> ->]. rewrite texts_of_cons.
    unfold absorb_chunk. cbn [thinkingContent thinking_updates].
    destruct (chunk_delta c ≫= delta_reasoning) as [[|a r]|]; cbn [truthy];
      try done.
    cbn [joined default length]. rewrite append_assoc. split; [done|].
    rewrite <- app_assoc. f_equal. cbn [seq map]. cbn [take joined app].
    rewrite append_nil_r. f_equal.
    rewrite <- seq_shift, map_map. apply map_ext. intros k.
    cbn [take joined]. by rewrite append_assoc.
Qed.

(** X20. The content and the reasoning of a streamed answer are the texts of
    their fragments one after the other, the empty ones left out; the
    callback is called once for every reasoning fragment that is not empty,
    each time with the whole reasoning so far. *)
Theorem content_is_the_fragments_joined (chunks : list Chunk) :
  fullContent (absorb_stream chunks) = joined (texts_of delta_content chunks) ∧
  thinkingContent (absorb_stream chunks) =
    joined (texts_of delta_reasoning chunks) ∧
  thinking_updates (absorb_stream chunks) =
    map (fun k => joined (take (S k) (texts_of delta_reasoning chunks)))
        (seq 0 (length (texts_of delta_reasoning chunks))).
Proof.
  unfold absorb_stream. rewrite fullContent_foldl.
  destruct (thinking_foldl chunks start) as [-> ->]. done.
Qed.

End Stream.

(** * The elements of the page *)

Section Ordered.
Context {A : Type} (cmp : A -> A -> Z).

Lemma insert_sorted_perm (x : A) (l : list A) : insert_sorted cmp x l ≡ₚ x :: l.
Proof.
  induction l as [|y rest IH]; cbn; [done|].
  destruct (cmp x y <=? 0)%Z; [done|]. rewrite IH. apply Permutation_swap.
Qed.

Lemma sort_perm (l : list A) : sort cmp l ≡ₚ l.
Proof.
  induction l as [|x rest IH]; cbn; [done|].
  by rewrite insert_sorted_perm, IH.
Qed.

Hypothesis cmp_total : ∀ a b, (0 < cmp a b)%Z -> (cmp b a <= 0)%Z.
Hypothesis cmp_trans :
  ∀ a b c, (cmp a b <= 0)%Z -> (cmp b c <= 0)%Z -> (cmp a c <= 0)%Z.

Lemma insert_sorted_ordered (x : A) (l : list A) :
  StronglySorted (fun a b => (cmp a b <= 0)%Z) l ->
  StronglySorted (fun a b => (cmp a b <= 0)%Z) (insert_sorted cmp x l).
Proof.
  induction l as [|y rest IH]; cbn.
  - intros _. by repeat constructor.
  - intros [Hrest Hy]%StronglySorted_inv.
    destruct (Z.leb_spec (cmp x y) 0) as [Hle|Hgt].
    + constructor; [by constructor|]. constructor; [done|].
      eapply Forall_impl; [exact Hy|]. intros z Hz. by eapply cmp_trans.
    + constructor; [by apply IH|].
      rewrite insert_sorted_perm. constructor; [by apply cmp_total|done].
Qed.

Lemma sort_ordered (l : list A) :
  StronglySorted (fun a b => (cmp a b <= 0)%Z) (sort cmp l).
Proof.
  induction l as [|x rest IH]; cbn; [constructor|].
  by apply insert_sorted_ordered.
Qed.

Lemma ordered_lookup (R : A -> A -> Prop) (l : list A) :
  StronglySorted R l ->
  ∀ i j a b, i < j -> l !! i = Some a -> l !! j = Some b -> R a b.
Proof.
  induction 1 as [|x l Hl IH Hx]; intros i j a b Hij Hi Hj; [done|].
  destruct j as [|j]; [lia|]. cbn in Hj.
  destruct i as [|i]; cbn in Hi.
  - injection Hi as <-. rewrite Forall_forall in Hx. apply Hx.
    by eapply list_elem_of_lookup_2.
  - apply (IH i j); [lia|done..].
Qed.

End Ordered.

Section Extraction.
Context `{Lowercase}.
Import DOMExtractor.

Lemma viewport_first_total (a b : ElementData) :
  (0 < viewport_first a b)%Z -> (viewport_first b a <= 0)%Z.
Proof.
  unfold viewport_first.
  destruct (isInViewport a), (isInViewport b); cbn; lia.
Qed.

Lemma viewport_first_trans (a b c : ElementData) :
  (viewport_first a b <= 0)%Z -> (viewport_first b c <= 0)%Z ->
  (viewport_first a c <= 0)%Z.
Proof.
  unfold viewport_first.
  destruct (isInViewport a), (isInViewport b), (isInViewport c); cbn; lia.
Qed.

(** X21. The elements come back in another order only, none lost and none
    added; unless [prioritizeViewport] is [false], no element outside the
    viewport comes before one inside it, and among the elements inside, as
    among those outside, none comes before one that is higher on the
    page. *)
Theorem prioritized_puts_the_viewport_first (filter : ContentFilter)
    (results : list ElementData) :
  prioritized filter results ≡ₚ results ∧
  (prioritizeViewport filter = Some false ->
   prioritized filter results = results) ∧
  (prioritizeViewport filter ≠ Some false ->
   ∀ i j a b,
     i < j ->
     prioritized filter results !! i = Some a ->
     prioritized filter results !! j = Some b ->
     (isInViewport b = true -> isInViewport a = true) ∧
     (isInViewport a = isInViewport b ->
      (boundingBox_y a <= boundingBox_y b)%Z)).
Proof.
  assert (prioritizeViewport filter ≠ Some false ->
          prioritized filter results = sort viewport_first results) as Hsort.
  { unfold prioritized. by destruct (prioritizeViewport filter) as [[]|]. }
  split; [|split].
  - unfold prioritized.
    destruct (prioritizeViewport filter) as [[]|]; try done; apply sort_perm.
  - unfold prioritized. by intros ->.
  - intros Hon i j a b Hij Hi Hj. rewrite (Hsort Hon) in Hi, Hj.
    pose proof (ordered_lookup _ _
                  (sort_ordered viewport_first viewport_first_total
                     viewport_first_trans results) i j a b Hij Hi Hj) as Hab.
    revert Hab. unfold viewport_first.
    destruct (isInViewport a), (isInViewport b); cbn; intros; split;
      try done; try lia.
Qed.

Lemma filter_sublist {A} (f : A -> bool) (l : list A) :
  List.filter f l `sublist_of` l.
Proof.
  induction l as [|x l IH]; cbn; [done|].
  destruct (f x); [by apply sublist_skip|by apply sublist_cons].
Qed.

(** X22. [extractSimplifiedDOM] gives back at most [maxElements] elements, 50
    when [maxElements] is absent or 0: the first ones, in their order, of
    the elements the page gave, or of those of them that hold the text
    asked for. *)
Theorem selected_is_bounded (filter : ContentFilter)
    (elements : list ElementData) :
  length (selected filter elements) <= limit filter ∧
  0 < limit filter ∧
  (maxElements filter = None ∨ maxElements filter = Some 0 ->
   limit filter = 50) ∧
  selected filter elements `sublist_of` elements ∧
  (truthy (textContains filter) = false ->
   selected filter elements = take (limit filter) elements) ∧
  (truthy (textContains filter) = true ->
   selected filter elements =
     take (limit filter)
       (List.filter
          (contains_text (toLowerCase (default "" (textContains filter))))
          elements)).
Proof.
  assert (∀ l : list ElementData,
            (if (limit filter <? length l)%nat then take (limit filter) l else l)
            = take (limit filter) l) as Htake.
  { intros l. destruct (Nat.ltb_spec (limit filter) (length l)); [done|].
    by rewrite take_ge. }
  unfold selected. rewrite Htake.
  split; [rewrite length_take; lia|].
  split; [unfold limit; destruct (maxElements filter) as [[|n]|]; lia|].
  split; [unfold limit; by intros [-> | ->]|].
  split.
  - etrans; [apply sublist_take|].
    destruct (truthy (textContains filter)); [apply filter_sublist|done].
  - split; by intros ->.
Qed.

End Extraction.

(** * Further instances *)

Section MoreInstances.
Import BrowserAgent Spec Examples Notions Scenarios.
#[local] Existing Instance asciiLowercase.
#[local] Existing Instance plainColors.

Lemma sensitive_url_is_at_least_medium_witness :
  isDestructive (SecurityLayer.assessAction payment_field) = true ∧
  (SecurityConstants.RISK_LEVEL_ORDER medium <=
   SecurityConstants.RISK_LEVEL_ORDER
     (riskLevel (SecurityLayer.assessAction payment_field)))%Z.
Proof.
  apply (sensitive_url_is_at_least_medium payment_field
           "https://shop.example/checkout" "checkout").
  - reflexivity.
  - unfold SecurityConstants.SENSITIVE_URL_PATTERNS. repeat constructor.
  - reflexivity.
Defined.

Lemma typing_a_password_is_at_least_high_witness :
  isDestructive (SecurityLayer.assessAction payment_field) = true ∧
  (SecurityConstants.RISK_LEVEL_ORDER high <=
   SecurityConstants.RISK_LEVEL_ORDER
     (riskLevel (SecurityLayer.assessAction payment_field)))%Z.
Proof.
  apply (typing_a_password_is_at_least_high payment_field
           [("type", "password")]); reflexivity.
Defined.

Lemma button_with_payment_is_content_modification_witness :
  ∃ a, SecurityLayer.checkAttributesForDestructiveIndicators payment_button =
         Some a ∧
       riskLevel a = high ∧ category a = Some content_modification.
Proof.
  apply (button_with_payment_is_content_modification payment_button).
  - left. reflexivity.
  - vm_compute. reflexivity.
Defined.

Lemma shouldAskUser_monotone_witness :
  (PlanningUtils.shouldAskUser 5 "the page shows a form" = true ->
   PlanningUtils.shouldAskUser 7 "the page shows a form" = true) ∧
  ((5 <= 5)%Z -> PlanningUtils.shouldAskUser 5 "the page shows a form" = true).
Proof.
  apply (shouldAskUser_monotone 5 7 "the page shows a form"). lia.
Defined.

Lemma plain_call_is_not_asked_witness :
  result_of (processToolCall 1 (drafts_page true) read_page (started 3)) = Ok tt ∧
  events_of (processToolCall 1 (drafts_page true) read_page (started 3)) =
    [Dispatched "get_page_content"] ∧
  confirmedActions
    (agent_of (processToolCall 1 (drafts_page true) read_page (started 3))) =
    confirmedActions (started 3).
Proof.
  apply (plain_call_is_not_asked 1 (drafts_page true) read_page no_args
           (started 3)).
  - reflexivity.
  - exists {| BrowserManager.handle := 0 |}. reflexivity.
  - reflexivity.
  - vm_compute. reflexivity.
  - discriminate.
Defined.

Example malformed_call_throws :
  processToolCall 2 (drafts_page true) malformed_call browsing =
    (Throw "Unexpected end of JSON input", browsing, []).
Proof. reflexivity. Qed.

Lemma no_confirmation_without_requirement_witness :
  existsb is_prompt
    (events_of (executeTask asks_and_finishes "delete the draft" unattended)) =
    false ∧
  asked_by_ask_user
    (events_of (executeTask asks_and_finishes "delete the draft" unattended)).
Proof.
  apply (no_confirmation_without_requirement asks_and_finishes
           "delete the draft" unattended).
  reflexivity.
Defined.

Example unattended_asks :
  events_of (executeTask asks_and_finishes "delete the draft" unattended) =
    [ Dispatched "ask_user"; Asked (Some "Which draft?");
      Dispatched "complete_task" ].
Proof. vm_compute. reflexivity. Qed.

Example unattended_deletes :
  events_of (executeTask always_approved "delete the draft" unattended) =
    [ Dispatched "get_page_content"; Dispatched "click"; Dispatched "click";
      Dispatched "click" ].
Proof. vm_compute. reflexivity. Qed.

Lemma unknown_tool_is_reported_witness :
  dispatch (drafts_page true) "fly" no_args (started 3) =
    (Ok ("Error: Unknown tool: fly", false), started 3, [Dispatched "fly"]).
Proof.
  apply (unknown_tool_is_reported (drafts_page true) "fly" no_args (started 3)).
  - exists {| BrowserManager.handle := 0 |}. reflexivity.
  - apply (bool_decide_eq_false_1 ("fly" ∈ case_labels)). vm_compute. reflexivity.
Defined.

Lemma complete_task_ends_the_loop_witness :
  result_of (while_loop 3 finishes 0 (started 3)) = Ok (Some 1) ∧
  isTaskComplete (agent_of (while_loop 3 finishes 0 (started 3))) = true ∧
  dispatches "complete_task" (events_of (while_loop 3 finishes 0 (started 3))) =
    true.
Proof.
  apply (complete_task_ends_the_loop 2 finishes 0 (started 3)
           {| content := None; tool_calls := Some [finish; malformed_call] |}
           finish [malformed_call] report).
  - reflexivity.
  - vm_compute. lia.
  - exists {| BrowserManager.handle := 0 |}. reflexivity.
  - reflexivity.
  - reflexivity.
  - reflexivity.
  - reflexivity.
  - right. split; [reflexivity|]. vm_compute. reflexivity.
Defined.


Lemma closeTab_removes_the_tab_witness :
  let s' := (BrowserManager.closeTab BrowserManager.all_ok "page-0"
               (perform_all two_tabs)).2 in
  BrowserManager.map_has (BrowserManager.pages s') "page-0" = false ∧
  S (length (BrowserManager.pages s')) =
    length (BrowserManager.pages (perform_all two_tabs)) ∧
  (∀ k, k ≠ "page-0" ->
        BrowserManager.map_get (BrowserManager.pages s') k =
        BrowserManager.map_get (BrowserManager.pages (perform_all two_tabs)) k) ∧
  (BrowserManager.currentPageId (perform_all two_tabs) ≠ Some "page-0" ->
   BrowserManager.currentPageId s' =
     BrowserManager.currentPageId (perform_all two_tabs) ∧
   BrowserManager.getCurrentPage s' =
     BrowserManager.getCurrentPage (perform_all two_tabs)) ∧
  (BrowserManager.currentPageId (perform_all two_tabs) = Some "page-0" ->
   BrowserManager.currentPageId s' =
     head (map fst (BrowserManager.pages s'))) ∧
  well_formed s'.
Proof.
  apply (closeTab_removes_the_tab two_tabs BrowserManager.all_ok "page-0").
  reflexivity.
Defined.

Example closing_the_current_tab :
  BrowserManager.currentPageId
    (BrowserManager.closeTab BrowserManager.all_ok "page-0"
       (perform_all two_tabs)).2 = Some "page-1".
Proof. reflexivity. Qed.

Example streamed_click_assembled :
  LLMClient.message_tool_calls (LLMClient.chatWithThinkingStream streamed_click) =
    Some [Some {| LLMClient.streamed_id := "call-7";
                  LLMClient.streamed_name := "click";
                  LLMClient.streamed_arguments := "{'element_id':'el-1'}" |}] ∧
  LLMClient.thinking_updates (LLMClient.absorb_stream streamed_click) =
    ["The button "; "The button is there."].
Proof. split; reflexivity. Qed.

Lemma executeTask_stops_at_maxIterations_witness :
  result_of (executeTask always_refused "delete the draft" (started 3)) =
    Ok (Some {| iterations := 3; outcome := MaxIterationsReached |}) ∧
  result_of (iterations_from always_refused 0 3
               (at_loop_entry "delete the draft" (started 3))) = Ok tt.
Proof.
  destruct (executeTask_stops_at_maxIterations always_refused
              "delete the draft" (started 3))
    as [(n & a' & ev & Hiter & Hrun & _ & _ & _ & Hcap) _].
  assert (ev = events_of (executeTask always_refused "delete the draft"
                            (started 3))) as Hev by (by rewrite Hrun).
  destruct Hcap as (Hn & _ & Hreport); [rewrite Hev; vm_compute; reflexivity|].
  split; [exact Hreport|].
  rewrite Hn in Hiter. change (maxIterations (config (started 3))) with 3 in Hiter.
  by rewrite Hiter.
Defined.

Lemma no_active_page_does_not_abort_witness :
  result_of (executeTask always_approved "delete the draft" without_page) =
    Ok (Some {| iterations := 3; outcome := MaxIterationsReached |}) ∧
  no_page (agent_of (executeTask always_approved "delete the draft" without_page)).
Proof.
  destruct (no_active_page_does_not_abort always_approved "delete the draft"
              without_page) as (_ & _ & _ & _ & Hstart).
  destruct Hstart as (_ & Hreport & Hpage); [vm_compute; reflexivity|].
  split; [exact Hreport|exact Hpage].
Defined.

(** The page is closed in the iteration that completes the task: the click
    that follows meets no page, the iteration ends in its [catch], and the
    loop stops because the task is complete. *)
Example completed_while_the_page_is_gone :
  result_of (executeTask finishes_and_closes "delete the draft" (started 3)) =
    Ok (Some {| iterations := 1; outcome := Completed |}) ∧
  last (conversationHistory
          (agent_of (executeTask finishes_and_closes "delete the draft"
                       (started 3)))) =
    Some (UserMessage
            "An error occurred: No active page. Please try a different approach.").
Proof. split; vm_compute; reflexivity. Qed.

Lemma update_plan_stores_the_request_witness :
  ∃ plan,
    currentPlan (agent_of (processToolCall 1 (drafts_page true) plan_call
                             (started 3))) = Some plan ∧
    length (steps plan) = 1 ∧
    steps plan !! 0 = Some {| step_id := "step-1";
                              step_description := "Open the site";
                              step_status := "pending" |} ∧
    currentStepIndex plan = 5%Z.
Proof.
  destruct (update_plan_stores_the_request 1 (drafts_page true) plan_call
              plan_request
              [ {| description := "Open the site"; status := None |} ]
              (started 3) eq_refl eq_refl eq_refl)
    as (plan & _ & Hstored & Hlength & Hsteps & Hindex & _).
  exists plan.
  destruct Hstored as [Hplan _];
    [exists {| BrowserManager.handle := 0 |}; reflexivity
    |vm_compute; reflexivity|].
  split; [exact Hplan|]. split; [exact Hlength|]. split; [|exact Hindex].
  destruct (Hsteps 0 _ eq_refl) as ([id d st] & Hat & Hid & Hd & Hst).
  cbn in Hid, Hd, Hst. by rewrite Hat, Hid, Hd, Hst.
Defined.

End MoreInstances.
